(** * AluSearch: the loader, the visitor counter, the filter, the
      selection and the detail view of [streamlit_app_v4.py]

    A shallow embedding of the data-handling code of the application:
    [load_alloy_data], [get_visitor_count], [increment_visitor_count] and
    [main]: the counting of a session, the filter widgets, the filter, the
    selection, and what the detail tables and the chart are built from.

    Modelling conventions.
    - A pandas [DataFrame] is its list of column labels and its list of rows;
      a row maps a column label to a cell.  A cell is missing ([NaN]), a
      number or a text.  Finite floating-point numbers and integers are
      modelled by the rational they denote: comparison, [min], [max] and
      the truncation [int(...)] are exact on them.
    - Python exceptions are the [Raise] outcomes of the [result] monad.
    - What the environment decides (the outcome of [pd.read_csv], the
      content of the counter file, whether a write succeeds, what the user
      picked in a widget) is an explicit argument.
    - [int] on a text is modelled for ASCII texts within the limit on the
      length of a literal, and a slider for bounds Streamlit accepts; the
      theorems that depend on either say so in their hypotheses. *)

From Stdlib Require Import ZArith QArith Qcanon Ascii String.
From Stdlib Require Import DecimalString DecimalZ DecimalPos DecimalN.
From Stdlib Require OrderedTypeEx.
From stdpp Require Import base numbers option list strings gmap sorting.

Local Open Scope string_scope.
Local Open Scope list_scope.
Local Open Scope Z_scope.

(** ** Python: exceptions, [int] and [str] *)

Inductive exn :=
  | FileNotFoundError
  | KeyError (missing : list string)
  | ValueError
  | TypeError
  | IndexError
  | OSError (msg : string).

Global Instance exn_eq_dec : EqDecision exn.
Proof. solve_decision. Defined.

Inductive result (A : Type) :=
  | Ok (a : A)
  | Raise (e : exn).
Arguments Ok {A} a.
Arguments Raise {A} e.

Global Instance result_eq_dec {A} `{EqDecision A} : EqDecision (result A).
Proof. solve_decision. Defined.

Global Instance result_ret : MRet result := λ A a, Ok a.
Global Instance result_bind : MBind result := λ A B k m,
  match m with
  | Ok a => k a
  | Raise e => Raise e
  end.

Module Py.

(** The ASCII characters [int] skips around a literal: TAB..CR and space. *)
Definition is_space (a : ascii) : bool :=
  let n := nat_of_ascii a in
  ((9 <=? n) && (n <=? 13) || (n =? 32))%nat.

Fixpoint lstrip (s : string) : string :=
  match s with
  | String a s' => if is_space a then lstrip s' else s
  | EmptyString => EmptyString
  end.

Fixpoint rstrip (s : string) : string :=
  match s with
  | String a s' =>
      match rstrip s' with
      | EmptyString => if is_space a then EmptyString else String a EmptyString
      | r => String a r
      end
  | EmptyString => EmptyString
  end.

Definition strip (s : string) : string := rstrip (lstrip s).

(** No character of [s] is white space. *)
Fixpoint no_space (s : string) : Prop :=
  match s with
  | EmptyString => True
  | String a s' => is_space a = false ∧ no_space s'
  end.

(** Every character of [s] is white space. *)
Fixpoint blank (s : string) : Prop :=
  match s with
  | EmptyString => True
  | String a s' => is_space a = true ∧ blank s'
  end.

Definition digit_of (a : ascii) : option Z :=
  let n := nat_of_ascii a in
  if ((48 <=? n) && (n <=? 57))%nat then Some (Z.of_nat n - 48) else None.

(** The digits of an integer literal, most significant first; one
    underscore is allowed between two digits.  [prev] tells whether the
    character before was a digit. *)
Fixpoint parse_digits (acc : Z) (prev : bool) (s : string) : option Z :=
  match s with
  | EmptyString => if prev then Some acc else None
  | String a s' =>
      match digit_of a with
      | Some d => parse_digits (10 * acc + d) true s'
      | None =>
          if Ascii.eqb a "_" && prev then parse_digits acc false s' else None
      end
  end.

(** [int(s)] for an ASCII text [s]: surrounding white space is stripped,
    then an optional sign and a decimal literal; [None] stands for
    [ValueError].  Python integers are unbounded, hence [Z].  Two things
    are left to the hypotheses of the theorems: a text with a character
    outside ASCII (there [int] also reads the decimal digits and the white
    space of Unicode), and a literal of more than [max_str_digits] digits,
    which the current versions of Python refuse. *)
Definition int_of_string (s : string) : option Z :=
  match strip s with
  | String "-" s' => Z.opp <$> parse_digits 0 false s'
  | String "+" s' => parse_digits 0 false s'
  | s' => parse_digits 0 false s'
  end.

(** [str(n)] for an integer [n]. *)
Definition str (n : Z) : string := NilZero.string_of_int (Z.to_int n).

(** Every character of [s] is an ASCII character. *)
Fixpoint ascii_text (s : string) : Prop :=
  match s with
  | EmptyString => True
  | String a s' => (nat_of_ascii a < 128)%nat ∧ ascii_text s'
  end.

(** The default of [sys.get_int_max_str_digits()]: the longest literal
    [int] reads, and the longest text [str] writes, where the version of
    Python has the limit. *)
Definition max_str_digits : nat := 4300.

(** What the documentation of [int] gives as an integer literal: decimal
    digits with single underscores between digits ([digits s n]: the
    digits [s] denote [n]), after an optional sign, the whole surrounded
    by white space. *)
Inductive digits : string → Z → Prop :=
  | digits_first a d :
      digit_of a = Some d → digits (String a EmptyString) d
  | digits_next s n a d :
      digits s n → digit_of a = Some d →
      digits (s +:+ String a EmptyString) (10 * n + d)
  | digits_underscore s n a d :
      digits s n → digit_of a = Some d →
      digits (s +:+ String "_" (String a EmptyString)) (10 * n + d).

Inductive literal : string → Z → Prop :=
  | literal_unsigned pre body post n :
      blank pre → blank post → digits body n →
      literal (pre +:+ body +:+ post) n
  | literal_plus pre body post n :
      blank pre → blank post → digits body n →
      literal (pre +:+ String "+" body +:+ post) n
  | literal_minus pre body post n :
      blank pre → blank post → digits body n →
      literal (pre +:+ String "-" body +:+ post) (- n).

(** [int(x)] for a finite float [x]: truncation towards zero. *)
Definition trunc (q : Qc) : Z := Z.quot (Qnum q) (Z.pos (Qden q)).

End Py.

(** ** pandas: cells, frames and the column operations the code uses *)

Inductive cell :=
  | NaN
  | Num (q : Qc)
  | Str (s : string).

Global Instance cell_eq_dec : EqDecision cell.
Proof. solve_decision. Defined.

(** A frame: its column labels and its rows, in order. *)
Record DataFrame := {
  columns : list string;
  rows : list (gmap string cell)
}.

Global Instance DataFrame_eq_dec : EqDecision DataFrame.
Proof. solve_decision. Defined.

Module Pd.

(** [pd.DataFrame()]. *)
Definition empty_frame : DataFrame := {| columns := []; rows := [] |}.

(** [df.empty]: one of the two axes has length 0. *)
Definition empty (df : DataFrame) : bool :=
  match columns df, rows df with
  | [], _ | _, [] => true
  | _, _ => false
  end.

(** Every row has a cell for every column label, and for nothing else. *)
Definition rectangular (df : DataFrame) : Prop :=
  Forall (λ r : gmap string cell, ∀ c, is_Some (r !! c) ↔ c ∈ columns df) (rows df).

(** The cell of row [r] in column [c]. *)
Definition at_ (r : gmap string cell) (c : string) : cell := default NaN (r !! c).

(** [df[c]]: the column as a series, [KeyError] for an unknown label. *)
Definition series (df : DataFrame) (c : string) : result (list cell) :=
  if decide (c ∈ columns df) then Ok ((λ r, at_ r c) <$> rows df)
  else Raise (KeyError [c]).

(** [fillna(v)] on one cell. *)
Definition fillna (v : cell) (c : cell) : cell :=
  match c with
  | NaN => v
  | _ => c
  end.

Definition fillna_row (cols : list string) (v : cell) (r : gmap string cell)
  : gmap string cell :=
  foldr (λ c r', alter (fillna v) c r') r cols.

(** [df[cols] = df[cols].fillna(v)]: [KeyError] names the labels of
    [cols] the frame does not have. *)
Definition fillna_columns (cols : list string) (v : cell) (df : DataFrame)
  : result DataFrame :=
  match filter (λ c, c ∉ columns df) cols with
  | [] => Ok {| columns := columns df; rows := fillna_row cols v <$> rows df |}
  | missing => Raise (KeyError missing)
  end.

(** [s.unique()]: the distinct values, in order of first appearance
    (missing values count as one value). *)
Fixpoint unique (s : list cell) : list cell :=
  match s with
  | [] => []
  | c :: s' => c :: filter (λ c', c' ≠ c) (unique s')
  end.

(** [s.isin(values)]. *)
Definition isin (values : list cell) (s : list cell) : list bool :=
  (λ c, bool_decide (c ∈ values)) <$> s.

(** [lo <= x <= hi] for one cell and integer bounds: a missing value
    compares false, a text cannot be compared with an integer. *)
Definition between_cell (lo hi : Z) (c : cell) : result bool :=
  match c with
  | NaN => Ok false
  | Num q => Ok (bool_decide (Qc_of_Z lo ≤ q)%Qc && bool_decide (q ≤ Qc_of_Z hi)%Qc)
  | Str _ => Raise TypeError
  end.

Fixpoint mapM {A B} (f : A → result B) (l : list A) : result (list B) :=
  match l with
  | [] => Ok []
  | x :: l' => y ← f x; ys ← mapM f l'; Ok (y :: ys)
  end.

(** [s.between(lo, hi)], both ends included. *)
Definition between (lo hi : Z) (s : list cell) : result (list bool) :=
  mapM (between_cell lo hi) s.

(** [s == v], element by element: a missing value equals nothing. *)
Definition eq_cell (v : cell) (c : cell) : bool :=
  match v, c with
  | NaN, _ | _, NaN => false
  | _, _ => bool_decide (c = v)
  end.

(** [m1 & m2] on boolean series of one length. *)
Definition mask_and (m1 m2 : list bool) : list bool := zip_with andb m1 m2.

(** [df[mask]]: the rows whose mask entry is true, in order. *)
Fixpoint select {A} (mask : list bool) (l : list A) : list A :=
  match mask, l with
  | b :: mask', x :: l' => if b then x :: select mask' l' else select mask' l'
  | _, _ => []
  end.

Definition loc (mask : list bool) (df : DataFrame) : DataFrame :=
  {| columns := columns df; rows := select mask (rows df) |}.

(** The numbers of a numeric series, missing values skipped.  A text
    cell in a column the code treats as numeric always ends in an
    exception: a [TypeError] in [min]/[max] or, at the latest, in
    [between], or a [ValueError] in [int] when the column holds texts
    only; the model raises [TypeError] at the first of these uses, so of
    such a column it tells that an exception is raised, not which. *)
Fixpoint numbers (s : list cell) : result (list Qc) :=
  match s with
  | [] => Ok []
  | NaN :: s' => numbers s'
  | Num q :: s' => l ← numbers s'; Ok (q :: l)
  | Str _ :: _ => Raise TypeError
  end.

Definition qmin (a b : Qc) : Qc := if decide (a ≤ b)%Qc then a else b.
Definition qmax (a b : Qc) : Qc := if decide (a ≤ b)%Qc then b else a.

(** [s.min()] and [s.max()]: missing values are skipped; the result is
    missing when nothing is left. *)
Definition min (s : list cell) : result cell :=
  l ← numbers s;
  Ok (match l with [] => NaN | q :: l' => Num (foldr qmin q l') end).

Definition max (s : list cell) : result cell :=
  l ← numbers s;
  Ok (match l with [] => NaN | q :: l' => Num (foldr qmax q l') end).

End Pd.

(** [int(x)] for a cell read out of a series. *)
Definition py_int (c : cell) : result Z :=
  match c with
  | NaN => Raise ValueError
  | Num q => Ok (Py.trunc q)
  | Str s => match Py.int_of_string s with Some n => Ok n | None => Raise ValueError end
  end.

(** [bool(x)], as the conditions [if x] and [x and y] use it; a missing
    value (a float NaN) is true. *)
Definition truthy (c : cell) : bool :=
  match c with
  | NaN => true
  | Num q => bool_decide (q ≠ Qc_of_Z 0)
  | Str s => bool_decide (s ≠ EmptyString)
  end.

(** [a < b] where Python defines it between a text and a text or a number
    and a number; a comparison with a missing value is false. *)
Definition cell_lt (a b : cell) : bool :=
  match a, b with
  | Str s, Str t => String.ltb s t
  | Num p, Num q => bool_decide (p < q)%Qc
  | _, _ => false
  end.

(** [not (b < a)]: the order a stable sort by [<] keeps. *)
Definition cell_le (a b : cell) : Prop := cell_lt b a = false.

Global Instance cell_le_dec : RelDecision cell_le.
Proof. intros a b. unfold cell_le. apply _. Defined.

Definition is_str (c : cell) : bool :=
  match c with Str _ => true | _ => false end.

(** [sorted(l)]: a list holding a text and a non-text raises [TypeError]
    (some comparison meets both); otherwise the list is sorted, stably,
    by [<].  With a missing value among numbers Python's order is an
    artefact of its sorting algorithm: the model then returns one
    permutation and nothing below relies on which. *)
Definition sorted (l : list cell) : result (list cell) :=
  if existsb is_str l && existsb (λ c, negb (is_str c)) l then Raise TypeError
  else Ok (merge_sort cell_le l).

(** ** Streamlit: what a widget returns *)

Module St.

(** [st.multiselect(label, options, default=options)]: the options the
    user picked, all of them before any interaction. *)
Definition multiselect (options : list cell) (pick : option (list cell))
  : list cell :=
  match pick with
  | Some l => filter (λ c, c ∈ options) l
  | None => options
  end.

(** The integers [st.slider] takes as a bound: those a JavaScript number
    holds exactly.  With a bound outside them [st.slider] raises an
    exception, which [slider] below does not show: the theorems that say
    the page of a file is built bound the numbers of the file
    ([File.in_slider_range]) and conclude that the bounds are accepted. *)
Definition max_safe_integer : Z := 9007199254740991.

Definition accepts (min_value max_value : Z) : Prop :=
  (- max_safe_integer ≤ min_value ∧ min_value ≤ max_safe_integer)
  ∧ (- max_safe_integer ≤ max_value ∧ max_value ≤ max_safe_integer).

Global Instance accepts_dec min_value max_value :
  Decision (accepts min_value max_value).
Proof. unfold accepts. apply _. Defined.

(** [st.slider(label, min_value, max_value, (min_value, max_value))] for
    bounds it accepts: a pair within the bounds, the bounds themselves
    before any interaction. *)
Definition slider (min_value max_value : Z) (pick : option (Z * Z)) : Z * Z :=
  match pick with
  | Some (a, b) =>
      if (min_value <=? a) && (a <=? b) && (b <=? max_value) then (a, b)
      else (min_value, max_value)
  | None => (min_value, max_value)
  end.

(** [st.selectbox(label, options, index)]: the option the user picked,
    [options[index]] before any interaction, [None] without options. *)
Definition selectbox (options : list cell) (index : nat) (pick : option nat)
  : option cell :=
  match pick ≫= (λ i, options !! i) with
  | Some c => Some c
  | None => options !! index
  end.

End St.

(** ** The application *)

(** The messages shown with [st.error]. *)
Inductive signal :=
  | DatasetNotFound (csv_file_path : string)
  | DatasetLoadError (cause : exn)
  | CounterWriteError (cause : exn).

Global Instance signal_eq_dec : EqDecision signal.
Proof. solve_decision. Defined.

(** What the file system does with [open(full_path, "w")] followed by
    [f.write]: the write succeeds, [open] fails (file untouched), or the
    write fails after [open] has truncated the file. *)
Inductive write_outcome :=
  | WriteOk
  | OpenFails (e : exn)
  | WriteFails (e : exn).

(** The values the filter widgets hand back. *)
Record FilterState := {
  selected_corrosion : list cell;
  tensile_range : Z * Z;
  yield_range : Z * Z;
  elongation_range : Z * Z;
  thermal_cond_range : Z * Z;
  elec_cond_range : Z * Z
}.

Global Instance FilterState_eq_dec : EqDecision FilterState.
Proof. solve_decision. Defined.

(** What the user did with each widget ([None]: nothing yet). *)
Record picks := {
  pick_corrosion : option (list cell);
  pick_tensile : option (Z * Z);
  pick_yield : option (Z * Z);
  pick_elongation : option (Z * Z);
  pick_thermal_cond : option (Z * Z);
  pick_elec_cond : option (Z * Z);
  pick_alloy : option nat;
  pick_temper : option nat
}.

Definition no_picks : picks :=
  {| pick_corrosion := None; pick_tensile := None; pick_yield := None;
     pick_elongation := None; pick_thermal_cond := None;
     pick_elec_cond := None; pick_alloy := None; pick_temper := None |}.

(** The main content of the page. *)
Inductive view :=
  | Detail (selected_alloy selected_temper : cell) (alloy_data : gmap string cell)
  | NoAlloyWarning
  | SelectInfo.

Global Instance view_eq_dec : EqDecision view.
Proof. solve_decision. Defined.

Record page := {
  visitor_count : Z;
  filtered_df : DataFrame;
  shown : view
}.

Global Instance page_eq_dec : EqDecision page.
Proof. solve_decision. Defined.

(** The environment of one run of [main], and what the run leaves. *)
Record world := {
  csv : result DataFrame;
  count_file : option string;
  write : write_outcome;
  counted : bool
}.

Record run := {
  run_count_file : option string;
  run_counted : bool;
  run_errors : list signal;
  run_page : result (option page)
}.

Global Instance run_eq_dec : EqDecision run.
Proof. solve_decision. Defined.

Module App.

Definition cols_to_fill : list string :=
  [ "Si_percent"; "Fe_percent"; "Cu_percent"; "Mn_percent"; "Mg_percent";
    "Cr_percent"; "Zn_percent"; "Ti_percent";
    "density_g_cm3"; "thermal_expansion_e-6_k"; "thermal_conductivity_w_mk";
    "electrical_conductivity_iacs" ].

(** [load_alloy_data]; [read_csv] is the outcome of [pd.read_csv(full_path)]. *)
Definition load_alloy_data (csv_file_path : string) (read_csv : result DataFrame)
  : DataFrame * list signal :=
  let body :=
    df ← read_csv;
    df ← Pd.fillna_columns cols_to_fill (Num (Qc_of_Z 0)) df;
    if decide ("corrosion_resistance" ∈ columns df)
    then Pd.fillna_columns ["corrosion_resistance"] (Str "-") df
    else Ok df in
  match body with
  | Ok df => (df, [])
  | Raise FileNotFoundError => (Pd.empty_frame, [DatasetNotFound csv_file_path])
  | Raise e => (Pd.empty_frame, [DatasetLoadError e])
  end.

(** [get_visitor_count]: [open] raises [FileNotFoundError] on an absent
    file and [int] raises [ValueError] on a content that is no literal;
    both are caught and give 0. *)
Definition get_visitor_count (f : option string) : Z :=
  match f with
  | None => 0
  | Some content =>
      match Py.int_of_string content with
      | Some n => n
      | None => 0
      end
  end.

(** [increment_visitor_count]: the file it leaves and the error it shows. *)
Definition increment_visitor_count (w : write_outcome) (f : option string)
  : option string * list signal :=
  let count := get_visitor_count f + 1 in
  match w with
  | WriteOk => (Some (Py.str count), [])
  | OpenFails e => (f, [CounterWriteError e])
  | WriteFails e => (Some EmptyString, [CounterWriteError e])
  end.

(** [n] calls in a row, every write succeeding. *)
Fixpoint increment_times (n : nat) (f : option string) : option string :=
  match n with
  | O => f
  | S n' => increment_times n' (fst (increment_visitor_count WriteOk f))
  end.

(** The bounds of a slider, lines 108-109 (and the four copies below):
    [int(s.min()), int(s.max())], the upper one moved up by one when the
    two are equal. *)
Definition slider_bounds (s : list cell) : result (Z * Z) :=
  mn ← Pd.min s;
  lo ← py_int mn;
  mx ← Pd.max s;
  hi ← py_int mx;
  Ok (lo, if decide (lo = hi) then hi + 1 else hi).

Definition range_slider (df : DataFrame) (c : string) (pick : option (Z * Z))
  : result (Z * Z) :=
  s ← Pd.series df c;
  '(lo, hi) ← slider_bounds s;
  Ok (St.slider lo hi pick).

(** The sidebar filters, lines 98-126. *)
Definition filter_widgets (df : DataFrame) (ui : picks) : result FilterState :=
  corrosion ← Pd.series df "corrosion_resistance";
  corrosion_options ← sorted (Pd.unique corrosion);
  let selected := St.multiselect corrosion_options (pick_corrosion ui) in
  tensile ← range_slider df "tensile_strength_mpa" (pick_tensile ui);
  yield ← range_slider df "yield_strength_mpa" (pick_yield ui);
  elongation ← range_slider df "elongation_percent" (pick_elongation ui);
  thermal ← range_slider df "thermal_conductivity_w_mk" (pick_thermal_cond ui);
  elec ← range_slider df "electrical_conductivity_iacs" (pick_elec_cond ui);
  Ok {| selected_corrosion := selected; tensile_range := tensile;
        yield_range := yield; elongation_range := elongation;
        thermal_cond_range := thermal; elec_cond_range := elec |}.

Definition between_column (df : DataFrame) (c : string) (range : Z * Z)
  : result (list bool) :=
  s ← Pd.series df c;
  Pd.between (fst range) (snd range) s.

(** The filter, lines 129-136. *)
Definition apply_filter (df : DataFrame) (fs : FilterState) : result DataFrame :=
  corrosion ← Pd.series df "corrosion_resistance";
  let m := Pd.isin (selected_corrosion fs) corrosion in
  m2 ← between_column df "tensile_strength_mpa" (tensile_range fs);
  let m := Pd.mask_and m m2 in
  m3 ← between_column df "yield_strength_mpa" (yield_range fs);
  let m := Pd.mask_and m m3 in
  m4 ← between_column df "elongation_percent" (elongation_range fs);
  let m := Pd.mask_and m m4 in
  m5 ← between_column df "thermal_conductivity_w_mk" (thermal_cond_range fs);
  let m := Pd.mask_and m m5 in
  m6 ← between_column df "electrical_conductivity_iacs" (elec_cond_range fs);
  let m := Pd.mask_and m m6 in
  Ok (Pd.loc m df).

(** [l.index(x) if x in l else 0]. *)
Definition index_or_0 (x : cell) (l : list cell) : nat :=
  match list_find (λ c, c = x) l with
  | Some (i, _) => i
  | None => 0%nat
  end.

Definition truthy_opt (o : option cell) : bool :=
  match o with
  | Some c => truthy c
  | None => false
  end.

(** The two select boxes, lines 139-153: the list of alloys and the
    selected alloy and temper. *)
Definition select_widgets (filtered : DataFrame) (ui : picks)
  : result (list cell * option cell * option cell) :=
  alloys ← Pd.series filtered "alloy";
  alloy_list ← sorted (Pd.unique alloys);
  match alloy_list with
  | [] => Ok ([], None, None)
  | _ =>
      let selected_alloy :=
        St.selectbox alloy_list (index_or_0 (Str "A5052") alloy_list)
          (pick_alloy ui) in
      available_tempers ←
        match selected_alloy with
        | Some a =>
            if truthy a then
              alloys ← Pd.series filtered "alloy";
              tempers ← Pd.series (Pd.loc (Pd.eq_cell a <$> alloys) filtered) "temper";
              sorted (Pd.unique tempers)
            else Ok []
        | None => Ok []
        end;
      let selected_temper :=
        St.selectbox available_tempers (index_or_0 (Str "H32") available_tempers)
          (pick_temper ui) in
      Ok (alloy_list, selected_alloy, selected_temper)
  end.

(** The branch on the selection, lines 168-169 and 282-285: [.iloc[0]] of
    the rows matching the alloy and the temper, or one of the two
    messages. *)
Definition resolve (filtered : DataFrame) (alloy_list : list cell)
    (selected_alloy selected_temper : option cell) : result view :=
  if truthy_opt selected_alloy && truthy_opt selected_temper then
    match selected_alloy, selected_temper with
    | Some a, Some t =>
        alloys ← Pd.series filtered "alloy";
        tempers ← Pd.series filtered "temper";
        match Pd.select (Pd.mask_and (Pd.eq_cell a <$> alloys) (Pd.eq_cell t <$> tempers))
                (rows filtered) with
        | alloy_data :: _ => Ok (Detail a t alloy_data)
        | [] => Raise IndexError
        end
    | _, _ => Ok SelectInfo
    end
  else
    match alloy_list with
    | [] => Ok NoAlloyWarning
    | _ => Ok SelectInfo
    end.

(** The selection resolver: the select boxes, then the branch. *)
Definition selection (filtered : DataFrame) (ui : picks) : result view :=
  '(alloy_list, selected_alloy, selected_temper) ← select_widgets filtered ui;
  resolve filtered alloy_list selected_alloy selected_temper.

(** [main], without the rendering of the tables and of the chart. *)
Definition main (w : world) (ui : picks) : run :=
  let '(df, errors) := load_alloy_data "aluminum_data_v2.csv" (csv w) in
  if Pd.empty df then
    {| run_count_file := count_file w; run_counted := counted w;
       run_errors := errors; run_page := Ok None |}
  else
    let '(file, errors') :=
      if counted w then (count_file w, [])
      else increment_visitor_count (write w) (count_file w) in
    let visitor_count := get_visitor_count file in
    {| run_count_file := file; run_counted := true;
       run_errors := errors ++ errors';
       run_page :=
         fs ← filter_widgets df ui;
         filtered ← apply_filter df fs;
         v ← selection filtered ui;
         Ok (Some {| visitor_count := visitor_count; filtered_df := filtered;
                     shown := v |}) |}.

End App.

(** ** The vocabulary of the specification *)

Module Spec.

(** The five columns filtered by a range. *)
Definition range_columns : list string :=
  [ "tensile_strength_mpa"; "yield_strength_mpa"; "elongation_percent";
    "thermal_conductivity_w_mk"; "electrical_conductivity_iacs" ].

(** A value lies within an inclusive range: it is a number between the
    two bounds. *)
Definition within (c : cell) (range : Z * Z) : Prop :=
  match c with
  | Num q => (Qc_of_Z range.1 ≤ q)%Qc ∧ (q ≤ Qc_of_Z range.2)%Qc
  | _ => False
  end.

Global Instance within_dec c range : Decision (within c range).
Proof. destruct c; simpl; apply _. Defined.

(** The six predicates of the filter engine, all of which must hold. *)
Definition retained (fs : FilterState) (r : gmap string cell) : Prop :=
  Pd.at_ r "corrosion_resistance" ∈ selected_corrosion fs
  ∧ within (Pd.at_ r "tensile_strength_mpa") (tensile_range fs)
  ∧ within (Pd.at_ r "yield_strength_mpa") (yield_range fs)
  ∧ within (Pd.at_ r "elongation_percent") (elongation_range fs)
  ∧ within (Pd.at_ r "thermal_conductivity_w_mk") (thermal_cond_range fs)
  ∧ within (Pd.at_ r "electrical_conductivity_iacs") (elec_cond_range fs).

Global Instance retained_dec fs r : Decision (retained fs r).
Proof. unfold retained. apply _. Defined.

(** A frame the filter can run on: it has the six filter columns and no
    text in the five numeric ones. *)
Definition filterable (df : DataFrame) : Prop :=
  "corrosion_resistance" ∈ columns df
  ∧ Forall (λ c, c ∈ columns df) range_columns
  ∧ Forall (λ r, Forall (λ c, is_str (Pd.at_ r c) = false) range_columns) (rows df).

Global Instance filterable_dec df : Decision (filterable df).
Proof. unfold filterable. apply _. Defined.

(** [r'] is [r] narrowed: its lower bound raised, its upper bound lowered,
    or both, or neither. *)
Definition narrower_range (r' r : Z * Z) : Prop := r.1 ≤ r'.1 ∧ r'.2 ≤ r.2.

Definition narrower (fs' fs : FilterState) : Prop :=
  selected_corrosion fs' ⊆ selected_corrosion fs
  ∧ narrower_range (tensile_range fs') (tensile_range fs)
  ∧ narrower_range (yield_range fs') (yield_range fs)
  ∧ narrower_range (elongation_range fs') (elongation_range fs)
  ∧ narrower_range (thermal_cond_range fs') (thermal_cond_range fs)
  ∧ narrower_range (elec_cond_range fs') (elec_cond_range fs).

Global Instance narrower_dec fs' fs : Decision (narrower fs' fs).
Proof. unfold narrower, narrower_range. apply _. Defined.

(** A text that is not empty. *)
Definition nonempty_text (c : cell) : Prop :=
  match c with
  | Str s => s ≠ EmptyString
  | _ => False
  end.

Global Instance nonempty_text_dec c : Decision (nonempty_text c).
Proof. destruct c; simpl; apply _. Defined.

(** The identifiers of every row are texts, as [pd.read_csv] reads an
    identifier: an empty field is read as missing, never as an empty text. *)
Definition text_identifiers (df : DataFrame) : Prop :=
  Forall (λ r, nonempty_text (Pd.at_ r "alloy")
               ∧ nonempty_text (Pd.at_ r "temper")) (rows df).

Global Instance text_identifiers_dec df : Decision (text_identifiers df).
Proof. unfold text_identifiers. apply _. Defined.

Definition matches (a t : cell) (r : gmap string cell) : Prop :=
  Pd.at_ r "alloy" = a ∧ Pd.at_ r "temper" = t.

(** [r] is the first row of [l] with alloy [a] and temper [t]. *)
Definition first_match (a t : cell) (l : list (gmap string cell))
    (r : gmap string cell) : Prop :=
  ∃ pre post, l = pre ++ r :: post ∧ matches a t r
              ∧ Forall (λ r', ¬ matches a t r') pre.

(** A number that is an integer. *)
Definition integral (c : cell) : Prop :=
  match c with
  | Num q => q = Qc_of_Z (Py.trunc q)
  | _ => False
  end.

Global Instance integral_dec c : Decision (integral c).
Proof. destruct c; simpl; apply _. Defined.

(** The range a filter state has for a column filtered by a range. *)
Definition range_of (fs : FilterState) (c : string) : Z * Z :=
  if decide (c = "tensile_strength_mpa") then tensile_range fs
  else if decide (c = "yield_strength_mpa") then yield_range fs
  else if decide (c = "elongation_percent") then elongation_range fs
  else if decide (c = "thermal_conductivity_w_mk") then thermal_cond_range fs
  else elec_cond_range fs.

(** The cleaning rule on one row: the twelve numeric columns default to 0
    and, when the frame has the column, the corrosion class to "-". *)
Definition clean_row (has_corrosion : bool) (r : gmap string cell)
  : gmap string cell :=
  let r1 := Pd.fillna_row App.cols_to_fill (Num (Qc_of_Z 0)) r in
  if has_corrosion then Pd.fillna_row ["corrosion_resistance"] (Str "-") r1
  else r1.

End Spec.

(** ** Sample data *)

Module Data.

Definition int (n : Z) : cell := Num (Qc_of_Z n).
Definition dec (n : Z) (d : positive) : cell := Num (Q2Qc (n # d)).

Definition header : list string :=
  [ "alloy"; "temper"; "description"; "tensile_strength_mpa";
    "yield_strength_mpa"; "elongation_percent"; "hardness_brinell";
    "corrosion_resistance"; "density_g_cm3"; "thermal_expansion_e-6_k";
    "thermal_conductivity_w_mk"; "electrical_conductivity_iacs";
    "Si_percent"; "Fe_percent"; "Cu_percent"; "Mn_percent"; "Mg_percent";
    "Cr_percent"; "Zn_percent"; "Ti_percent"; "Al_percent" ].

(** A row, cell by cell in the order of [header]. *)
Definition record (cells : list cell) : gmap string cell :=
  list_to_map (zip header cells).

(** A5052-H32 as the file has it: no titanium content, no corrosion class. *)
Definition a5052_h32_raw (elongation : cell) : gmap string cell :=
  record [ Str "A5052"; Str "H32"; Str "Al-Mg"; int 230; int 195; elongation;
           int 60; NaN; dec 268 100; dec 238 10; int 138; int 35;
           dec 25 100; dec 40 100; dec 10 100; dec 10 100; dec 25 10;
           dec 25 100; dec 10 100; NaN; Str "Rem." ].

(** The same row after the cleaning of the loader. *)
Definition a5052_h32 (elongation : cell) : gmap string cell :=
  record [ Str "A5052"; Str "H32"; Str "Al-Mg"; int 230; int 195; elongation;
           int 60; Str "-"; dec 268 100; dec 238 10; int 138; int 35;
           dec 25 100; dec 40 100; dec 10 100; dec 10 100; dec 25 10;
           dec 25 100; dec 10 100; int 0; Str "Rem." ].

Definition a6061_t6 : gmap string cell :=
  record [ Str "A6061"; Str "T6"; Str "Al-Mg-Si"; int 310; int 275; int 10;
           int 95; Str "B"; dec 270 100; dec 236 10; int 167; int 43;
           dec 60 100; dec 70 100; dec 28 100; dec 15 100; int 1;
           dec 20 100; dec 25 100; dec 15 100; Str "Rem." ].

(** The two-row scenario: every filtered value is an integer. *)
Definition two_rows_raw : DataFrame :=
  {| columns := header; rows := [a5052_h32_raw (int 12); a6061_t6] |}.

Definition two_rows : DataFrame :=
  {| columns := header; rows := [a5052_h32 (int 12); a6061_t6] |}.

(** The same two rows, the elongation of A5052-H32 being 12.5 %: the
    file, and the frame the loader makes of it. *)
Definition fractional_raw : DataFrame :=
  {| columns := header; rows := [a5052_h32_raw (dec 25 2); a6061_t6] |}.

Definition fractional : DataFrame :=
  {| columns := header; rows := [a5052_h32 (dec 25 2); a6061_t6] |}.

(** A file without the column [corrosion_resistance]. *)
Definition no_corrosion_column : DataFrame :=
  {| columns := filter (λ c, c ≠ "corrosion_resistance") header;
     rows := [delete "corrosion_resistance" a6061_t6] |}.

(** One row whose temper field is empty in the file. *)
Definition missing_temper : DataFrame :=
  {| columns := header;
     rows := [ record [ Str "ADC12"; NaN; Str "Al-Si-Cu"; int 310; int 150;
                        int 3; int 85; Str "C"; dec 270 100; int 21; int 96;
                        int 23; int 11; int 1; int 2; int 0; int 0; int 0;
                        int 1; int 0; Str "Rem." ] ] |}.

(** The widgets left alone on [two_rows], and the tensile slider then
    moved to 300..310. *)
Definition full_span : FilterState :=
  {| selected_corrosion := [Str "-"; Str "B"];
     tensile_range := (230, 310); yield_range := (195, 275);
     elongation_range := (10, 12); thermal_cond_range := (138, 167);
     elec_cond_range := (35, 43) |}.

Definition narrow_tensile : FilterState :=
  {| selected_corrosion := [Str "-"; Str "B"];
     tensile_range := (300, 310); yield_range := (195, 275);
     elongation_range := (10, 12); thermal_cond_range := (138, 167);
     elec_cond_range := (35, 43) |}.

(** A first visit: the file parses, the counter file holds 41. *)
Definition first_visit (file : DataFrame) : world :=
  {| csv := Ok file; count_file := Some "41"; write := WriteOk;
     counted := false |}.

End Data.

(** ** Python: the text and list methods of the detail view *)

Module PyStr.

(** [s.replace(old, new)] for a non-empty [old]: the occurrences of [old]
    are found from the left, without overlap, and replaced.  [skip] counts
    the characters of the occurrence being replaced that are still to be
    passed. *)
Fixpoint replace_from (old new : string) (skip : nat) (s : string) : string :=
  match s with
  | EmptyString => EmptyString
  | String a s' =>
      match skip with
      | S k => replace_from old new k s'
      | O =>
          if String.prefix old s
          then String.append new (replace_from old new (String.length old - 1) s')
          else String a (replace_from old new 0 s')
      end
  end.

(** With an empty [old], [new] is put before every character and at the
    end. *)
Fixpoint intersperse (new s : string) : string :=
  match s with
  | EmptyString => EmptyString
  | String a s' => String a (String.append new (intersperse new s'))
  end.

Definition replace (old new s : string) : string :=
  match old with
  | EmptyString => String.append new (intersperse new s)
  | _ => replace_from old new 0 s
  end.

(** [s.upper()] for an ASCII text. *)
Definition upper_char (a : ascii) : ascii :=
  let n := nat_of_ascii a in
  if ((97 <=? n) && (n <=? 122))%nat then ascii_of_nat (n - 32) else a.

Fixpoint upper (s : string) : string :=
  match s with
  | EmptyString => EmptyString
  | String a s' => String (upper_char a) (upper s')
  end.

(** [l.index(x)]: the first position of [x], [ValueError] without one. *)
Definition index (x : string) (l : list string) : result nat :=
  match list_find (λ y, y = x) l with
  | Some (i, _) => Ok i
  | None => Raise ValueError
  end.

End PyStr.

(** ** The main content: the detail tables and the chart *)

(** The two layers of the scatter chart: the columns on the axes, the
    frame behind the grey points and the frame behind the red ones. *)
Record chart := {
  x_axis_col : string;
  y_axis_col : string;
  base_data : DataFrame;
  highlight_data : DataFrame
}.

(** What the detail view is rendered from.  A table is the list of its
    labelled cells, in order; the cells are those of the row, before the
    formatting of the numbers. *)
Record content := {
  description : cell;
  mechanical_properties : list (string * cell);
  physical_properties : list (string * cell);
  chem_data : list (string * cell);
  scatter : chart
}.

Module Content.

(** [alloy_data[c]]: [alloy_data] is a row of [filtered_df], a series
    indexed by the column labels of the frame. *)
Definition field (filtered : DataFrame) (alloy_data : gmap string cell)
    (c : string) : result cell :=
  if decide (c ∈ columns filtered) then Ok (Pd.at_ alloy_data c)
  else Raise (KeyError [c]).

(** [alloy_data[cols]]: [KeyError] names the labels the row does not have. *)
Definition fields (filtered : DataFrame) (alloy_data : gmap string cell)
    (cols : list string) : result (list (string * cell)) :=
  match filter (λ c, c ∉ columns filtered) cols with
  | [] => Ok ((λ c, (c, Pd.at_ alloy_data c)) <$> cols)
  | missing => Raise (KeyError missing)
  end.

(** A dictionary of labels and of values read from the row one after the
    other, lines 182-190 and 197-206. *)
Definition properties (filtered : DataFrame) (alloy_data : gmap string cell)
    (table : list (string * string)) : result (list (string * cell)) :=
  Pd.mapM (λ p, v ← field filtered alloy_data p.2; Ok (p.1, v)) table.

Definition mechanical : list (string * string) :=
  [ ("引張強度 (MPa)", "tensile_strength_mpa");
    ("降伏強度 (MPa)", "yield_strength_mpa");
    ("伸び (%)", "elongation_percent");
    ("ブリネル硬さ", "hardness_brinell") ].

Definition physical : list (string * string) :=
  [ ("耐食性", "corrosion_resistance");
    ("比重 (g/cm³)", "density_g_cm3");
    ("熱膨張率 (10⁻⁶/K)", "thermal_expansion_e-6_k");
    ("熱伝導性 (W/m·K)", "thermal_conductivity_w_mk");
    ("導電率 (% IACS)", "electrical_conductivity_iacs") ].

Definition chem_cols : list string :=
  [ "Si_percent"; "Fe_percent"; "Cu_percent"; "Mn_percent"; "Mg_percent";
    "Cr_percent"; "Zn_percent"; "Ti_percent"; "Al_percent" ].

(** [lambda x: x.replace('_percent', '').upper()]. *)
Definition chem_label (x : string) : string :=
  PyStr.upper (PyStr.replace "_percent" "" x).

(** [alloy_data[chem_cols].rename(...)], line 217. *)
Definition chemical (filtered : DataFrame) (alloy_data : gmap string cell)
  : result (list (string * cell)) :=
  l ← fields filtered alloy_data chem_cols;
  Ok (fmap (M := list) (λ p : string * cell, (chem_label p.1, p.2)) l).

Definition axis_options : list (string * string) :=
  [ ("引張強度 (MPa)", "tensile_strength_mpa");
    ("降伏強度 (MPa)", "yield_strength_mpa");
    ("伸び (%)", "elongation_percent");
    ("ブリネル硬さ", "hardness_brinell");
    ("比重 (g/cm³)", "density_g_cm3");
    ("熱膨張率 (10⁻⁶/K)", "thermal_expansion_e-6_k");
    ("熱伝導性 (W/m·K)", "thermal_conductivity_w_mk");
    ("導電率 (% IACS)", "electrical_conductivity_iacs");
    ("Si (%)", "Si_percent"); ("Fe (%)", "Fe_percent");
    ("Cu (%)", "Cu_percent"); ("Mn (%)", "Mn_percent");
    ("Mg (%)", "Mg_percent"); ("Cr (%)", "Cr_percent");
    ("Zn (%)", "Zn_percent"); ("Ti (%)", "Ti_percent") ].

(** [list(axis_options.keys())]. *)
Definition axis_labels : list string := axis_options.*1.

(** [axis_options[label]] for what a select box returned. *)
Definition axis_col (label : option cell) : result string :=
  match label with
  | Some (Str l) =>
      match (list_to_map axis_options : gmap string string) !! l with
      | Some c => Ok c
      | None => Raise (KeyError [l])
      end
  | _ => Raise (KeyError [])
  end.

(** The rows behind the red points, line 263. *)
Definition highlight (filtered : DataFrame) (selected_alloy selected_temper : cell)
  : result DataFrame :=
  alloys ← Pd.series filtered "alloy";
  tempers ← Pd.series filtered "temper";
  Ok (Pd.loc (Pd.mask_and (Pd.eq_cell selected_alloy <$> alloys)
                          (Pd.eq_cell selected_temper <$> tempers))
        filtered).

(** The chart, lines 227-271; [pick_x] and [pick_y] are what the user did
    with the two axis select boxes. *)
Definition scatter_chart (filtered : DataFrame)
    (selected_alloy selected_temper : cell) (pick_x pick_y : option nat)
  : result chart :=
  default_x_index ← PyStr.index "伸び (%)" axis_labels;
  default_y_index ← PyStr.index "引張強度 (MPa)" axis_labels;
  let x_axis_label := St.selectbox (Str <$> axis_labels) default_x_index pick_x in
  let y_axis_label := St.selectbox (Str <$> axis_labels) default_y_index pick_y in
  x ← axis_col x_axis_label;
  y ← axis_col y_axis_label;
  marked ← highlight filtered selected_alloy selected_temper;
  Ok {| x_axis_col := x; y_axis_col := y; base_data := filtered;
        highlight_data := marked |}.

(** The branch taken when an alloy and a temper are selected, lines
    172-271: the fields are read in the order of the code.  The HTML of
    the tables and the drawing of the chart are outside the model. *)
Definition main_content (filtered : DataFrame) (v : view)
    (pick_x pick_y : option nat) : result (option content) :=
  match v with
  | Detail selected_alloy selected_temper alloy_data =>
      d ← field filtered alloy_data "description";
      mech ← properties filtered alloy_data mechanical;
      phys ← properties filtered alloy_data physical;
      chem ← chemical filtered alloy_data;
      sc ← scatter_chart filtered selected_alloy selected_temper pick_x pick_y;
      Ok (Some {| description := d; mechanical_properties := mech;
                  physical_properties := phys; chem_data := chem;
                  scatter := sc |})
  | _ => Ok None
  end.

(** [main] with the main content. *)
Definition render (w : world) (ui : picks) (pick_x pick_y : option nat)
  : result (option content) :=
  p ← run_page (App.main w ui);
  match p with
  | Some p => main_content (filtered_df p) (shown p) pick_x pick_y
  | None => Ok None
  end.

End Content.

(** ** A browser session *)

(** The environment of one run of the script. *)
Record visit := {
  visit_csv : result DataFrame;
  visit_write : write_outcome;
  visit_ui : picks
}.

Module Session.

(** Streamlit runs [main] again on every interaction.  From one run to
    the next the counter file and [st.session_state] are kept: the runs of
    one session, from the state of the file and of the flag ['counted']. *)
Fixpoint reruns (file : option string) (flag : bool) (visits : list visit)
  : option string * bool :=
  match visits with
  | [] => (file, flag)
  | v :: visits' =>
      let r := App.main {| csv := visit_csv v; count_file := file;
                           write := visit_write v; counted := flag |}
                 (visit_ui v) in
      reruns (run_count_file r) (run_counted r) visits'
  end.

(** The counter step of [main], lines 85-87: the file it leaves and the
    error it shows. *)
Definition counter_step (w : world) : option string * list signal :=
  if counted w then (count_file w, [])
  else App.increment_visitor_count (write w) (count_file w).

End Session.

(** ** Well-formed files *)

Module File.

(** The columns the code reads by name. *)
Definition required_columns : list string :=
  [ "alloy"; "temper"; "description"; "tensile_strength_mpa";
    "yield_strength_mpa"; "elongation_percent"; "hardness_brinell";
    "corrosion_resistance"; "density_g_cm3"; "thermal_expansion_e-6_k";
    "thermal_conductivity_w_mk"; "electrical_conductivity_iacs";
    "Si_percent"; "Fe_percent"; "Cu_percent"; "Mn_percent"; "Mg_percent";
    "Cr_percent"; "Zn_percent"; "Ti_percent"; "Al_percent" ].

Definition number (c : cell) : Prop :=
  match c with
  | Num _ => True
  | _ => False
  end.

Global Instance number_dec c : Decision (number c).
Proof. destruct c; simpl; apply _. Defined.

(** The columns the loader leaves as they are among those of a slider. *)
Definition unfilled_range_columns : list string :=
  [ "tensile_strength_mpa"; "yield_strength_mpa"; "elongation_percent" ].

(** A value whose truncation a slider accepts as a bound, also as an
    upper bound moved up by one. *)
Definition in_slider_range (x : cell) : Prop :=
  match x with
  | Num q => (Qc_of_Z (- St.max_safe_integer) ≤ q)%Qc
             ∧ (q ≤ Qc_of_Z (St.max_safe_integer - 1))%Qc
  | _ => True
  end.

Global Instance in_slider_range_dec x : Decision (in_slider_range x).
Proof. destruct x; simpl; apply _. Defined.

(** The five ranges of a filter state are bounds a slider accepts. *)
Definition accepted (fs : FilterState) : Prop :=
  Forall (λ range : Z * Z, St.accepts range.1 range.2)
    [ tensile_range fs; yield_range fs; elongation_range fs;
      thermal_cond_range fs; elec_cond_range fs ].

Global Instance accepted_dec fs : Decision (accepted fs).
Proof. unfold accepted. apply _. Defined.

(** What is asked of a row of the file: a cell under every label, the two
    identifiers, a corrosion class that is a text or missing, and, in a
    column filtered by a range, no text and no number beyond what a slider
    accepts. *)
Definition well_formed_row (cols : list string) (r : gmap string cell) : Prop :=
  Forall (λ c, is_Some (r !! c)) cols
  ∧ Spec.nonempty_text (Pd.at_ r "alloy")
  ∧ Spec.nonempty_text (Pd.at_ r "temper")
  ∧ ¬ number (Pd.at_ r "corrosion_resistance")
  ∧ Forall (λ c, is_str (Pd.at_ r c) = false) Spec.range_columns
  ∧ Forall (λ c, in_slider_range (Pd.at_ r c)) Spec.range_columns.

Global Instance well_formed_row_dec cols r : Decision (well_formed_row cols r).
Proof. unfold well_formed_row. apply _. Defined.

(** A file the application is written for: it has rows, the filter and
    identifier columns, well-formed rows, and a number somewhere in each
    of the three range columns the loader does not fill. *)
Definition well_formed (df : DataFrame) : Prop :=
  rows df ≠ []
  ∧ Forall (λ c, c ∈ columns df)
      ("alloy" :: "temper" :: "corrosion_resistance" :: Spec.range_columns
       ++ App.cols_to_fill)
  ∧ Forall (well_formed_row (columns df)) (rows df)
  ∧ Forall (λ c, Exists (λ r, number (Pd.at_ r c)) (rows df))
      unfilled_range_columns.

Global Instance well_formed_dec df : Decision (well_formed df).
Proof. unfold well_formed. apply _. Defined.

(** The frame the loader makes of a parsed file that has the twelve
    columns. *)
Definition cleaned (df : DataFrame) : DataFrame :=
  {| columns := columns df;
     rows := Spec.clean_row (bool_decide ("corrosion_resistance" ∈ columns df))
             <$> rows df |}.

End File.

(** ** More sample data *)

Module Sample.

(** The two rows and a second A5052-H32 with another tensile strength. *)
Definition a5052_h32_bis : gmap string cell :=
  <["tensile_strength_mpa" := Data.int 235]> (Data.a5052_h32 (Data.int 12)).

Definition duplicated : DataFrame :=
  {| columns := Data.header;
     rows := [Data.a5052_h32 (Data.int 12); Data.a6061_t6; a5052_h32_bis] |}.


(** A file with its header and no row. *)
Definition header_only : DataFrame := {| columns := Data.header; rows := [] |}.

(** A file without the description column. *)
Definition no_description : DataFrame :=
  {| columns := filter (λ c, c ≠ "description") Data.header;
     rows := [delete "description" Data.a6061_t6] |}.

Definition read_only : exn := OSError "read-only file system".

(** The two rows, both with the tensile strength 200. *)
Definition constant_tensile : DataFrame :=
  {| columns := Data.header;
     rows := [ <["tensile_strength_mpa" := Data.int 200]>
                 (Data.a5052_h32 (Data.int 12));
               <["tensile_strength_mpa" := Data.int 200]> Data.a6061_t6 ] |}.

Definition moved_sliders : picks :=
  {| pick_corrosion := Some [Str "B"; Str "Z"]; pick_tensile := Some (300, 310);
     pick_yield := None; pick_elongation := Some (0, 1000);
     pick_thermal_cond := None; pick_elec_cond := None;
     pick_alloy := Some 0%nat; pick_temper := Some 7%nat |}.

End Sample.

(** * Proofs *)

(** ** [int(str(n))] is [n] *)

Section python_text.
Import Py.

Lemma lstrip_no_space s : no_space s → lstrip s = s.
Proof. destruct s as [|a s]; simpl; [done|]. by intros [-> _]. Qed.

Lemma rstrip_no_space s : no_space s → rstrip s = s.
Proof.
  induction s as [|a s IH]; simpl; [done|].
  intros [Ha Hs]. rewrite (IH Hs), Ha. by destruct s.
Qed.

Lemma strip_no_space s : no_space s → strip s = s.
Proof.
  intros H. unfold strip. by rewrite (lstrip_no_space _ H), rstrip_no_space.
Qed.

Lemma no_space_uint d : no_space (NilEmpty.string_of_uint d).
Proof. induction d; simpl; auto. Qed.

Lemma parse_digits_acc d :
  ∀ acc, parse_digits (Z.pos acc) true (NilEmpty.string_of_uint d)
         = Some (Z.pos (Pos.of_uint_acc d acc)).
Proof.
  induction d; intros acc; simpl; [done|..];
    rewrite <- IHd; f_equal;
    match goal with
    | |- context [Z.of_nat ?n] =>
        let v := eval vm_compute in (Z.of_nat n) in change (Z.of_nat n) with v
    end; lia.
Qed.

Lemma parse_digits_uint d :
  parse_digits 0 true (NilEmpty.string_of_uint d) = Some (Z.of_N (Pos.of_uint d)).
Proof.
  induction d; simpl; [done|done|..]; by rewrite <- parse_digits_acc.
Qed.

Lemma parse_digits_first d :
  d ≠ Decimal.Nil →
  parse_digits 0 false (NilEmpty.string_of_uint d) = Some (Z.of_N (Pos.of_uint d)).
Proof. intros Hd. rewrite <- parse_digits_uint. by destruct d. Qed.

Lemma int_of_string_uint d :
  d ≠ Decimal.Nil →
  int_of_string (NilEmpty.string_of_uint d) = Some (Z.of_N (Pos.of_uint d)).
Proof.
  intros Hd. unfold int_of_string.
  rewrite (strip_no_space _ (no_space_uint d)).
  rewrite <- (parse_digits_first d Hd). by destruct d.
Qed.

Lemma string_of_pos p :
  NilZero.string_of_uint (Pos.to_uint p) = NilEmpty.string_of_uint (Pos.to_uint p).
Proof.
  pose proof (Unsigned.to_uint_nonnil p). by destruct (Pos.to_uint p).
Qed.

Lemma int_of_string_str n : int_of_string (str n) = Some n.
Proof.
  destruct n as [|p|p]; [done|..]; unfold str; simpl; rewrite string_of_pos.
  - by rewrite (int_of_string_uint _ (Unsigned.to_uint_nonnil p)),
      DecimalPos.Unsigned.of_to.
  - unfold int_of_string.
    rewrite strip_no_space by (split; [done|apply no_space_uint]).
    by rewrite (parse_digits_first _ (Unsigned.to_uint_nonnil p)),
      DecimalPos.Unsigned.of_to.
Qed.

End python_text.

Example int_of_string_examples :
  Py.int_of_string (String "032" (String "052" (String "050" (String "010" "")))) = Some 42
  ∧ Py.int_of_string "-7" = Some (-7)
  ∧ Py.int_of_string "+7" = Some 7
  ∧ Py.int_of_string "007" = Some 7
  ∧ Py.int_of_string "1_000" = Some 1000
  ∧ Py.int_of_string "1__0" = None
  ∧ Py.int_of_string "4 2" = None
  ∧ Py.int_of_string "" = None
  ∧ Py.int_of_string "-" = None
  ∧ Py.int_of_string "12a" = None
  ∧ Py.int_of_string "4.0" = None
  ∧ Py.str (-120) = "-120" ∧ Py.str 0 = "0"
  ∧ Py.trunc (Q2Qc (401 # 2)) = 200 ∧ Py.trunc (Q2Qc (-1 # 2)) = 0.
Proof. compute_done. Qed.

Lemma get_visitor_count_str n : App.get_visitor_count (Some (Py.str n)) = n.
Proof. unfold App.get_visitor_count. by rewrite int_of_string_str. Qed.

Lemma increment_times_str N :
  ∀ f, App.increment_times N f
       = match N with
         | O => f
         | S _ => Some (Py.str (App.get_visitor_count f + Z.of_nat N))
         end.
Proof.
  induction N as [|N IH]; intros f; [done|].
  cbn [App.increment_times App.increment_visitor_count fst]. rewrite IH.
  destruct N as [|N]; [done|]. rewrite get_visitor_count_str. do 2 f_equal. lia.
Qed.

(** ** Frames, masks and the filter *)

Section frames.
Implicit Types (df : DataFrame) (r : gmap string cell) (c : string).

Lemma bind_Ok {A B} (m : result A) (k : A → result B) (b : B) :
  m ≫= k = Ok b ↔ ∃ a, m = Ok a ∧ k a = Ok b.
Proof.
  destruct m as [a|e]; simpl; split.
  - eauto.
  - by intros (? & [= <-] & ?).
  - done.
  - by intros (? & [=] & ?).
Qed.

Lemma series_Ok df c :
  c ∈ columns df → Pd.series df c = Ok ((λ r, Pd.at_ r c) <$> rows df).
Proof. intros Hc. unfold Pd.series. by rewrite decide_True. Qed.

Lemma series_Ok_inv df c s :
  Pd.series df c = Ok s → c ∈ columns df ∧ s = (λ r, Pd.at_ r c) <$> rows df.
Proof. unfold Pd.series. case_decide; [by intros [= <-]|done]. Qed.

Lemma isin_fmap {A} (f : A → cell) values (l : list A) :
  Pd.isin values (f <$> l) = (λ x, bool_decide (f x ∈ values)) <$> l.
Proof. unfold Pd.isin. by rewrite <- list_fmap_compose. Qed.

Lemma between_cell_within lo hi x :
  is_str x = false →
  Pd.between_cell lo hi x = Ok (bool_decide (Spec.within x (lo, hi))).
Proof.
  destruct x as [|q|s]; simpl; [done| |done]. intros _.
  by rewrite bool_decide_and.
Qed.

Lemma between_fmap {A} (f : A → cell) lo hi (l : list A) :
  Forall (λ x, is_str (f x) = false) l →
  Pd.between lo hi (f <$> l)
  = Ok ((λ x, bool_decide (Spec.within (f x) (lo, hi))) <$> l).
Proof.
  unfold Pd.between. induction 1 as [|x l Hx _ IH]; [done|].
  rewrite fmap_cons. cbn [Pd.mapM].
  by rewrite (between_cell_within _ _ _ Hx), IH.
Qed.

Lemma between_Ok_inv lo hi s m :
  Pd.between lo hi s = Ok m → Forall (λ x, is_str x = false) s.
Proof.
  unfold Pd.between. revert m.
  induction s as [|x s IH]; intros m; simpl; [by constructor|].
  intros (b & Hb & (bs & Hbs & _)%bind_Ok)%bind_Ok.
  constructor; [|by eapply IH]. by destruct x.
Qed.

Lemma mask_and_fmap {A} (f g : A → bool) (l : list A) :
  Pd.mask_and (f <$> l) (g <$> l) = (λ x, f x && g x) <$> l.
Proof. unfold Pd.mask_and. induction l; simpl; [done|]. by f_equal. Qed.

Lemma select_fmap {A} (f : A → bool) (l : list A) :
  Pd.select (f <$> l) l = filter (λ x, f x = true) l.
Proof.
  induction l as [|x l IH]; [done|].
  rewrite fmap_cons, filter_cons. cbn [Pd.select]. rewrite IH.
  destruct (f x); by case_decide.
Qed.

Lemma select_sublist {A} (m : list bool) (l : list A) :
  Pd.select m l `sublist_of` l.
Proof.
  revert m. induction l as [|x l IH]; intros [|b m]; simpl;
    [done|done|apply sublist_nil_l|].
  destruct b; [by apply sublist_skip|by apply sublist_cons].
Qed.

Lemma filter_all {A} (P : A → Prop) `{!∀ u, Decision (P u)} (l : list A) :
  Forall P l → filter P l = l.
Proof.
  induction 1 as [|u l Hu _ IH]; [done|]. by rewrite filter_cons_True, IH.
Qed.

Lemma filter_impl_sublist {A} (P Q : A → Prop)
    `{!∀ u, Decision (P u)} `{!∀ u, Decision (Q u)} (l : list A) :
  (∀ u, P u → Q u) → filter P l `sublist_of` filter Q l.
Proof.
  intros HPQ. induction l as [|u l IH]; [done|].
  rewrite !filter_cons. destruct (decide (P u)) as [HP|HP].
  - rewrite decide_True by auto. by apply sublist_skip.
  - destruct (decide (Q u)); [by apply sublist_cons|done].
Qed.

Lemma filter_head_first {A} (P : A → Prop) `{!∀ u, Decision (P u)}
    (l : list A) y rest :
  filter P l = y :: rest →
  ∃ pre post, l = pre ++ y :: post ∧ P y ∧ Forall (λ z, ¬ P z) pre.
Proof.
  induction l as [|z l IH]; [done|]. rewrite filter_cons.
  destruct (decide (P z)) as [Hz|Hz].
  - intros [= -> _]. by exists [], l.
  - intros (pre & post & -> & Hy & Hpre)%IH.
    exists (z :: pre), post. by repeat constructor.
Qed.

Lemma filterable_column df c :
  Spec.filterable df → c ∈ Spec.range_columns →
  c ∈ columns df ∧ Forall (λ r, is_str (Pd.at_ r c) = false) (rows df).
Proof.
  intros (_ & Hcols & Hrows) Hc. rewrite Forall_forall in Hcols.
  split; [by apply Hcols|].
  eapply Forall_impl; [exact Hrows|]. intros r Hr.
  rewrite Forall_forall in Hr. by apply Hr.
Qed.

Lemma between_column_Ok df c range :
  Spec.filterable df → c ∈ Spec.range_columns →
  App.between_column df c range
  = Ok ((λ r, bool_decide (Spec.within (Pd.at_ r c) range)) <$> rows df).
Proof.
  intros Hdf Hc. destruct (filterable_column df c Hdf Hc) as [Hcol Hrows].
  unfold App.between_column. rewrite (series_Ok _ _ Hcol). simpl.
  rewrite (between_fmap _ _ _ _ Hrows). by destruct range.
Qed.

(** The filter on a frame it can run on: the rows that pass the six
    predicates, in the order of the frame. *)
Lemma apply_filter_Ok df fs :
  Spec.filterable df →
  App.apply_filter df fs
  = Ok {| columns := columns df; rows := filter (Spec.retained fs) (rows df) |}.
Proof.
  intros Hdf. unfold App.apply_filter.
  rewrite (series_Ok df "corrosion_resistance") by (by destruct Hdf). simpl.
  rewrite !(between_column_Ok df) by (done || compute_done).
  simpl. rewrite isin_fmap, !mask_and_fmap. unfold Pd.loc. rewrite select_fmap.
  do 2 f_equal. apply list_filter_iff. intros r. unfold Spec.retained.
  rewrite !andb_true_iff, !bool_decide_eq_true. tauto.
Qed.

(** The filter returns on no other frame. *)
Lemma apply_filter_Ok_inv df fs out :
  App.apply_filter df fs = Ok out → Spec.filterable df.
Proof.
  unfold App.apply_filter, App.between_column.
  intros (s1 & [H1 ->]%series_Ok_inv & H)%bind_Ok.
  apply bind_Ok in H
    as (m2 & (s2 & [H2 ->]%series_Ok_inv & B2%between_Ok_inv)%bind_Ok & H).
  apply bind_Ok in H
    as (m3 & (s3 & [H3 ->]%series_Ok_inv & B3%between_Ok_inv)%bind_Ok & H).
  apply bind_Ok in H
    as (m4 & (s4 & [H4 ->]%series_Ok_inv & B4%between_Ok_inv)%bind_Ok & H).
  apply bind_Ok in H
    as (m5 & (s5 & [H5 ->]%series_Ok_inv & B5%between_Ok_inv)%bind_Ok & H).
  apply bind_Ok in H
    as (m6 & (s6 & [H6 ->]%series_Ok_inv & B6%between_Ok_inv)%bind_Ok & H).
  rewrite Forall_fmap in B2, B3, B4, B5, B6.
  split; [done|]. split; [by repeat constructor|].
  rewrite Forall_forall in B2, B3, B4, B5, B6. apply Forall_forall. intros r Hr.
  repeat constructor; [by apply B2|by apply B3|by apply B4|by apply B5|by apply B6].
Qed.

Lemma filterable_sublist df (l : list (gmap string cell)) :
  Spec.filterable df → l `sublist_of` rows df →
  Spec.filterable {| columns := columns df; rows := l |}.
Proof.
  intros (H1 & H2 & H3) Hl. split; [done|]. split; [done|].
  cbn [rows]. rewrite Forall_forall in H3. apply Forall_forall.
  intros r Hr. by apply H3, (sublist_subseteq _ _ Hl).
Qed.

Lemma within_narrower x (range' range : Z * Z) :
  Spec.narrower_range range' range → Spec.within x range' → Spec.within x range.
Proof.
  destruct x as [|q|]; simpl; [done| |done]. intros [H1 H2] [H3 H4].
  apply Z2Qc_inj_le in H1, H2. split; by etrans.
Qed.

Lemma retained_narrower fs' fs r :
  Spec.narrower fs' fs → Spec.retained fs' r → Spec.retained fs r.
Proof.
  intros (Hc & H1 & H2 & H3 & H4 & H5) (Rc & R1 & R2 & R3 & R4 & R5).
  split_and!; eauto using within_narrower.
Qed.

End frames.

(** ** The loader *)

Section loader.
Implicit Types (df : DataFrame) (r : gmap string cell) (c : string) (v x : cell).

Lemma fillna_idem v x : Pd.fillna v (Pd.fillna v x) = Pd.fillna v x.
Proof. destruct x; simpl; [|done..]. by destruct v. Qed.

Lemma fillna_row_lookup cols v r c :
  Pd.fillna_row cols v r !! c
  = if decide (c ∈ cols) then Pd.fillna v <$> r !! c else r !! c.
Proof.
  induction cols as [|c0 cols IH].
  - rewrite decide_False; [done|]. apply not_elem_of_nil.
  - change (Pd.fillna_row (c0 :: cols) v r)
      with (alter (Pd.fillna v) c0 (Pd.fillna_row cols v r)).
    rewrite lookup_alter. destruct (decide (c0 = c)) as [->|Hne].
    + rewrite (decide_True (P := c ∈ c :: cols)) by apply list_elem_of_here.
      rewrite IH. case_decide; [|done]. destruct (r !! c); simpl; [|done].
      by rewrite fillna_idem.
    + rewrite IH. destruct (decide (c ∈ cols)).
      * rewrite decide_True; [done|]. by apply list_elem_of_further.
      * rewrite decide_False; [done|]. intros [->|?]%elem_of_cons; done.
Qed.

Lemma filter_missing_nil (cols have : list string) :
  filter (λ c, c ∉ have) cols = [] ↔ ∀ c, c ∈ cols → c ∈ have.
Proof.
  induction cols as [|c cols IH]; [split; [intros _ ? []%elem_of_nil|done]|].
  rewrite filter_cons. destruct (decide (c ∉ have)) as [Hc|Hc].
  - split; [done|]. intros H. destruct Hc. apply H, list_elem_of_here.
  - apply dec_stable in Hc. rewrite IH. split.
    + intros H c' [->|?]%elem_of_cons; auto.
    + intros H c' ?. apply H. by apply list_elem_of_further.
Qed.

Lemma fillna_columns_Ok cols v df :
  (∀ c, c ∈ cols → c ∈ columns df) →
  Pd.fillna_columns cols v df
  = Ok {| columns := columns df; rows := Pd.fillna_row cols v <$> rows df |}.
Proof.
  intros H%filter_missing_nil. unfold Pd.fillna_columns. by rewrite H.
Qed.

Lemma fillna_columns_Raise cols v df :
  ¬ (∀ c, c ∈ cols → c ∈ columns df) →
  Pd.fillna_columns cols v df
  = Raise (KeyError (filter (λ c, c ∉ columns df) cols)).
Proof.
  intros H. unfold Pd.fillna_columns.
  destruct (filter _ cols) eqn:E; [|done].
  destruct H. by apply filter_missing_nil.
Qed.

(** A parsed file with the twelve numeric columns loads, and the frame
    returned is the file cleaned row by row. *)
Lemma load_Ok path df :
  (∀ c, c ∈ App.cols_to_fill → c ∈ columns df) →
  App.load_alloy_data path (Ok df)
  = ({| columns := columns df;
        rows := Spec.clean_row (bool_decide ("corrosion_resistance" ∈ columns df))
                <$> rows df |}, []).
Proof.
  intros Hcols. unfold App.load_alloy_data.
  cbn [mbind result_bind]. rewrite (fillna_columns_Ok _ _ _ Hcols).
  cbn [mbind result_bind columns]. unfold Spec.clean_row. case_decide as Hc.
  - rewrite fillna_columns_Ok.
    + cbn [columns rows]. rewrite <- list_fmap_compose.
      by rewrite bool_decide_true.
    + by intros c ->%list_elem_of_singleton.
  - by rewrite bool_decide_false.
Qed.

(** A parsed file without one of them does not. *)
Lemma load_missing_column path df :
  ¬ (∀ c, c ∈ App.cols_to_fill → c ∈ columns df) →
  App.load_alloy_data path (Ok df)
  = (Pd.empty_frame,
     [DatasetLoadError (KeyError (filter (λ c, c ∉ columns df) App.cols_to_fill))]).
Proof.
  intros Hn. unfold App.load_alloy_data. cbn [mbind result_bind].
  by rewrite (fillna_columns_Raise _ _ _ Hn).
Qed.

Lemma load_success_inv path read df' :
  App.load_alloy_data path read = (df', []) →
  ∃ df, read = Ok df ∧ (∀ c, c ∈ App.cols_to_fill → c ∈ columns df).
Proof.
  destruct read as [df|e]; [|by destruct e].
  intros H. exists df. split; [done|].
  destruct (decide (Forall (λ c, c ∈ columns df) App.cols_to_fill)) as [Hy|Hn];
    [by apply Forall_forall|].
  rewrite Forall_forall in Hn. by rewrite (load_missing_column _ _ Hn) in H.
Qed.

Lemma clean_row_lookup b r c :
  Spec.clean_row b r !! c
  = if decide (c ∈ App.cols_to_fill) then Pd.fillna (Num (Qc_of_Z 0)) <$> r !! c
    else if decide (c = "corrosion_resistance") then
           (if b then Pd.fillna (Str "-") <$> r !! c else r !! c)
    else r !! c.
Proof.
  unfold Spec.clean_row. destruct b.
  - rewrite !fillna_row_lookup.
    destruct (decide (c = "corrosion_resistance")) as [->|Hne].
    + rewrite decide_True by apply list_elem_of_here.
      by rewrite decide_False by compute_done.
    + rewrite (decide_False (P := c ∈ ["corrosion_resistance"])); [done|].
      by intros ?%list_elem_of_singleton.
  - rewrite fillna_row_lookup. by repeat case_decide.
Qed.

Lemma clean_row_filled b r c :
  c ∈ App.cols_to_fill →
  Spec.clean_row b r !! c = Pd.fillna (Num (Qc_of_Z 0)) <$> r !! c
  ∧ Spec.clean_row b r !! c ≠ Some NaN.
Proof.
  intros Hc. rewrite clean_row_lookup, decide_True by done.
  split; [done|]. by destruct (r !! c) as [[]|].
Qed.

End loader.

(** ** Truncation, minimum and maximum, and the bounds of a slider *)

Section bounds.
Implicit Types (q v : Qc) (s : list cell) (n lo hi : Z).

Lemma Qc_of_Z_le n q : (Qc_of_Z n ≤ q)%Qc ↔ n * Z.pos (Qden q) ≤ Qnum q.
Proof. unfold Qcle, Qle. simpl. by rewrite Z.mul_1_r. Qed.

Lemma le_Qc_of_Z q n : (q ≤ Qc_of_Z n)%Qc ↔ Qnum q ≤ n * Z.pos (Qden q).
Proof. unfold Qcle, Qle. simpl. by rewrite Z.mul_1_r. Qed.

Lemma trunc_Qc_of_Z n : Py.trunc (Qc_of_Z n) = n.
Proof. unfold Py.trunc. simpl. apply Z.quot_1_r. Qed.

(** Truncation rounds a non-negative number down ... *)
Lemma trunc_le q : (Qc_of_Z 0 ≤ q)%Qc → (Qc_of_Z (Py.trunc q) ≤ q)%Qc.
Proof.
  rewrite !Qc_of_Z_le. unfold Py.trunc. intros H.
  rewrite Z.mul_comm. apply Z.mul_quot_le; lia.
Qed.

(** ... and never by one or more, whatever the sign. *)
Lemma le_trunc_succ q : (q ≤ Qc_of_Z (Py.trunc q + 1))%Qc.
Proof.
  rewrite le_Qc_of_Z. unfold Py.trunc.
  pose proof (Z.quot_rem' (Qnum q) (Z.pos (Qden q))) as E.
  destruct (Z.le_gt_cases 0 (Qnum q)) as [Hq|Hq].
  - pose proof (Z.rem_bound_pos (Qnum q) (Z.pos (Qden q)) Hq (Pos2Z.is_pos _)).
    nia.
  - pose proof (Z.rem_bound_pos_neg (Qnum q) (Z.pos (Qden q))
                  (Pos2Z.is_pos _) (Z.lt_le_incl _ _ Hq)).
    nia.
Qed.

Lemma integral_inv x : Spec.integral x → ∃ n, x = Num (Qc_of_Z n).
Proof. destruct x as [|q|]; simpl; [done| |done]. intros ->. eauto. Qed.

Lemma numbers_all_Num s :
  Forall (λ x, ∃ q, x = Num q) s → ∃ qs, Pd.numbers s = Ok qs ∧ s = Num <$> qs.
Proof.
  induction 1 as [|x s [q ->] _ (qs & E & ->)].
  - by exists [].
  - exists (q :: qs). cbn [Pd.numbers]. by rewrite E.
Qed.

Lemma foldr_qmin q0 (qs : list Qc) :
  foldr Pd.qmin q0 qs ∈ q0 :: qs
  ∧ ∀ q, q ∈ q0 :: qs → (foldr Pd.qmin q0 qs ≤ q)%Qc.
Proof.
  induction qs as [|p qs [IH1 IH2]]; cbn [foldr].
  - split; [apply list_elem_of_here|]. intros q ->%list_elem_of_singleton.
    apply Qcle_refl.
  - set (m' := foldr Pd.qmin q0 qs) in *. unfold Pd.qmin.
    case_decide as Hp.
    + split; [apply list_elem_of_further, list_elem_of_here|].
      intros q [->|[->|Hq]%elem_of_cons]%elem_of_cons.
      * etrans; [exact Hp|]. apply IH2, list_elem_of_here.
      * apply Qcle_refl.
      * etrans; [exact Hp|]. by apply IH2, list_elem_of_further.
    + apply Qcnot_le_lt, Qclt_le_weak in Hp. split.
      * apply elem_of_cons in IH1 as [->|?];
          [apply list_elem_of_here|by do 2 apply list_elem_of_further].
      * intros q [->|[->|Hq]%elem_of_cons]%elem_of_cons.
        -- apply IH2, list_elem_of_here.
        -- exact Hp.
        -- by apply IH2, list_elem_of_further.
Qed.

Lemma foldr_qmax q0 (qs : list Qc) :
  foldr Pd.qmax q0 qs ∈ q0 :: qs
  ∧ ∀ q, q ∈ q0 :: qs → (q ≤ foldr Pd.qmax q0 qs)%Qc.
Proof.
  induction qs as [|p qs [IH1 IH2]]; cbn [foldr].
  - split; [apply list_elem_of_here|]. intros q ->%list_elem_of_singleton.
    apply Qcle_refl.
  - set (m' := foldr Pd.qmax q0 qs) in *. unfold Pd.qmax.
    case_decide as Hp.
    + split.
      * apply elem_of_cons in IH1 as [->|?];
          [apply list_elem_of_here|by do 2 apply list_elem_of_further].
      * intros q [->|[->|Hq]%elem_of_cons]%elem_of_cons.
        -- apply IH2, list_elem_of_here.
        -- exact Hp.
        -- by apply IH2, list_elem_of_further.
    + apply Qcnot_le_lt, Qclt_le_weak in Hp.
      split; [apply list_elem_of_further, list_elem_of_here|].
      intros q [->|[->|Hq]%elem_of_cons]%elem_of_cons.
      * etrans; [|exact Hp]. apply IH2, list_elem_of_here.
      * apply Qcle_refl.
      * etrans; [|exact Hp]. by apply IH2, list_elem_of_further.
Qed.

(** The bounds of a slider over a series with at least one number: the
    truncated minimum and the truncated maximum [M] of the series, the
    latter plus one when the two truncations agree. *)
Lemma slider_bounds_numbers s qs :
  Pd.numbers s = Ok qs → qs ≠ [] →
  ∃ m M, m ∈ qs ∧ M ∈ qs ∧ (∀ q, q ∈ qs → (m ≤ q)%Qc ∧ (q ≤ M)%Qc)
    ∧ App.slider_bounds s
      = Ok (Py.trunc m,
            if decide (Py.trunc m = Py.trunc M) then Py.trunc M + 1
            else Py.trunc M).
Proof.
  intros Hs Hne. destruct qs as [|q0 qs]; [done|].
  destruct (foldr_qmin q0 qs) as [Hm1 Hm2], (foldr_qmax q0 qs) as [HM1 HM2].
  exists (foldr Pd.qmin q0 qs), (foldr Pd.qmax q0 qs).
  split; [done|]. split; [done|]. split; [by auto|].
  unfold App.slider_bounds, Pd.min, Pd.max. by rewrite Hs.
Qed.

Lemma numbers_constant s v :
  s ≠ [] → Forall (λ x, x = Num v) s →
  ∃ qs, Pd.numbers s = Ok qs ∧ qs ≠ [] ∧ ∀ q, q ∈ qs → q = v.
Proof.
  intros Hne Hs.
  destruct (numbers_all_Num s) as (qs & E & ->).
  { eapply Forall_impl; [exact Hs|]. intros x ->. eauto. }
  exists qs. split; [done|]. split; [by destruct qs|].
  intros q Hq. rewrite Forall_forall in Hs.
  assert (Num q = Num v) as [= ->]; [|done].
  apply Hs, list_elem_of_fmap. eauto.
Qed.

Lemma between_constant lo hi s v :
  Forall (λ x, x = Num v) s →
  Pd.between lo hi s
  = Ok ((λ _, bool_decide (Spec.within (Num v) (lo, hi))) <$> s).
Proof.
  intros Hs. rewrite <- (list_fmap_id s) at 1.
  rewrite (between_fmap id); [|eapply Forall_impl; [exact Hs|by intros x ->]].
  f_equal. apply Forall_fmap_ext. eapply Forall_impl; [exact Hs|].
  by intros x ->.
Qed.

Lemma slider_bounds_integral (s : list cell) :
  s ≠ [] → Forall Spec.integral s →
  ∃ range, App.slider_bounds s = Ok range ∧ Forall (λ x, Spec.within x range) s.
Proof.
  intros Hne Hs.
  destruct (numbers_all_Num s) as (qs & Hqs & ->).
  { eapply Forall_impl; [exact Hs|]. intros x [n ->]%integral_inv. eauto. }
  assert (qs ≠ []) as Hqs_ne by (by destruct qs).
  destruct (slider_bounds_numbers _ qs Hqs Hqs_ne)
    as (m & M & Hm & HM & Hb & ->).
  eexists. split; [done|].
  rewrite Forall_forall in Hs.
  destruct (integral_inv (Num m)) as [nm [= ->]];
    [by apply Hs, list_elem_of_fmap_2|].
  destruct (integral_inv (Num M)) as [nM [= ->]];
    [by apply Hs, list_elem_of_fmap_2|].
  rewrite !trunc_Qc_of_Z.
  apply Forall_fmap, Forall_forall. intros q Hq. destruct (Hb q Hq) as [H1 H2].
  split; cbn [fst snd]; [done|].
  case_decide; [|done]. etrans; [exact H2|].
  apply (proj1 (Z2Qc_inj_le _ _)). lia.
Qed.

End bounds.

(** ** The select boxes and the resolution *)

Section selection.
Implicit Types (df filtered : DataFrame) (r : gmap string cell) (c : string).
Implicit Types (a t x : cell).

Lemma elem_of_unique x (s : list cell) : x ∈ Pd.unique s ↔ x ∈ s.
Proof.
  induction s as [|y s IH]; [done|]. cbn [Pd.unique].
  rewrite !elem_of_cons, list_elem_of_filter, IH.
  destruct (decide (x = y)); tauto.
Qed.

Lemma NoDup_unique (s : list cell) : NoDup (Pd.unique s).
Proof.
  induction s as [|y s IH]; [constructor|]. cbn [Pd.unique]. constructor.
  - rewrite list_elem_of_filter. tauto.
  - by apply NoDup_filter.
Qed.

Global Instance cell_le_total : Total cell_le.
Proof.
  intros a b. unfold cell_le.
  destruct a as [|p|s], b as [|q|t]; simpl; auto.
  - destruct (decide (q < p)%Qc) as [H|H].
    + right. apply bool_decide_eq_false. intros H'.
      by apply (Qclt_not_le _ _ H'), Qclt_le_weak.
    + left. by apply bool_decide_eq_false.
  - unfold String.ltb. rewrite (String.compare_antisym s t).
    destruct (String.compare t s); simpl; auto.
Qed.

Lemma sorted_texts (l : list cell) :
  Forall (λ x, is_str x = true) l → sorted l = Ok (merge_sort cell_le l).
Proof.
  intros H. unfold sorted.
  replace (existsb (λ x, negb (is_str x)) l) with false;
    [by rewrite andb_false_r|].
  induction H as [|x l Hx _ IH]; [done|]. simpl. by rewrite Hx, <- IH.
Qed.

(** [sorted(s.unique())] of a series of texts: a list with the same
    members. *)
Lemma sorted_unique_texts (s : list cell) :
  Forall (λ x, is_str x = true) s →
  ∃ l, sorted (Pd.unique s) = Ok l ∧ ∀ x, x ∈ l ↔ x ∈ s.
Proof.
  intros Hs. exists (merge_sort cell_le (Pd.unique s)). split.
  - apply sorted_texts. rewrite Forall_forall in Hs. apply Forall_forall.
    intros x Hx. apply Hs. by apply elem_of_unique.
  - intros x. by rewrite merge_sort_Permutation, elem_of_unique.
Qed.

Lemma selectbox_elem_of (options : list cell) index pick x :
  St.selectbox options index pick = Some x → x ∈ options.
Proof.
  unfold St.selectbox. destruct (pick ≫= _) as [y|] eqn:E.
  - intros [= <-]. destruct pick as [i|]; [|done]. simpl in E.
    by eapply list_elem_of_lookup_2.
  - apply list_elem_of_lookup_2.
Qed.

Lemma index_or_0_lt x (l : list cell) :
  l ≠ [] → (App.index_or_0 x l < length l)%nat.
Proof.
  intros Hl. unfold App.index_or_0.
  destruct (list_find _ l) as [[i y]|] eqn:E.
  - apply list_find_Some in E as (E & _). by eapply lookup_lt_Some.
  - destruct l; [done|]. simpl. lia.
Qed.

(** A select box over at least one option returns one of the options. *)
Lemma selectbox_chooses (options : list cell) x pick :
  options ≠ [] →
  ∃ a, St.selectbox options (App.index_or_0 x options) pick = Some a
       ∧ a ∈ options.
Proof.
  intros Hl.
  assert (is_Some (St.selectbox options (App.index_or_0 x options) pick))
    as [a Ha].
  { unfold St.selectbox. destruct (pick ≫= _); [done|].
    apply lookup_lt_is_Some, index_or_0_lt, Hl. }
  exists a. split; [done|]. by eapply selectbox_elem_of.
Qed.

Lemma eq_cell_true a x : Pd.eq_cell a x = true ↔ x = a ∧ a ≠ NaN.
Proof.
  destruct a, x; simpl; rewrite ?bool_decide_eq_true; intuition congruence.
Qed.

Lemma select_matches a t (l : list (gmap string cell)) :
  a ≠ NaN → t ≠ NaN →
  Pd.select (Pd.mask_and (Pd.eq_cell a <$> ((λ r, Pd.at_ r "alloy") <$> l))
                         (Pd.eq_cell t <$> ((λ r, Pd.at_ r "temper") <$> l))) l
  = filter (Spec.matches a t) l.
Proof.
  intros Na Nt. rewrite <- !list_fmap_compose, mask_and_fmap, select_fmap.
  apply list_filter_iff. intros r. unfold compose, Spec.matches.
  rewrite andb_true_iff, !eq_cell_true. tauto.
Qed.

(** The resolution of a pair some row of the frame has: the first such
    row. *)
Lemma resolve_first filtered alloy_list a t :
  "alloy" ∈ columns filtered → "temper" ∈ columns filtered →
  truthy a = true → truthy t = true → a ≠ NaN → t ≠ NaN →
  (∃ r, r ∈ rows filtered ∧ Spec.matches a t r) →
  ∃ r, App.resolve filtered alloy_list (Some a) (Some t) = Ok (Detail a t r)
       ∧ Spec.first_match a t (rows filtered) r.
Proof.
  intros Ha Ht Ta Tt Na Nt (r0 & Hr0 & Hm).
  unfold App.resolve. cbn [App.truthy_opt]. rewrite Ta, Tt. cbn [andb].
  rewrite (series_Ok _ _ Ha). cbn [mbind result_bind].
  rewrite (series_Ok _ _ Ht). cbn [mbind result_bind].
  rewrite (select_matches _ _ _ Na Nt).
  destruct (filter _ (rows filtered)) as [|r rest] eqn:E.
  - assert (r0 ∈ filter (Spec.matches a t) (rows filtered)) as Hin
      by (by apply list_elem_of_filter).
    rewrite E in Hin. by apply elem_of_nil in Hin.
  - exists r. split; [done|].
    apply filter_head_first in E as (pre & post & -> & Hr & Hpre).
    by exists pre, post.
Qed.

(** Whatever is resolved is a row of the frame. *)
Lemma resolve_Detail_in filtered alloy_list sa st a t r :
  App.resolve filtered alloy_list sa st = Ok (Detail a t r) →
  r ∈ rows filtered.
Proof.
  unfold App.resolve. destruct (_ && _).
  - destruct sa as [a'|], st as [t'|]; try done.
    intros (al & _ & (te & _ & H)%bind_Ok)%bind_Ok.
    destruct (Pd.select _ _) as [|r' rest] eqn:E; [done|].
    injection H as _ _ <-.
    pose proof (select_sublist
      (Pd.mask_and (Pd.eq_cell a' <$> al) (Pd.eq_cell t' <$> te))
      (rows filtered)) as Hsub.
    rewrite E in Hsub. eapply sublist_subseteq; [exact Hsub|].
    apply list_elem_of_here.
  - by destruct alloy_list.
Qed.

Lemma selection_Detail_in filtered ui a t r :
  App.selection filtered ui = Ok (Detail a t r) → r ∈ rows filtered.
Proof.
  unfold App.selection. intros ([[al sa] st] & _ & H)%bind_Ok.
  by eapply resolve_Detail_in.
Qed.

(** Without rows there are no alloys and nothing is resolved. *)
Lemma select_widgets_empty filtered ui :
  "alloy" ∈ columns filtered → rows filtered = [] →
  App.select_widgets filtered ui = Ok ([], None, None).
Proof.
  intros Ha Hr. unfold App.select_widgets.
  by rewrite (series_Ok _ _ Ha), Hr.
Qed.

Lemma text_identifiers_alloy filtered r :
  Spec.text_identifiers filtered → r ∈ rows filtered →
  ∃ s, Pd.at_ r "alloy" = Str s ∧ s ≠ EmptyString.
Proof.
  unfold Spec.text_identifiers. rewrite Forall_forall.
  intros H Hr. destruct (H r Hr) as [Hal _].
  destruct (Pd.at_ r "alloy") as [| |s]; [done|done|]. by exists s.
Qed.

Lemma text_identifiers_temper filtered r :
  Spec.text_identifiers filtered → r ∈ rows filtered →
  ∃ s, Pd.at_ r "temper" = Str s ∧ s ≠ EmptyString.
Proof.
  unfold Spec.text_identifiers. rewrite Forall_forall.
  intros H Hr. destruct (H r Hr) as [_ Hte].
  destruct (Pd.at_ r "temper") as [| |s]; [done|done|]. by exists s.
Qed.

(** With rows and text identifiers the two select boxes return the alloy
    and the temper of some row. *)
Lemma select_widgets_text filtered ui :
  "alloy" ∈ columns filtered → "temper" ∈ columns filtered →
  rows filtered ≠ [] → Spec.text_identifiers filtered →
  ∃ alloy_list (s1 s2 : string),
    App.select_widgets filtered ui = Ok (alloy_list, Some (Str s1), Some (Str s2))
    ∧ s1 ≠ EmptyString ∧ s2 ≠ EmptyString
    ∧ ∃ r, r ∈ rows filtered ∧ Spec.matches (Str s1) (Str s2) r.
Proof.
  intros Ha Ht Hne Htxt. unfold App.select_widgets.
  rewrite (series_Ok _ _ Ha). cbn [mbind result_bind].
  destruct (sorted_unique_texts ((λ r, Pd.at_ r "alloy") <$> rows filtered))
    as (alloy_list & -> & Hal).
  { apply Forall_fmap, Forall_forall. intros r Hr.
    destruct (text_identifiers_alloy _ _ Htxt Hr) as (s & E & _).
    simpl. by rewrite E. }
  cbn [mbind result_bind].
  assert (alloy_list ≠ []) as Hal_ne.
  { destruct (rows filtered) as [|r0 rest] eqn:E; [done|].
    intros ->. eapply elem_of_nil, Hal. rewrite fmap_cons.
    apply list_elem_of_here. }
  destruct (selectbox_chooses alloy_list (Str "A5052") (pick_alloy ui) Hal_ne)
    as (a0 & Ea0 & Ha0).
  apply Hal, list_elem_of_fmap in Ha0 as (r0 & -> & Hr0).
  destruct (text_identifiers_alloy _ _ Htxt Hr0) as (s1 & Ea & Na).
  rewrite Ea in Ea0.
  destruct alloy_list as [|x0 alloy_list']; [done|].
  rewrite Ea0. cbn [truthy]. rewrite bool_decide_true by done.
  rewrite (series_Ok (Pd.loc _ _) "temper") by done.
  cbn [mbind result_bind Pd.loc rows].
  rewrite <- list_fmap_compose, select_fmap.
  set (rows_a := filter _ (rows filtered)).
  assert (∀ r, r ∈ rows_a ↔ r ∈ rows filtered ∧ Pd.at_ r "alloy" = Str s1)
    as Hrows_a.
  { intros r. unfold rows_a. rewrite list_elem_of_filter. unfold compose.
    rewrite eq_cell_true. intuition congruence. }
  destruct (sorted_unique_texts ((λ r, Pd.at_ r "temper") <$> rows_a))
    as (tempers & -> & Hte).
  { apply Forall_fmap, Forall_forall. intros r [Hr _]%Hrows_a.
    destruct (text_identifiers_temper _ _ Htxt Hr) as (s & E & _).
    simpl. by rewrite E. }
  cbn [mbind result_bind].
  assert (tempers ≠ []) as Hte_ne.
  { intros ->. eapply elem_of_nil, Hte, list_elem_of_fmap.
    exists r0. split; [done|]. by apply Hrows_a. }
  destruct (selectbox_chooses tempers (Str "H32") (pick_temper ui) Hte_ne)
    as (t0 & Et0 & Ht0).
  apply Hte, list_elem_of_fmap in Ht0 as (r1 & -> & [Hr1 Hr1a]%Hrows_a).
  destruct (text_identifiers_temper _ _ Htxt Hr1) as (s2 & Et & Nt).
  rewrite Et in Et0. rewrite Et0.
  exists (x0 :: alloy_list'), s1, s2.
  split; [done|]. split; [done|]. split; [done|]. by exists r1.
Qed.

End selection.

(** ** The sliders left alone *)

Section full_span.
Implicit Types (df : DataFrame) (r : gmap string cell) (c : string).

Lemma range_slider_integral df c :
  c ∈ columns df → rows df ≠ [] →
  Forall (λ r, Spec.integral (Pd.at_ r c)) (rows df) →
  ∃ range, App.range_slider df c None = Ok range
           ∧ Forall (λ r, Spec.within (Pd.at_ r c) range) (rows df).
Proof.
  intros Hc Hne Hint. unfold App.range_slider.
  rewrite (series_Ok _ _ Hc). cbn [mbind result_bind].
  destruct (slider_bounds_integral ((λ r, Pd.at_ r c) <$> rows df))
    as ([lo hi] & -> & Hw).
  { by destruct (rows df). }
  { by apply Forall_fmap. }
  exists (lo, hi). split; [done|]. by apply Forall_fmap in Hw.
Qed.

(** A slider left alone returns its bounds. *)
Lemma range_slider_no_pick df c :
  App.range_slider df c None = (s ← Pd.series df c; App.slider_bounds s).
Proof.
  unfold App.range_slider. destruct (Pd.series df c) as [s|e]; [|done].
  cbn [mbind result_bind]. by destruct (App.slider_bounds s) as [[lo hi]|e].
Qed.

Lemma integral_not_str x : Spec.integral x → is_str x = false.
Proof. by intros [n ->]%integral_inv. Qed.

End full_span.

(** ** White space around the counter *)

Section white_space.
Import Py PyStr.

Lemma lstrip_blank pre s : blank pre → lstrip (pre +:+ s) = lstrip s.
Proof. induction pre as [|a pre IH]; simpl; [done|]. intros [-> H]. auto. Qed.

Lemma rstrip_blank post : blank post → rstrip post = EmptyString.
Proof.
  induction post as [|a post IH]; simpl; [done|]. intros [Ha H].
  by rewrite (IH H), Ha.
Qed.

Lemma rstrip_app_blank s post : blank post → rstrip (s +:+ post) = rstrip s.
Proof.
  intros H. induction s as [|a s IH]; simpl; [by apply rstrip_blank|].
  by rewrite IH.
Qed.

Lemma strip_app_blank s post : blank post → strip (s +:+ post) = strip s.
Proof.
  intros H. unfold strip. induction s as [|a s IH]; simpl.
  - destruct post as [|b post]; [done|]. simpl in *. destruct H as [-> H].
    assert (lstrip post = EmptyString) as ->; [|done].
    clear -H. induction post as [|c post IH]; simpl; [done|].
    destruct H as [-> H]. auto.
  - destruct (is_space a); [done|].
    change (String a (s +:+ post)) with (String a s +:+ post).
    by apply rstrip_app_blank.
Qed.

Lemma int_of_string_blank pre s post :
  blank pre → blank post →
  int_of_string (pre +:+ s +:+ post) = int_of_string s.
Proof.
  intros Hpre Hpost. unfold int_of_string.
  replace (strip (pre +:+ s +:+ post)) with (strip s); [done|].
  unfold strip at 2. rewrite (lstrip_blank _ _ Hpre).
  symmetry. by apply strip_app_blank.
Qed.

End white_space.

(** ** Truncation is monotone and moves a number by less than one *)

Section truncation.
Implicit Types (p q : Qc).

Lemma quot_bounds (a : Z) (b : positive) :
  (0 ≤ a → (a ÷ Z.pos b) * Z.pos b ≤ a < (a ÷ Z.pos b + 1) * Z.pos b)
  ∧ (a ≤ 0 → (a ÷ Z.pos b - 1) * Z.pos b < a ≤ (a ÷ Z.pos b) * Z.pos b).
Proof.
  pose proof (Z.quot_rem' a (Z.pos b)) as E. split; intros Ha.
  - pose proof (Z.rem_bound_pos a (Z.pos b) Ha (Pos2Z.is_pos _)). nia.
  - pose proof (Z.rem_bound_pos_neg a (Z.pos b) (Pos2Z.is_pos _) Ha). nia.
Qed.

Lemma quot_mono (a c b d : Z) :
  0 < b → 0 < d → a * d ≤ c * b →
  (0 ≤ a → (a ÷ b) * b ≤ a < (a ÷ b + 1) * b) →
  (a ≤ 0 → (a ÷ b - 1) * b < a ≤ (a ÷ b) * b) →
  (0 ≤ c → (c ÷ d) * d ≤ c < (c ÷ d + 1) * d) →
  (c ≤ 0 → (c ÷ d - 1) * d < c ≤ (c ÷ d) * d) →
  a ÷ b ≤ c ÷ d.
Proof.
  intros Hb Hd H P1 P2 Q1 Q2.
  generalize dependent (a ÷ b). generalize dependent (c ÷ d). intros y Q1 Q2 x P1 P2.
  apply Z.nlt_ge. intros Hlt.
  assert (0 < b * d) as Hbd by nia.
  destruct (Z.le_gt_cases 0 a) as [Ha|Ha], (Z.le_gt_cases 0 c) as [Hc|Hc].
  - specialize (P1 Ha). specialize (Q1 Hc).
    assert (x * b * d ≤ a * d) by nia.
    assert (c * b < (y + 1) * d * b) by nia.
    assert ((y + 1) * (b * d) ≤ x * (b * d)) by nia. nia.
  - nia.
  - specialize (P2 (Z.lt_le_incl _ _ Ha)). specialize (Q1 Hc).
    assert (0 ≤ y) by nia. assert (x ≤ 0) by nia. lia.
  - specialize (P2 (Z.lt_le_incl _ _ Ha)).
    specialize (Q2 (Z.lt_le_incl _ _ Hc)).
    assert ((x - 1) * b * d < a * d) by nia.
    assert (c * b ≤ y * d * b) by nia.
    assert ((x - 1) * (b * d) < y * (b * d)) by nia. nia.
Qed.

Lemma trunc_mono p q : (p ≤ q)%Qc → Py.trunc p ≤ Py.trunc q.
Proof.
  unfold Qcle, Qle, Py.trunc. intros H.
  destruct (quot_bounds (Qnum p) (Qden p)) as [P1 P2].
  destruct (quot_bounds (Qnum q) (Qden q)) as [Q1 Q2].
  by apply quot_mono.
Qed.



Lemma numbers_elem_of (s : list cell) (qs : list Qc) :
  Pd.numbers s = Ok qs → ∀ q, q ∈ qs ↔ Num q ∈ s.
Proof.
  revert qs. induction s as [|x s IH]; intros qs.
  - intros [= <-] q. by rewrite !elem_of_nil.
  - destruct x as [|p|t]; cbn [Pd.numbers]; [| |done].
    + intros H q. rewrite (IH _ H), elem_of_cons.
      split; [by right|by intros [?|?]].
    + intros (l & Hl & [= <-])%bind_Ok q.
      rewrite !elem_of_cons, (IH _ Hl).
      split; [intros [->|?]; auto|intros [[= ->]|?]; auto].
Qed.


Lemma numbers_Ok (s : list cell) :
  Forall (λ x, is_str x = false) s → ∃ qs, Pd.numbers s = Ok qs.
Proof.
  induction 1 as [|x s Hx _ [qs IH]]; [by exists []|].
  destruct x as [|p|t]; [| |done]; cbn [Pd.numbers]; rewrite ?IH; eauto.
Qed.

(** When the bounds of a slider exist they come from a number of the
    series. *)
Lemma slider_bounds_Ok_inv (s : list cell) lo hi :
  App.slider_bounds s = Ok (lo, hi) →
  ∃ qs m M, Pd.numbers s = Ok qs ∧ m ∈ qs ∧ M ∈ qs
    ∧ (∀ q, q ∈ qs → (m ≤ q)%Qc ∧ (q ≤ M)%Qc)
    ∧ lo = Py.trunc m
    ∧ hi = if decide (Py.trunc m = Py.trunc M) then Py.trunc M + 1
           else Py.trunc M.
Proof.
  intros H. destruct (Pd.numbers s) as [qs|e] eqn:E.
  - destruct (decide (qs = [])) as [->|Hne].
    + unfold App.slider_bounds, Pd.min in H. by rewrite E in H.
    + destruct (slider_bounds_numbers s qs E Hne) as (m & M & Hm & HM & Hb & E').
      rewrite E' in H. injection H as <- <-. by exists qs, m, M.
  - unfold App.slider_bounds, Pd.min in H. by rewrite E in H.
Qed.


End truncation.

(** ** What the loader does to a row *)

Section cleaning.
Implicit Types (df : DataFrame) (r : gmap string cell) (c : string).

Lemma clean_row_idem b r : Spec.clean_row b (Spec.clean_row b r) = Spec.clean_row b r.
Proof.
  apply map_eq. intros c. rewrite !clean_row_lookup.
  destruct (decide (c ∈ App.cols_to_fill)).
  - rewrite <- option_fmap_compose. apply option_fmap_ext. intros x.
    apply fillna_idem.
  - destruct (decide (c = "corrosion_resistance")); [|done].
    destruct b; [|done]. rewrite <- option_fmap_compose.
    apply option_fmap_ext. intros x. apply fillna_idem.
Qed.

Lemma clean_row_is_Some b r c :
  is_Some (Spec.clean_row b r !! c) ↔ is_Some (r !! c).
Proof.
  rewrite clean_row_lookup.
  repeat case_decide; try destruct b; by rewrite ?fmap_is_Some.
Qed.

Lemma at_clean_row_unfilled b r c :
  c ∉ App.cols_to_fill → c ≠ "corrosion_resistance" →
  Pd.at_ (Spec.clean_row b r) c = Pd.at_ r c.
Proof.
  intros H1 H2. unfold Pd.at_. by rewrite clean_row_lookup, !decide_False.
Qed.

Lemma at_clean_row_filled b r c :
  c ∈ App.cols_to_fill → is_Some (r !! c) →
  Pd.at_ (Spec.clean_row b r) c = Pd.fillna (Num (Qc_of_Z 0)) (Pd.at_ r c).
Proof.
  intros H1 [x Hx]. unfold Pd.at_.
  by rewrite clean_row_lookup, decide_True, Hx.
Qed.

Lemma at_clean_row_corrosion r :
  is_Some (r !! "corrosion_resistance") →
  Pd.at_ (Spec.clean_row true r) "corrosion_resistance"
  = Pd.fillna (Str "-") (Pd.at_ r "corrosion_resistance").
Proof.
  intros [x Hx]. unfold Pd.at_.
  rewrite clean_row_lookup, decide_False by compute_done.
  by rewrite decide_True, Hx.
Qed.

(** Cleaning never makes a text of a cell of a numeric column. *)
Lemma at_clean_row_not_str b r c :
  c ≠ "corrosion_resistance" →
  is_str (Pd.at_ r c) = false → is_str (Pd.at_ (Spec.clean_row b r) c) = false.
Proof.
  intros Hc H. unfold Pd.at_ in *. rewrite clean_row_lookup.
  destruct (decide (c ∈ App.cols_to_fill)).
  - by destruct (r !! c) as [[]|].
  - by rewrite decide_False.
Qed.

Lemma load_cleaned path df :
  Forall (λ c, c ∈ columns df) App.cols_to_fill →
  App.load_alloy_data path (Ok df) = (File.cleaned df, []).
Proof. rewrite Forall_forall. apply load_Ok. Qed.

Lemma cleaned_not_empty df :
  Forall (λ c, c ∈ columns df) App.cols_to_fill → rows df ≠ [] →
  Pd.empty (File.cleaned df) = false.
Proof.
  intros Hc Hr. unfold Pd.empty, File.cleaned. cbn [columns rows].
  destruct (columns df) as [|c0 cols].
  - by apply Forall_cons_1, proj1, elem_of_nil in Hc.
  - by destruct (rows df).
Qed.

End cleaning.

(** ** The widgets: what a pick changes *)

Section widgets.
Implicit Types (df : DataFrame) (r : gmap string cell) (c : string).

Lemma range_slider_pick df c pick :
  App.range_slider df c pick
  = (b ← App.range_slider df c None; Ok (St.slider b.1 b.2 pick)).
Proof.
  unfold App.range_slider. destruct (Pd.series df c) as [s|e]; [|done].
  cbn [mbind result_bind]. by destruct (App.slider_bounds s) as [[lo hi]|e].
Qed.

(** The state of the widgets is the state they have left alone, each
    widget then taking the pick of the user. *)
Lemma filter_widgets_pick df ui :
  App.filter_widgets df ui
  = (fs ← App.filter_widgets df no_picks;
     Ok {| selected_corrosion :=
             St.multiselect (selected_corrosion fs) (pick_corrosion ui);
           tensile_range :=
             St.slider (tensile_range fs).1 (tensile_range fs).2 (pick_tensile ui);
           yield_range :=
             St.slider (yield_range fs).1 (yield_range fs).2 (pick_yield ui);
           elongation_range :=
             St.slider (elongation_range fs).1 (elongation_range fs).2
               (pick_elongation ui);
           thermal_cond_range :=
             St.slider (thermal_cond_range fs).1 (thermal_cond_range fs).2
               (pick_thermal_cond ui);
           elec_cond_range :=
             St.slider (elec_cond_range fs).1 (elec_cond_range fs).2
               (pick_elec_cond ui) |}).
Proof.
  unfold App.filter_widgets.
  destruct (Pd.series df "corrosion_resistance") as [s|e]; [|done].
  cbn [mbind result_bind]. destruct (sorted (Pd.unique s)) as [o|e]; [|done].
  cbn [mbind result_bind].
  rewrite (range_slider_pick df _ (pick_tensile ui)),
    (range_slider_pick df _ (pick_yield ui)),
    (range_slider_pick df _ (pick_elongation ui)),
    (range_slider_pick df _ (pick_thermal_cond ui)),
    (range_slider_pick df _ (pick_elec_cond ui)).
  cbn [no_picks pick_tensile pick_yield pick_elongation pick_thermal_cond
       pick_elec_cond pick_corrosion].
  destruct (App.range_slider df "tensile_strength_mpa" None); [|done].
  cbn [mbind result_bind].
  destruct (App.range_slider df "yield_strength_mpa" None); [|done].
  cbn [mbind result_bind].
  destruct (App.range_slider df "elongation_percent" None); [|done].
  cbn [mbind result_bind].
  destruct (App.range_slider df "thermal_conductivity_w_mk" None); [|done].
  cbn [mbind result_bind].
  by destruct (App.range_slider df "electrical_conductivity_iacs" None).
Qed.



Lemma range_slider_Ok_inv df c range :
  App.range_slider df c None = Ok range →
  c ∈ columns df
  ∧ App.slider_bounds ((λ r, Pd.at_ r c) <$> rows df) = Ok range.
Proof.
  rewrite range_slider_no_pick.
  by intros (s & [Hc ->]%series_Ok_inv & H)%bind_Ok.
Qed.

Lemma filter_widgets_Ok_inv df fs :
  App.filter_widgets df no_picks = Ok fs →
  ∃ corrosion_options,
    "corrosion_resistance" ∈ columns df
    ∧ sorted (Pd.unique ((λ r, Pd.at_ r "corrosion_resistance") <$> rows df))
      = Ok corrosion_options
    ∧ selected_corrosion fs = corrosion_options
    ∧ App.range_slider df "tensile_strength_mpa" None = Ok (tensile_range fs)
    ∧ App.range_slider df "yield_strength_mpa" None = Ok (yield_range fs)
    ∧ App.range_slider df "elongation_percent" None = Ok (elongation_range fs)
    ∧ App.range_slider df "thermal_conductivity_w_mk" None
      = Ok (thermal_cond_range fs)
    ∧ App.range_slider df "electrical_conductivity_iacs" None
      = Ok (elec_cond_range fs).
Proof.
  unfold App.filter_widgets.
  intros (s & [Hc ->]%series_Ok_inv & H)%bind_Ok.
  apply bind_Ok in H as (o & Ho & H).
  cbn [no_picks pick_tensile pick_yield pick_elongation pick_thermal_cond
       pick_elec_cond pick_corrosion St.multiselect] in H.
  apply bind_Ok in H as (r1 & E1 & H). apply bind_Ok in H as (r2 & E2 & H).
  apply bind_Ok in H as (r3 & E3 & H). apply bind_Ok in H as (r4 & E4 & H).
  apply bind_Ok in H as (r5 & E5 & H). injection H as <-.
  by exists o.
Qed.


End widgets.

(** A case for each member of a list given in full. *)
Ltac cases_elem H :=
  repeat (apply elem_of_cons in H as [->|H]); [..|by apply elem_of_nil in H].

(** ** [main] on a file that loads *)

Section main_steps.
Implicit Types (df : DataFrame) (r : gmap string cell) (c : string).
Implicit Types (w : world) (ui : picks).

(** A parsed file with the twelve columns and a row: [main] counts the
    visit and builds the page from the cleaned frame. *)
Lemma main_loaded w ui df :
  csv w = Ok df → Forall (λ c, c ∈ columns df) App.cols_to_fill →
  rows df ≠ [] →
  App.main w ui
  = {| run_count_file := (Session.counter_step w).1; run_counted := true;
       run_errors := (Session.counter_step w).2;
       run_page :=
         fs ← App.filter_widgets (File.cleaned df) ui;
         filtered ← App.apply_filter (File.cleaned df) fs;
         v ← App.selection filtered ui;
         Ok (Some {| visitor_count := App.get_visitor_count (Session.counter_step w).1;
                     filtered_df := filtered; shown := v |}) |}.
Proof.
  intros Hcsv Hcols Hrows. unfold App.main, Session.counter_step.
  rewrite Hcsv, (load_cleaned _ _ Hcols), (cleaned_not_empty _ Hcols Hrows).
  destruct (counted w); [done|].
  by destruct (App.increment_visitor_count _ _).
Qed.

(** Without a row, or without a frame, no page is built. *)
Lemma main_page_inv w ui p :
  run_page (App.main w ui) = Ok (Some p) →
  ∃ df fs,
    csv w = Ok df ∧ Forall (λ c, c ∈ columns df) App.cols_to_fill
    ∧ rows df ≠ []
    ∧ App.filter_widgets (File.cleaned df) ui = Ok fs
    ∧ App.apply_filter (File.cleaned df) fs = Ok (filtered_df p)
    ∧ App.selection (filtered_df p) ui = Ok (shown p).
Proof.
  intros H. destruct (csv w) as [df|e] eqn:Hcsv.
  - destruct (decide (Forall (λ c, c ∈ columns df) App.cols_to_fill))
      as [Hcols|Hcols].
    + destruct (decide (rows df = [])) as [Hrows|Hrows].
      * unfold App.main in H. rewrite Hcsv, (load_cleaned _ _ Hcols) in H.
        unfold Pd.empty, File.cleaned in H. cbn [columns rows] in H.
        rewrite Hrows in H. by destruct (columns df).
      * rewrite (main_loaded _ _ _ Hcsv Hcols Hrows) in H. cbn [run_page] in H.
        apply bind_Ok in H as (fs & Hfs & H).
        apply bind_Ok in H as (filtered & Hf & H).
        apply bind_Ok in H as (v & Hv & H). injection H as <-.
        by exists df, fs.
    + unfold App.main in H. rewrite Hcsv in H.
      rewrite Forall_forall in Hcols.
      by rewrite (load_missing_column _ _ Hcols) in H.
  - unfold App.main in H. rewrite Hcsv in H. by destruct e.
Qed.

Lemma apply_filter_rows df fs out :
  App.apply_filter df fs = Ok out →
  columns out = columns df ∧ rows out = filter (Spec.retained fs) (rows df).
Proof.
  intros H. pose proof (apply_filter_Ok_inv _ _ _ H) as Hdf.
  rewrite (apply_filter_Ok _ _ Hdf) in H. by injection H as <-.
Qed.

Lemma within_number x range : Spec.within x range → File.number x.
Proof. by destruct x. Qed.

Lemma retained_numbers fs r :
  Spec.retained fs r → Forall (λ c, File.number (Pd.at_ r c)) Spec.range_columns.
Proof.
  intros (_ & H1 & H2 & H3 & H4 & H5).
  repeat constructor; by eapply within_number.
Qed.

End main_steps.

(** ** The sliders of a frame with numbers *)

Section sliders.
Implicit Types (df : DataFrame) (r : gmap string cell) (c : string).

Lemma range_slider_Ok df c :
  c ∈ columns df →
  Forall (λ r, is_str (Pd.at_ r c) = false) (rows df) →
  Exists (λ r, File.number (Pd.at_ r c)) (rows df) →
  ∃ lo hi, App.range_slider df c None = Ok (lo, hi).
Proof.
  intros Hc Hs Hn. rewrite range_slider_no_pick, (series_Ok _ _ Hc).
  cbn [mbind result_bind].
  destruct (numbers_Ok ((λ r, Pd.at_ r c) <$> rows df)) as [qs Hqs];
    [by apply Forall_fmap|].
  destruct (slider_bounds_numbers _ qs Hqs) as (m & M & _ & _ & _ & ->);
    [|by eauto].
  apply Exists_exists in Hn as (r & Hr & Hn).
  destruct (Pd.at_ r c) as [|q|] eqn:E; [done| |done].
  intros ->. eapply elem_of_nil, (numbers_elem_of _ _ Hqs q).
  rewrite <- E. by apply (list_elem_of_fmap_2 (λ r, Pd.at_ r c)).
Qed.



(** The widgets of a frame whose corrosion classes are texts and whose
    range columns hold no text and at least one number each. *)
Lemma filter_widgets_Ok df :
  Spec.filterable df →
  Forall (λ r, is_str (Pd.at_ r "corrosion_resistance") = true) (rows df) →
  Forall (λ c, Exists (λ r, File.number (Pd.at_ r c)) (rows df))
    Spec.range_columns →
  ∃ fs, App.filter_widgets df no_picks = Ok fs.
Proof.
  intros Hdf Hcorr Hnum.
  assert (∀ c, c ∈ Spec.range_columns →
            ∃ lo hi, App.range_slider df c None = Ok (lo, hi)) as Hs.
  { intros c Hc. destruct (filterable_column df c Hdf Hc) as [Hcol Hrows].
    apply range_slider_Ok; [done|done|].
    rewrite Forall_forall in Hnum. by apply Hnum. }
  destruct (Hs "tensile_strength_mpa") as (l1 & h1 & E1); [compute_done|].
  destruct (Hs "yield_strength_mpa") as (l2 & h2 & E2); [compute_done|].
  destruct (Hs "elongation_percent") as (l3 & h3 & E3); [compute_done|].
  destruct (Hs "thermal_conductivity_w_mk") as (l4 & h4 & E4); [compute_done|].
  destruct (Hs "electrical_conductivity_iacs") as (l5 & h5 & E5);
    [compute_done|].
  destruct (sorted_unique_texts
              ((λ r, Pd.at_ r "corrosion_resistance") <$> rows df))
    as (options & Eo & _); [by apply Forall_fmap|].
  eexists. unfold App.filter_widgets.
  rewrite (series_Ok df "corrosion_resistance") by (by destruct Hdf).
  cbn [mbind result_bind]. rewrite Eo.
  cbn [mbind result_bind pick_tensile pick_yield pick_elongation
       pick_thermal_cond pick_elec_cond pick_corrosion no_picks].
  rewrite E1. cbn [mbind result_bind]. rewrite E2. cbn [mbind result_bind].
  rewrite E3. cbn [mbind result_bind]. rewrite E4. cbn [mbind result_bind].
  rewrite E5. cbn [mbind result_bind]. done.
Qed.

End sliders.

(** ** The frame the loader makes of a well-formed file *)

Section well_formed.
Implicit Types (df : DataFrame) (r : gmap string cell) (c : string).

Lemma well_formed_columns df c :
  File.well_formed df →
  c ∈ "alloy" :: "temper" :: "corrosion_resistance" :: Spec.range_columns
      ++ App.cols_to_fill →
  c ∈ columns df.
Proof. intros (_ & H & _) Hc. rewrite Forall_forall in H. by apply H. Qed.

Lemma well_formed_cols_to_fill df :
  File.well_formed df → Forall (λ c, c ∈ columns df) App.cols_to_fill.
Proof.
  intros H. apply Forall_forall. intros c Hc.
  apply (well_formed_columns df c H). do 3 apply list_elem_of_further.
  apply elem_of_app. by right.
Qed.

Lemma well_formed_row_cell df r c :
  File.well_formed df → r ∈ rows df → c ∈ columns df → is_Some (r !! c).
Proof.
  intros (_ & _ & H & _) Hr Hc. rewrite Forall_forall in H.
  destruct (H r Hr) as (Hcells & _). rewrite Forall_forall in Hcells. auto.
Qed.

Lemma cleaned_corrosion_text df :
  File.well_formed df →
  Forall (λ r, is_str (Pd.at_ r "corrosion_resistance") = true)
    (rows (File.cleaned df)).
Proof.
  intros Hwf. pose proof Hwf as (_ & _ & Hrows & _).
  assert ("corrosion_resistance" ∈ columns df) as Hc
    by (apply (well_formed_columns df _ Hwf); compute_done).
  unfold File.cleaned. cbn [rows]. rewrite bool_decide_true by done.
  apply Forall_fmap, Forall_forall. intros r Hr. unfold compose; cbv beta.
  rewrite at_clean_row_corrosion by (by eapply well_formed_row_cell).
  rewrite Forall_forall in Hrows. destruct (Hrows r Hr) as (_ & _ & _ & Hn & _).
  by destruct (Pd.at_ r "corrosion_resistance").
Qed.

Lemma cleaned_filterable df : File.well_formed df → Spec.filterable (File.cleaned df).
Proof.
  intros Hwf. pose proof Hwf as (_ & _ & Hrows & _).
  split; [apply (well_formed_columns df _ Hwf); compute_done|]. split.
  - apply Forall_forall. intros c Hc. apply (well_formed_columns df _ Hwf).
    do 3 apply list_elem_of_further. apply elem_of_app. by left.
  - unfold File.cleaned. cbn [rows]. apply Forall_fmap, Forall_forall.
    intros r Hr. unfold compose; cbv beta. rewrite Forall_forall in Hrows.
    destruct (Hrows r Hr) as (_ & _ & _ & _ & Hns & _).
    rewrite Forall_forall in Hns. apply Forall_forall. intros c Hc.
    apply at_clean_row_not_str; [|by apply Hns].
    intros ->. revert Hc. compute_done.
Qed.

Lemma cleaned_text_identifiers df :
  File.well_formed df → Spec.text_identifiers (File.cleaned df).
Proof.
  intros (_ & _ & Hrows & _). unfold Spec.text_identifiers, File.cleaned.
  cbn [rows]. apply Forall_fmap. eapply Forall_impl; [exact Hrows|].
  intros r (_ & Ha & Ht & _). unfold compose; cbv beta.
  by rewrite !at_clean_row_unfilled by compute_done.
Qed.

Lemma cleaned_numbers df :
  File.well_formed df →
  Forall (λ c, Exists (λ r, File.number (Pd.at_ r c)) (rows (File.cleaned df)))
    Spec.range_columns.
Proof.
  intros Hwf. pose proof Hwf as (Hne & _ & Hrows & Hnum).
  assert (∀ c, c ∈ File.unfilled_range_columns →
            Exists (λ r, File.number (Pd.at_ r c)) (rows (File.cleaned df)))
    as H3.
  { intros c Hc. rewrite Forall_forall in Hnum.
    unfold File.cleaned. cbn [rows]. apply Exists_fmap.
    eapply Exists_impl; [exact (Hnum c Hc)|]. intros r Hr.
    unfold compose; cbv beta.
    rewrite at_clean_row_unfilled; [done| |]; clear -Hc; cases_elem Hc;
      compute_done. }
  assert (∀ c, c ∈ ["thermal_conductivity_w_mk"; "electrical_conductivity_iacs"] →
            Exists (λ r, File.number (Pd.at_ r c)) (rows (File.cleaned df)))
    as H2.
  { intros c Hc. unfold File.cleaned. cbn [rows].
    destruct (rows df) as [|r0 rest] eqn:E; [done|].
    rewrite fmap_cons. apply Exists_cons_hd.
    assert (r0 ∈ rows df) as Hr0 by (rewrite E; apply list_elem_of_here).
    assert (c ∈ App.cols_to_fill ∧ c ∈ Spec.range_columns) as [Hfill Hrange]
      by (clear -Hc; cases_elem Hc; compute_done).
    rewrite at_clean_row_filled; [|done|].
    - rewrite <- E in Hrows. rewrite Forall_forall in Hrows.
      destruct (Hrows r0 Hr0) as (_ & _ & _ & _ & Hns & _).
      rewrite Forall_forall in Hns.
      specialize (Hns c Hrange). by destruct (Pd.at_ r0 c).
    - apply (well_formed_row_cell df); [done|done|].
      pose proof (well_formed_cols_to_fill df Hwf) as Hcols.
      rewrite Forall_forall in Hcols. by apply Hcols. }
  repeat constructor; (apply H3; compute_done) || (apply H2; compute_done).
Qed.

End well_formed.

(** ** The selection on any frame *)

Section resolution.
Implicit Types (df filtered : DataFrame) (r : gmap string cell) (c : string).
Implicit Types (a t x : cell).

Lemma sorted_Permutation (l l' : list cell) : sorted l = Ok l' → l' ≡ₚ l.
Proof.
  unfold sorted. destruct (_ && _); [done|]. intros [= <-].
  apply merge_sort_Permutation.
Qed.

(** The rows the mask of line 169 (and of line 263) selects. *)
Lemma select_eq_cells a t (l : list (gmap string cell)) :
  Pd.select (Pd.mask_and (Pd.eq_cell a <$> ((λ r, Pd.at_ r "alloy") <$> l))
                         (Pd.eq_cell t <$> ((λ r, Pd.at_ r "temper") <$> l))) l
  = filter (λ r, Spec.matches a t r ∧ a ≠ NaN ∧ t ≠ NaN) l.
Proof.
  rewrite <- !list_fmap_compose, mask_and_fmap, select_fmap.
  apply list_filter_iff. intros r. unfold compose, Spec.matches.
  rewrite andb_true_iff, !eq_cell_true. tauto.
Qed.

Lemma resolve_Detail_inv filtered alloy_list sa st a t r :
  App.resolve filtered alloy_list sa st = Ok (Detail a t r) →
  sa = Some a ∧ st = Some t ∧ a ≠ NaN ∧ t ≠ NaN
  ∧ "alloy" ∈ columns filtered ∧ "temper" ∈ columns filtered
  ∧ ∃ rest, filter (Spec.matches a t) (rows filtered) = r :: rest.
Proof.
  unfold App.resolve. destruct (_ && _).
  - destruct sa as [a'|], st as [t'|]; try done.
    intros (al & [Ha ->]%series_Ok_inv & H)%bind_Ok.
    apply bind_Ok in H as (te & [Ht ->]%series_Ok_inv & H).
    rewrite select_eq_cells in H.
    destruct (filter _ (rows filtered)) as [|r' rest] eqn:E; [done|].
    injection H as -> -> ->.
    assert (r ∈ r :: rest) as Hr by apply list_elem_of_here.
    rewrite <- E in Hr. apply list_elem_of_filter in Hr as [(_ & Na & Nt) _].
    split_and!; try done. exists rest. rewrite <- E.
    apply list_filter_iff. tauto.
  - by destruct alloy_list.
Qed.

(** The warning is the view of a frame without rows, and of no other. *)
Lemma selection_warning filtered ui :
  App.selection filtered ui = Ok NoAlloyWarning → rows filtered = [].
Proof.
  unfold App.selection. intros ([[al sa] st] & Hw & Hr)%bind_Ok.
  assert (al = []) as ->.
  { unfold App.resolve in Hr. destruct (_ && _).
    - destruct sa, st; try done.
      apply bind_Ok in Hr as (? & _ & Hr). apply bind_Ok in Hr as (? & _ & Hr).
      by destruct (Pd.select _ _).
    - by destruct al. }
  unfold App.select_widgets in Hw.
  apply bind_Ok in Hw as (s & [_ ->]%series_Ok_inv & Hw).
  apply bind_Ok in Hw as (al & Hal%sorted_Permutation & Hw).
  destruct al as [|x al].
  - apply Permutation_nil_l in Hal. destruct (rows filtered); [done|].
    by rewrite fmap_cons in Hal.
  - destruct (St.selectbox _ _ _) as [a0|]; [|done].
    apply bind_Ok in Hw as (? & _ & [=]).
Qed.

(** With the two identifier columns and text identifiers nothing is
    raised: the warning without rows, the first matching row of the
    selected pair otherwise. *)
Lemma selection_total filtered ui :
  "alloy" ∈ columns filtered → "temper" ∈ columns filtered →
  Spec.text_identifiers filtered →
  match rows filtered with
  | [] => App.selection filtered ui = Ok NoAlloyWarning
  | _ => ∃ a t r, App.selection filtered ui = Ok (Detail a t r)
                  ∧ Spec.first_match a t (rows filtered) r
  end.
Proof.
  intros Ha Ht Htxt. destruct (rows filtered) as [|r0 rest] eqn:E.
  - unfold App.selection. by rewrite (select_widgets_empty filtered ui Ha E).
  - destruct (select_widgets_text filtered ui Ha Ht) as
      (alloy_list & s1 & s2 & Ew & N1 & N2 & Hm); [by rewrite E|done|].
    destruct (resolve_first filtered alloy_list (Str s1) (Str s2))
      as (r & Er & Hfirst); try done.
    { simpl. by rewrite bool_decide_true. }
    { simpl. by rewrite bool_decide_true. }
    exists (Str s1), (Str s2), r. rewrite <- E. split; [|done].
    unfold App.selection. by rewrite Ew.
Qed.

(** A selected alloy whose rows all lack the temper. *)
Lemma unique_constant x (s : list cell) :
  s ≠ [] → Forall (λ y, y = x) s → Pd.unique s = [x].
Proof.
  intros Hne Hs. destruct Hs as [|y s -> Hs]; [done|]. cbn [Pd.unique].
  f_equal. clear Hne. induction Hs as [|y s -> _ IH]; [done|].
  cbn [Pd.unique]. rewrite filter_cons_False by (by intros ?).
  by rewrite IH.
Qed.

End resolution.

(** ** The page of a well-formed file *)

Section pages.
Implicit Types (df : DataFrame) (r : gmap string cell) (c : string).
Implicit Types (w : world) (ui : picks).

(** The page [main] builds from a well-formed file. *)
Lemma main_well_formed w ui df :
  csv w = Ok df → File.well_formed df →
  ∃ fs v,
    App.filter_widgets (File.cleaned df) ui = Ok fs
    ∧ let filtered :=
        {| columns := columns df;
           rows := filter (Spec.retained fs) (rows (File.cleaned df)) |} in
      App.selection filtered ui = Ok v
      ∧ run_page (App.main w ui)
        = Ok (Some {| visitor_count :=
                        App.get_visitor_count (Session.counter_step w).1;
                      filtered_df := filtered; shown := v |})
      ∧ match rows filtered with
        | [] => v = NoAlloyWarning
        | _ => ∃ a t r, v = Detail a t r
                        ∧ Spec.first_match a t (rows filtered) r
        end.
Proof.
  intros Hcsv Hwf.
  pose proof (well_formed_cols_to_fill df Hwf) as Hcols.
  pose proof Hwf as (Hne & _).
  destruct (filter_widgets_Ok (File.cleaned df) (cleaned_filterable df Hwf)
              (cleaned_corrosion_text df Hwf) (cleaned_numbers df Hwf))
    as [fs0 E0].
  pose proof (filter_widgets_pick (File.cleaned df) ui) as Efs.
  rewrite E0 in Efs. cbn [mbind result_bind] in Efs.
  eexists. 
  set (filtered := {| columns := columns df; rows := filter _ _ |}).
  assert (Spec.text_identifiers filtered) as Htxt.
  { pose proof (cleaned_text_identifiers df Hwf) as H.
    unfold Spec.text_identifiers in *. rewrite Forall_forall in H.
    apply Forall_forall. intros r [_ Hr]%list_elem_of_filter. by apply H. }
  pose proof (selection_total filtered ui
                (well_formed_columns df "alloy" Hwf ltac:(compute_done))
                (well_formed_columns df "temper" Hwf ltac:(compute_done))
                Htxt) as Hsel.
  assert (∃ v, App.selection filtered ui = Ok v
               ∧ match rows filtered with
                 | [] => v = NoAlloyWarning
                 | _ => ∃ a t r, v = Detail a t r
                                 ∧ Spec.first_match a t (rows filtered) r
                 end) as (v & Ev & Hv).
  { destruct (rows filtered) as [|r0 rest]; [by eexists|].
    destruct Hsel as (a & t & r & E & Hf). exists (Detail a t r).
    split; [done|]. by exists a, t, r. }
  exists v. split; [exact Efs|]. split; [done|]. split; [|done].
  rewrite (main_loaded _ _ _ Hcsv Hcols Hne). cbn [run_page].
  rewrite Efs. cbn [mbind result_bind].
  rewrite (apply_filter_Ok _ _ (cleaned_filterable df Hwf)).
  cbn [mbind result_bind]. change (columns (File.cleaned df)) with (columns df).
  fold filtered. by rewrite Ev.
Qed.

End pages.

(** ** A temper that is missing *)

Section missing_temper.
Implicit Types (filtered : DataFrame) (r : gmap string cell).

Lemma filter_none {A} (P : A → Prop) `{!∀ u, Decision (P u)} (l : list A) :
  Forall (λ u, ¬ P u) l → filter P l = [].
Proof.
  induction 1 as [|u l Hu _ IH]; [done|]. by rewrite filter_cons_False.
Qed.

Lemma selectbox_singleton (x : cell) index pick :
  (index < 1)%nat → St.selectbox [x] index pick = Some x.
Proof.
  intros Hi. unfold St.selectbox.
  destruct (pick ≫= _) as [y|] eqn:E.
  - destruct pick as [i|]; [|done]. simpl in E.
    apply list_elem_of_lookup_2, list_elem_of_singleton in E. by subst.
  - destruct index; [done|lia].
Qed.

(** A missing temper is true and equals nothing: no row is selected. *)
Lemma resolve_missing_temper filtered alloy_list a :
  "alloy" ∈ columns filtered → "temper" ∈ columns filtered →
  truthy a = true →
  App.resolve filtered alloy_list (Some a) (Some NaN) = Raise IndexError.
Proof.
  intros Ha Ht Ta. unfold App.resolve. cbn [App.truthy_opt truthy].
  rewrite Ta. cbn [andb]. rewrite (series_Ok _ _ Ha), (series_Ok _ _ Ht).
  cbn [mbind result_bind]. rewrite select_eq_cells.
  rewrite filter_none; [done|].
  apply Forall_forall. by intros r _ (_ & _ & ?).
Qed.

End missing_temper.

(** ** A range column without a number *)

Section no_number.
Implicit Types (df : DataFrame) (r : gmap string cell) (c : string).



End no_number.

(** ** The counter over the runs of a session *)

Section sessions.
Implicit Types (w : world) (ui : picks) (v : visit) (file : option string).

(** The outcome of the page does not depend on the counter. *)
Lemma main_page_counter w w' ui :
  csv w' = csv w →
  match run_page (App.main w ui), run_page (App.main w' ui) with
  | Ok (Some p), Ok (Some p') =>
      filtered_df p = filtered_df p' ∧ shown p = shown p'
  | Ok None, Ok None => True
  | Raise e1, Raise e2 => e1 = e2
  | _, _ => False
  end.
Proof.
  intros E. unfold App.main. rewrite E.
  destruct (App.load_alloy_data _ _) as [df errors].
  destruct (Pd.empty df); [done|].
  destruct (if counted w then _ else _) as [f1 e1].
  destruct (if counted w' then _ else _) as [f2 e2]. cbn [run_page].
  destruct (App.filter_widgets df ui) as [fs|?]; [|done].
  cbn [mbind result_bind].
  destruct (App.apply_filter df fs) as [filtered|?]; [|done].
  cbn [mbind result_bind]. by destruct (App.selection filtered ui).
Qed.

Lemma main_counted w ui :
  counted w = true →
  run_count_file (App.main w ui) = count_file w
  ∧ run_counted (App.main w ui) = true.
Proof.
  intros Hc. unfold App.main.
  destruct (App.load_alloy_data _ _) as [df errors].
  destruct (Pd.empty df); rewrite Hc; done.
Qed.

Lemma main_not_loaded w ui e :
  csv w = Raise e →
  run_count_file (App.main w ui) = count_file w
  ∧ run_counted (App.main w ui) = counted w.
Proof. intros E. unfold App.main. rewrite E. by destruct e. Qed.

Lemma reruns_counted file visits : Session.reruns file true visits = (file, true).
Proof.
  revert file. induction visits as [|v visits IH]; intros file; [done|].
  cbn [Session.reruns].
  destruct (main_counted {| csv := visit_csv v; count_file := file;
                            write := visit_write v; counted := true |}
              (visit_ui v) eq_refl) as [-> ->].
  apply IH.
Qed.

Lemma reruns_not_loaded file flag failed visits :
  Forall (λ v, match visit_csv v with Raise _ => True | Ok _ => False end) failed →
  Session.reruns file flag (failed ++ visits) = Session.reruns file flag visits.
Proof.
  induction 1 as [|v failed Hv _ IH]; [done|].
  cbn [app Session.reruns]. destruct (visit_csv v) as [|e] eqn:E; [done|].
  destruct (main_not_loaded {| csv := Raise e; count_file := file;
                               write := visit_write v; counted := flag |}
              (visit_ui v) e eq_refl) as [-> ->].
  apply IH.
Qed.

End sessions.

(** ** The detail tables and the chart *)

Section contents.
Implicit Types (filtered : DataFrame) (r alloy_data : gmap string cell).
Implicit Types (c : string) (a t : cell).

Lemma field_Ok filtered alloy_data c :
  c ∈ columns filtered →
  Content.field filtered alloy_data c = Ok (Pd.at_ alloy_data c).
Proof. intros Hc. unfold Content.field. by rewrite decide_True. Qed.

Lemma field_Ok_inv filtered alloy_data c x :
  Content.field filtered alloy_data c = Ok x →
  c ∈ columns filtered ∧ x = Pd.at_ alloy_data c.
Proof. unfold Content.field. case_decide; [by intros [= <-]|done]. Qed.

Lemma properties_Ok filtered alloy_data (table : list (string * string)) :
  Forall (λ p, p.2 ∈ columns filtered) table →
  Content.properties filtered alloy_data table
  = Ok ((λ p, (p.1, Pd.at_ alloy_data p.2)) <$> table).
Proof.
  unfold Content.properties. induction 1 as [|p table Hp _ IH]; [done|].
  cbn [Pd.mapM]. rewrite (field_Ok _ _ _ Hp). cbn [mbind result_bind].
  by rewrite IH.
Qed.

Lemma properties_Ok_inv filtered alloy_data (table : list (string * string)) l :
  Content.properties filtered alloy_data table = Ok l →
  Forall (λ p, p.2 ∈ columns filtered) table.
Proof.
  unfold Content.properties. revert l.
  induction table as [|p table IH]; intros l; [by constructor|].
  cbn [Pd.mapM].
  intros (y & (x & [Hp _]%field_Ok_inv & _)%bind_Ok
            & (ys & Hys & _)%bind_Ok)%bind_Ok.
  constructor; [done|]. by eapply IH.
Qed.

Lemma chemical_Ok filtered alloy_data :
  Forall (λ c, c ∈ columns filtered) Content.chem_cols →
  Content.chemical filtered alloy_data
  = Ok ((λ c, (Content.chem_label c, Pd.at_ alloy_data c))
        <$> Content.chem_cols).
Proof.
  intros H. unfold Content.chemical, Content.fields.
  rewrite (proj2 (filter_missing_nil _ _)) by (by apply Forall_forall).
  cbn [mbind result_bind]. by rewrite <- list_fmap_compose.
Qed.

Lemma chemical_Ok_inv filtered alloy_data l :
  Content.chemical filtered alloy_data = Ok l →
  Forall (λ c, c ∈ columns filtered) Content.chem_cols.
Proof.
  unfold Content.chemical, Content.fields.
  destruct (filter _ Content.chem_cols) eqn:E; [|done].
  intros _. apply Forall_forall. by apply filter_missing_nil.
Qed.

(** The frame behind the red points: every row of the selected pair. *)
Lemma highlight_Ok filtered a t :
  "alloy" ∈ columns filtered → "temper" ∈ columns filtered →
  a ≠ NaN → t ≠ NaN →
  Content.highlight filtered a t
  = Ok {| columns := columns filtered;
          rows := filter (Spec.matches a t) (rows filtered) |}.
Proof.
  intros Ha Ht Na Nt. unfold Content.highlight.
  rewrite (series_Ok _ _ Ha), (series_Ok _ _ Ht). cbn [mbind result_bind].
  unfold Pd.loc. by rewrite (select_matches _ _ _ Na Nt).
Qed.

(** Rows with distinct keys: at most one row has a given key. *)
Lemma filter_key_unique {A B} `{EqDecision B} (f : A → B) (k : B)
    (l : list A) y rest :
  NoDup (f <$> l) → filter (λ x, f x = k) l = y :: rest → rest = [].
Proof.
  intros Hnd E. destruct rest as [|z rest]; [done|]. exfalso.
  assert (NoDup (f <$> filter (λ x, f x = k) l)) as Hnd'.
  { eapply sublist_NoDup; [exact Hnd|]. apply fmap_sublist, sublist_filter. }
  rewrite E, !fmap_cons in Hnd'. apply NoDup_cons in Hnd' as [Hy _].
  assert (f y = k ∧ f z = k) as [Ey Ez].
  { split.
    - assert (y ∈ filter (λ x, f x = k) l) as H
        by (rewrite E; apply list_elem_of_here).
      by apply list_elem_of_filter in H as [? _].
    - assert (z ∈ filter (λ x, f x = k) l) as H
        by (rewrite E; apply list_elem_of_further, list_elem_of_here).
      by apply list_elem_of_filter in H as [? _]. }
  apply Hy. rewrite Ey, <- Ez. apply list_elem_of_here.
Qed.

(** Each axis select box returns one of the sixteen labels, and the
    label names a column of the table. *)
Lemma axis_choice index pick :
  (index < length Content.axis_labels)%nat →
  ∃ label col,
    St.selectbox (Str <$> Content.axis_labels) index pick = Some (Str label)
    ∧ Content.axis_col (Some (Str label)) = Ok col
    ∧ (label, col) ∈ Content.axis_options
    ∧ (pick = None → Content.axis_labels !! index = Some label).
Proof.
  intros Hi.
  assert (∃ label, St.selectbox (Str <$> Content.axis_labels) index pick
                   = Some (Str label)
                   ∧ label ∈ Content.axis_labels
                   ∧ (pick = None → Content.axis_labels !! index = Some label))
    as (label & E & Hl & Hd).
  { unfold St.selectbox. destruct (pick ≫= _) as [x|] eqn:Ex.
    - destruct pick as [i|]; [|done]. cbn [mbind option_bind] in Ex.
      apply list_lookup_fmap_Some in Ex as (label & -> & Hl).
      exists label. split; [done|]. split; [|done].
      by eapply list_elem_of_lookup_2.
    - destruct (lookup_lt_is_Some_2 Content.axis_labels index Hi)
        as [label Hl].
      exists label. rewrite list_lookup_fmap, Hl. split; [done|].
      split; [by eapply list_elem_of_lookup_2|done]. }
  assert (Forall (λ l, is_Some ((list_to_map Content.axis_options
                                   : gmap string string) !! l))
            Content.axis_labels) as Hall by compute_done.
  rewrite Forall_forall in Hall. destruct (Hall label Hl) as [col Hcol].
  exists label, col. split; [done|]. split.
  - unfold Content.axis_col. by rewrite Hcol.
  - split; [|done]. by apply elem_of_list_to_map_2.
Qed.

Lemma scatter_chart_Ok filtered a t pick_x pick_y :
  "alloy" ∈ columns filtered → "temper" ∈ columns filtered →
  a ≠ NaN → t ≠ NaN →
  ∃ x y,
    Content.scatter_chart filtered a t pick_x pick_y
    = Ok {| x_axis_col := x; y_axis_col := y; base_data := filtered;
            highlight_data :=
              {| columns := columns filtered;
                 rows := filter (Spec.matches a t) (rows filtered) |} |}
    ∧ x ∈ Content.axis_options.*2 ∧ y ∈ Content.axis_options.*2
    ∧ (pick_x = None → x = "elongation_percent")
    ∧ (pick_y = None → y = "tensile_strength_mpa").
Proof.
  intros Ha Ht Na Nt. unfold Content.scatter_chart.
  assert (PyStr.index "伸び (%)" Content.axis_labels = Ok 2%nat) as -> by done.
  assert (PyStr.index "引張強度 (MPa)" Content.axis_labels = Ok 0%nat) as ->
    by done.
  cbn [mbind result_bind].
  destruct (axis_choice 2 pick_x) as (lx & x & -> & Ex & Hx & Dx);
    [compute_done|].
  destruct (axis_choice 0 pick_y) as (ly & y & -> & Ey & Hy & Dy);
    [compute_done|].
  rewrite Ex, Ey. cbn [mbind result_bind].
  rewrite (highlight_Ok _ _ _ Ha Ht Na Nt).
  exists x, y. split; [done|].
  split; [by apply (list_elem_of_fmap_2 snd _ (lx, x))|].
  split; [by apply (list_elem_of_fmap_2 snd _ (ly, y))|].
  split.
  - intros Hp. specialize (Dx Hp). injection Dx as <-.
    vm_compute in Ex. by injection Ex as <-.
  - intros Hp. specialize (Dy Hp). injection Dy as <-.
    vm_compute in Ey. by injection Ey as <-.
Qed.

Lemma scatter_chart_Ok_inv filtered a t pick_x pick_y sc :
  Content.scatter_chart filtered a t pick_x pick_y = Ok sc →
  x_axis_col sc ∈ Content.axis_options.*2
  ∧ y_axis_col sc ∈ Content.axis_options.*2
  ∧ base_data sc = filtered.
Proof.
  unfold Content.scatter_chart.
  assert (PyStr.index "伸び (%)" Content.axis_labels = Ok 2%nat) as -> by done.
  assert (PyStr.index "引張強度 (MPa)" Content.axis_labels = Ok 0%nat) as ->
    by done.
  cbn [mbind result_bind].
  destruct (axis_choice 2 pick_x) as (lx & x & -> & -> & Hx & _);
    [compute_done|].
  destruct (axis_choice 0 pick_y) as (ly & y & -> & -> & Hy & _);
    [compute_done|].
  cbn [mbind result_bind]. intros (marked & _ & [= <-])%bind_Ok.
  cbn [x_axis_col y_axis_col base_data].
  split; [by apply (list_elem_of_fmap_2 snd _ (lx, x))|].
  split; [by apply (list_elem_of_fmap_2 snd _ (ly, y))|done].
Qed.

End contents.

(** ** The content of the detail view *)

Section detail.
Implicit Types (filtered df : DataFrame) (r : gmap string cell).
Implicit Types (c : string) (a t : cell).

(** The content of the detail view of a row, in a frame that has the
    twenty-one columns. *)
Lemma main_content_Ok filtered a t r pick_x pick_y :
  Forall (λ c, c ∈ columns filtered) File.required_columns →
  a ≠ NaN → t ≠ NaN →
  ∃ x y,
    Content.main_content filtered (Detail a t r) pick_x pick_y
    = Ok (Some
        {| description := Pd.at_ r "description";
           mechanical_properties :=
             (λ p, (p.1, Pd.at_ r p.2)) <$> Content.mechanical;
           physical_properties :=
             (λ p, (p.1, Pd.at_ r p.2)) <$> Content.physical;
           chem_data :=
             (λ c, (Content.chem_label c, Pd.at_ r c)) <$> Content.chem_cols;
           scatter :=
             {| x_axis_col := x; y_axis_col := y; base_data := filtered;
                highlight_data :=
                  {| columns := columns filtered;
                     rows := filter (Spec.matches a t) (rows filtered) |} |} |})
    ∧ x ∈ Content.axis_options.*2 ∧ y ∈ Content.axis_options.*2
    ∧ (pick_x = None → x = "elongation_percent")
    ∧ (pick_y = None → y = "tensile_strength_mpa").
Proof.
  intros Hcols Na Nt. rewrite Forall_forall in Hcols.
  destruct (scatter_chart_Ok filtered a t pick_x pick_y)
    as (x & y & Esc & Hx & Hy & Dx & Dy);
    [apply Hcols; compute_done|apply Hcols; compute_done|done|done|].
  exists x, y. split; [|done]. unfold Content.main_content.
  rewrite field_Ok by (apply Hcols; compute_done). cbn [mbind result_bind].
  rewrite properties_Ok.
  2:{ apply Forall_forall. intros p Hp. apply Hcols. clear -Hp.
      cases_elem Hp; compute_done. }
  cbn [mbind result_bind]. rewrite properties_Ok.
  2:{ apply Forall_forall. intros p Hp. apply Hcols. clear -Hp.
      cases_elem Hp; compute_done. }
  cbn [mbind result_bind]. rewrite chemical_Ok.
  2:{ apply Forall_forall. intros c Hc. apply Hcols. clear -Hc.
      cases_elem Hc; compute_done. }
  cbn [mbind result_bind]. by rewrite Esc.
Qed.

End detail.

(** ** The select boxes left alone *)

Section defaults.
Implicit Types (filtered : DataFrame) (r : gmap string cell).
Implicit Types (a t x y z : cell).

Lemma cell_le_text_trans (s1 s2 s3 : string) :
  cell_le (Str s1) (Str s2) → cell_le (Str s2) (Str s3) →
  cell_le (Str s1) (Str s3).
Proof.
  unfold cell_le, cell_lt, String.ltb. intros H12 H23.
  destruct (String.compare s3 s1) eqn:E31; [done| |done]. exfalso.
  apply OrderedTypeEx.String_as_OT.cmp_lt in E31.
  destruct (String.compare s2 s1) eqn:E21; [| done |].
  - apply OrderedTypeEx.String_as_OT.cmp_eq in E21 as ->.
    apply OrderedTypeEx.String_as_OT.cmp_lt in E31.
    unfold OrderedTypeEx.String_as_OT.cmp in E31. by rewrite E31 in H23.
  - rewrite String.compare_antisym in E21.
    destruct (String.compare s1 s2) eqn:E12; try done.
    apply OrderedTypeEx.String_as_OT.cmp_lt in E12.
    pose proof (OrderedTypeEx.String_as_OT.lt_trans _ _ _ E31 E12) as H.
    apply OrderedTypeEx.String_as_OT.cmp_lt in H.
    unfold OrderedTypeEx.String_as_OT.cmp in H. by rewrite H in H23.
Qed.

Lemma cell_le_refl x : cell_le x x.
Proof.
  unfold cell_le. destruct x as [|q|s]; simpl; [done| |].
  - apply bool_decide_eq_false. intros H. apply (Qclt_not_le _ _ H), Qcle_refl.
  - unfold String.ltb. destruct (String.compare s s) eqn:E; [done| |done].
    pose proof (String.compare_antisym s s) as H. by rewrite E in H.
Qed.

(** The first element of a sorted list of texts is the least. *)
Lemma Sorted_texts_head x (l : list cell) :
  Sorted cell_le (x :: l) → Forall (λ y, is_str y = true) (x :: l) →
  Forall (cell_le x) (x :: l).
Proof.
  intros Hs Ht. constructor; [apply cell_le_refl|].
  revert x Hs Ht. induction l as [|y l IH]; intros x Hs Ht; [constructor|].
  apply Sorted_inv in Hs as [Hs Hhd]. apply HdRel_inv in Hhd.
  constructor; [done|].
  apply Forall_cons_1 in Ht as [Hx Ht].
  pose proof Ht as [Hy _]%Forall_cons_1.
  eapply Forall_impl; [exact (IH y Hs Ht)|]. intros z Hz.
  destruct x as [| |s1]; [done..|]. destruct y as [| |s2]; [done..|].
  destruct z as [|q|s3].
  - done.
  - done.
  - by eapply cell_le_text_trans.
Qed.

Lemma selectbox_default x (options : list cell) :
  St.selectbox options (App.index_or_0 x options) None
  = if decide (x ∈ options) then Some x else head options.
Proof.
  unfold St.selectbox, App.index_or_0. cbn [mbind option_bind].
  destruct (list_find _ options) as [[i y]|] eqn:E.
  - apply list_find_Some in E as (E & -> & _).
    by rewrite decide_True by (by eapply list_elem_of_lookup_2).
  - rewrite list_find_None, Forall_forall in E.
    rewrite decide_False; [by rewrite head_lookup|]. intros Hx. by apply (E x).
Qed.

(** What a select box over the sorted values of a series of texts holds
    before the user picks: the preferred value when the series has it, the
    least value of the series otherwise. *)
Lemma default_choice (preferred : cell) (s : list cell) :
  s ≠ [] → Forall (λ y, is_str y = true) s →
  ∃ options x,
    sorted (Pd.unique s) = Ok options
    ∧ St.selectbox options (App.index_or_0 preferred options) None = Some x
    ∧ x ∈ s
    ∧ if decide (preferred ∈ s) then x = preferred else Forall (cell_le x) s.
Proof.
  intros Hne Hs.
  assert (Forall (λ y, is_str y = true) (Pd.unique s)) as Hu.
  { rewrite Forall_forall in Hs. apply Forall_forall. intros y Hy.
    apply Hs. by apply elem_of_unique. }
  set (options := merge_sort cell_le (Pd.unique s)).
  assert (∀ y, y ∈ options ↔ y ∈ s) as Hmem.
  { intros y. unfold options. by rewrite merge_sort_Permutation, elem_of_unique. }
  exists options. rewrite selectbox_default.
  destruct (decide (preferred ∈ options)) as [Hp|Hp].
  - exists preferred. split; [by apply sorted_texts|]. split; [done|].
    split; [by apply Hmem|]. by rewrite decide_True by (by apply Hmem).
  - destruct options as [|x0 rest] eqn:E.
    + destruct s as [|y s]; [done|]. exfalso.
      eapply elem_of_nil, Hmem, list_elem_of_here.
    + exists x0. split; [rewrite <- E; by apply sorted_texts|].
      split; [done|]. split; [apply Hmem, list_elem_of_here|].
      rewrite decide_False by (by rewrite <- Hmem).
      assert (Forall (cell_le x0) (x0 :: rest)) as Hleast.
      { apply Sorted_texts_head.
        - rewrite <- E. apply (Sorted_merge_sort cell_le).
        - rewrite <- E. unfold options.
          eapply Permutation_Forall; [|exact Hu].
          symmetry. apply merge_sort_Permutation. }
      rewrite Forall_forall in Hleast. apply Forall_forall. intros y Hy.
      by apply Hleast, Hmem.
Qed.

End defaults.

(** ** What [int] reads *)

Section literals.
Import Py.

Lemma append_cons a (s t : string) : String a s +:+ t = String a (s +:+ t).
Proof. reflexivity. Qed.

Lemma append_assoc (s1 s2 s3 : string) : (s1 +:+ s2) +:+ s3 = s1 +:+ s2 +:+ s3.
Proof.
  induction s1 as [|a s1 IH]; [done|]. rewrite !append_cons. by f_equal.
Qed.

Lemma append_empty_r (s : string) : s +:+ EmptyString = s.
Proof.
  induction s as [|a s IH]; [done|]. rewrite append_cons. by f_equal.
Qed.

Lemma digit_not_space a d : digit_of a = Some d → is_space a = false.
Proof.
  unfold digit_of, is_space. intros H.
  destruct (_ && _) eqn:E in H; [|done].
  apply andb_true_iff in E as [E1%Nat.leb_le E2%Nat.leb_le].
  apply orb_false_iff. split.
  - apply andb_false_iff. right. apply Nat.leb_gt. lia.
  - apply Nat.eqb_neq. lia.
Qed.

Lemma digit_not_sign a d :
  digit_of a = Some d → a ≠ "-"%char ∧ a ≠ "+"%char ∧ a ≠ "_"%char.
Proof. intros H. split_and!; by intros ->. Qed.

(** The parser, after the digits [s] that denote [n], goes on as after a
    digit with [n] read. *)
Lemma parse_digits_app s n :
  digits s n → ∀ t, parse_digits 0 false (s +:+ t) = parse_digits n true t.
Proof.
  induction 1 as [a d Hd|s n a d _ IH Hd|s n a d _ IH Hd]; intros t.
  - simpl. rewrite Hd. f_equal.
  - rewrite append_assoc, IH. simpl. by rewrite Hd.
  - rewrite append_assoc, IH. destruct (digit_not_sign _ _ Hd) as (_ & _ & Hu).
    simpl. by rewrite Hd.
Qed.

Lemma parse_digits_sound s n : digits s n → parse_digits 0 false s = Some n.
Proof.
  intros H. rewrite <- (append_empty_r s). by rewrite (parse_digits_app _ _ H).
Qed.

Lemma parse_digits_complete_from s n :
  ∀ p acc, digits p acc →
    (parse_digits acc true s = Some n → digits (p +:+ s) n)
    ∧ (parse_digits acc false s = Some n →
       digits (p +:+ String "_" s) n).
Proof.
  induction s as [|a s IH]; intros p acc Hp; simpl.
  - split; [|done]. intros [= <-]. by rewrite append_empty_r.
  - destruct (digit_of a) as [d|] eqn:Hd.
    + split; intros H.
      * pose proof (digits_next _ _ _ _ Hp Hd) as Hp'.
        apply (IH _ _ Hp') in H. by rewrite append_assoc in H.
      * pose proof (digits_underscore _ _ _ _ Hp Hd) as Hp'.
        apply (IH _ _ Hp') in H. by rewrite append_assoc in H.
    + split; [|by rewrite andb_false_r].
      rewrite andb_true_r. destruct (Ascii.eqb a "_") eqn:E; [|done].
      apply Ascii.eqb_eq in E as ->. intros H.
      by apply (IH _ _ Hp) in H.
Qed.

Lemma parse_digits_complete s n : parse_digits 0 false s = Some n → digits s n.
Proof.
  destruct s as [|a s]; [done|]. simpl.
  destruct (digit_of a) as [d|] eqn:Hd; [|by rewrite andb_false_r].
  replace (10 * 0 + d) with d by lia. intros H.
  by apply (parse_digits_complete_from s n (String a EmptyString) d
              (digits_first _ _ Hd)) in H.
Qed.

Lemma digits_no_space s n : digits s n → no_space s.
Proof.
  assert (∀ s t, no_space s → no_space t → no_space (s +:+ t)) as Happ.
  { intros s1 t. induction s1 as [|a s1 IH]; simpl; [done|].
    intros [? ?] ?. auto. }
  induction 1 as [a d Hd|s n a d _ IH Hd|s n a d _ IH Hd].
  - simpl. split; [by eapply digit_not_space|done].
  - apply Happ; [done|]. simpl. split; [by eapply digit_not_space|done].
  - apply Happ; [done|]. simpl. split; [done|].
    split; [by eapply digit_not_space|done].
Qed.

Lemma digits_head s n :
  digits s n → ∃ a d s', s = String a s' ∧ digit_of a = Some d.
Proof.
  induction 1 as [a d Hd|s n a d _ (a0 & d0 & s0 & -> & H0) Hd
                  |s n a d _ (a0 & d0 & s0 & -> & H0) Hd]; simpl; eauto.
Qed.

(** A text and what is left of it once stripped. *)
Lemma rstrip_decompose t : ∃ post, blank post ∧ t = rstrip t +:+ post.
Proof.
  induction t as [|a t (post & Hpost & E)]; [by exists EmptyString|].
  cbn [rstrip]. destruct (rstrip t) as [|b u] eqn:Et.
  - change (t = post) in E. subst t. destruct (is_space a) eqn:Ea.
    + by exists (String a post).
    + by exists post.
  - exists post. split; [done|]. rewrite append_cons. by f_equal.
Qed.

Lemma strip_decompose s :
  ∃ pre post, blank pre ∧ blank post ∧ s = pre +:+ strip s +:+ post.
Proof.
  unfold strip. induction s as [|a s (pre & post & Hpre & Hpost & E)].
  - by exists EmptyString, EmptyString.
  - cbn [lstrip]. destruct (is_space a) eqn:Ea.
    + exists (String a pre), post. split; [done|]. split; [done|].
      rewrite append_cons. by f_equal.
    + destruct (rstrip_decompose (String a s)) as (post' & Hpost' & E').
      by exists EmptyString, post'.
Qed.

Lemma strip_surrounded pre core post :
  blank pre → blank post → no_space core →
  strip (pre +:+ core +:+ post) = core.
Proof.
  intros Hpre Hpost Hcore. unfold strip. rewrite (lstrip_blank _ _ Hpre).
  fold (strip (core +:+ post)). rewrite (strip_app_blank _ _ Hpost).
  by apply strip_no_space.
Qed.

(** The parser reads exactly the literals. *)
Lemma int_of_string_literal s n : int_of_string s = Some n ↔ literal s n.
Proof.
  split.
  - unfold int_of_string. intros H.
    destruct (strip_decompose s) as (pre & post & Hpre & Hpost & E).
    rewrite E. clear E. destruct (strip s) as [|a core]; [done|].
    destruct (decide (a = "-"%char)) as [->|Hm].
    { destruct (parse_digits 0 false core) as [m|] eqn:Em; [|done].
      injection H as <-. apply parse_digits_complete in Em.
      by apply literal_minus. }
    destruct (decide (a = "+"%char)) as [->|Hp].
    { apply parse_digits_complete in H. by apply literal_plus. }
    assert (parse_digits 0 false (String a core) = Some n) as H'.
    { revert H. destruct a as [[] [] [] [] [] [] [] []]; try done. }
    apply parse_digits_complete in H'. by apply literal_unsigned.
  - unfold int_of_string.
    intros [pre body post m Hpre Hpost Hd|pre body post m Hpre Hpost Hd
            |pre body post m Hpre Hpost Hd].
    + rewrite (strip_surrounded _ _ _ Hpre Hpost (digits_no_space _ _ Hd)).
      destruct (digits_head _ _ Hd) as (a & d & s' & -> & Ha).
      destruct (digit_not_sign _ _ Ha) as (Hm & Hp & _).
      rewrite <- (parse_digits_sound _ _ Hd).
      revert Hm Hp. destruct a as [[] [] [] [] [] [] [] []]; done.
    + change (pre +:+ String "+" body +:+ post)
        with (pre +:+ (String "+" body) +:+ post).
      rewrite strip_surrounded; [by apply parse_digits_sound|done|done|].
      split; [done|]. by eapply digits_no_space.
    + change (pre +:+ String "-" body +:+ post)
        with (pre +:+ (String "-" body) +:+ post).
      rewrite strip_surrounded; [|done|done|].
      * by rewrite (parse_digits_sound _ _ Hd).
      * split; [done|]. by eapply digits_no_space.
Qed.

End literals.

(** ** The bounds a slider accepts *)

Section accepted_bounds.
Implicit Types (df : DataFrame) (r : gmap string cell) (c : string).

Lemma slider_bounds_accepted (s : list cell) lo hi :
  App.slider_bounds s = Ok (lo, hi) → Forall File.in_slider_range s →
  St.accepts lo hi.
Proof.
  intros (qs & m & M & Hqs & Hm & HM & Hb & -> & ->)%slider_bounds_Ok_inv Hs.
  rewrite Forall_forall in Hs.
  assert (∀ q, q ∈ qs → - St.max_safe_integer ≤ Py.trunc q
                        ∧ Py.trunc q ≤ St.max_safe_integer - 1) as Hin.
  { intros q Hq. apply (numbers_elem_of _ _ Hqs) in Hq.
    destruct (Hs _ Hq) as [H1 H2]. split.
    - rewrite <- (trunc_Qc_of_Z (- St.max_safe_integer)). by apply trunc_mono.
    - rewrite <- (trunc_Qc_of_Z (St.max_safe_integer - 1)). by apply trunc_mono. }
  destruct (Hin m Hm), (Hin M HM). unfold St.accepts.
  case_decide; lia.
Qed.

Lemma range_slider_accepted df c range :
  App.range_slider df c None = Ok range →
  Forall (λ r, File.in_slider_range (Pd.at_ r c)) (rows df) →
  St.accepts range.1 range.2.
Proof.
  destruct range as [lo hi]. intros [_ H]%range_slider_Ok_inv Hs.
  apply (slider_bounds_accepted _ _ _ H). by apply Forall_fmap.
Qed.

Lemma filter_widgets_accepted df fs0 :
  App.filter_widgets df no_picks = Ok fs0 →
  Forall (λ r, Forall (λ c, File.in_slider_range (Pd.at_ r c))
                 Spec.range_columns) (rows df) →
  File.accepted fs0.
Proof.
  intros (o & _ & _ & _ & E1 & E2 & E3 & E4 & E5)%filter_widgets_Ok_inv Hs.
  assert (∀ c, c ∈ Spec.range_columns →
            Forall (λ r, File.in_slider_range (Pd.at_ r c)) (rows df)) as Hc.
  { intros c Hc. eapply Forall_impl; [exact Hs|]. intros r Hr.
    rewrite Forall_forall in Hr. by apply Hr. }
  unfold File.accepted.
  repeat constructor;
    eapply range_slider_accepted; try eassumption; apply Hc; compute_done.
Qed.

Lemma cleaned_in_slider_range df :
  Forall (λ r, Forall (λ c, File.in_slider_range (Pd.at_ r c))
                 Spec.range_columns) (rows df) →
  Forall (λ r, Forall (λ c, File.in_slider_range (Pd.at_ r c))
                 Spec.range_columns) (rows (File.cleaned df)).
Proof.
  intros H. unfold File.cleaned. cbn [rows]. apply Forall_fmap.
  eapply Forall_impl; [exact H|]. intros r Hr. unfold compose; cbv beta.
  rewrite Forall_forall in Hr. apply Forall_forall. intros c Hc.
  specialize (Hr c Hc). unfold Pd.at_ in *. rewrite clean_row_lookup.
  destruct (decide (c ∈ App.cols_to_fill)).
  - destruct (r !! c) as [[| |]|]; simpl in *; first [done|compute_done].
  - rewrite decide_False; [done|]. intros ->. revert Hc. compute_done.
Qed.

Lemma well_formed_in_slider_range df :
  File.well_formed df →
  Forall (λ r, Forall (λ c, File.in_slider_range (Pd.at_ r c))
                 Spec.range_columns) (rows df).
Proof.
  intros (_ & _ & Hrows & _). eapply Forall_impl; [exact Hrows|].
  by intros r (_ & _ & _ & _ & _ & ?).
Qed.

(** A row is retained when its corrosion class is selected and each of
    the five columns lies within its range. *)
Lemma retained_range_of fs r :
  Spec.retained fs r
  ↔ Pd.at_ r "corrosion_resistance" ∈ selected_corrosion fs
    ∧ Forall (λ c, Spec.within (Pd.at_ r c) (Spec.range_of fs c))
        Spec.range_columns.
Proof.
  unfold Spec.retained, Spec.range_columns.
  rewrite !Forall_cons, Forall_nil. unfold Spec.range_of. simpl. tauto.
Qed.

End accepted_bounds.

(** ** The sliders of a well-formed file *)

(** The bounds of the five sliders of a well-formed file are bounds
    Streamlit accepts. *)
Lemma well_formed_accepted (df : DataFrame) :
  File.well_formed df →
  ∃ fs0, App.filter_widgets (File.cleaned df) no_picks = Ok fs0
         ∧ File.accepted fs0.
Proof.
  intros Hwf.
  destruct (filter_widgets_Ok (File.cleaned df) (cleaned_filterable df Hwf)
              (cleaned_corrosion_text df Hwf) (cleaned_numbers df Hwf))
    as [fs0 E0].
  exists fs0. split; [exact E0|].
  apply (filter_widgets_accepted _ _ E0), cleaned_in_slider_range.
  by apply well_formed_in_slider_range.
Qed.

(** * The claims *)

(** C1.  The code does not do what C1 says.  The bounds of a slider are
    the minimum and the maximum of the column passed through [int], which
    drops the fraction, so the full span of a slider ends below the
    maximum of a column whose maximum is not a whole number, and the row
    that has it is dropped.  On the two rows of [Data.fractional], A5052-H32
    and A6061-T6 with the elongations 12.5 and 10, the file loads without
    an error, the column maximum is 12.5, the slider left alone spans
    10..12, and with every category selected and every slider at its full
    span the filter keeps A6061-T6 only; [main] run on the file shows
    A6061-T6, the preferred A5052 being filtered out. *)
Lemma full_span_drops_fractional_row :
  App.load_alloy_data "aluminum_data_v2.csv" (Ok Data.fractional_raw)
  = (Data.fractional, [])
  ∧ (s ← Pd.series Data.fractional "elongation_percent"; Pd.max s)
    = Ok (Data.dec 25 2)
  ∧ App.filter_widgets Data.fractional no_picks
    = Ok {| selected_corrosion := [Str "-"; Str "B"];
            tensile_range := (230, 310); yield_range := (195, 275);
            elongation_range := (10, 12); thermal_cond_range := (138, 167);
            elec_cond_range := (35, 43) |}
  ∧ (fs ← App.filter_widgets Data.fractional no_picks;
     App.apply_filter Data.fractional fs)
    = Ok {| columns := Data.header; rows := [Data.a6061_t6] |}
  ∧ run_page (App.main (Data.first_visit Data.fractional_raw) no_picks)
    = Ok (Some {| visitor_count := 42;
                  filtered_df :=
                    {| columns := Data.header; rows := [Data.a6061_t6] |};
                  shown := Detail (Str "A6061") (Str "T6") Data.a6061_t6 |}).
Proof. compute_done. Qed.

(** C2.  On a frame the filter can run on, the filtered frame holds
    exactly the rows for which the six predicates hold, in the order of
    the frame. *)
Theorem filter_keeps_exactly_the_retained_rows
    (df : DataFrame) (fs : FilterState) :
  Spec.filterable df →
  ∃ out, App.apply_filter df fs = Ok out
    ∧ columns out = columns df
    ∧ rows out = filter (Spec.retained fs) (rows df)
    ∧ (∀ r, r ∈ rows out ↔ r ∈ rows df ∧ Spec.retained fs r)
    ∧ rows out `sublist_of` rows df.
Proof.
  intros Hdf. eexists. split; [by apply apply_filter_Ok|]. cbn [columns rows].
  split; [done|]. split; [done|]. split.
  - intros r. rewrite list_elem_of_filter. tauto.
  - apply sublist_filter.
Qed.

Lemma filter_keeps_exactly_the_retained_rows_witness :
  ∃ out, App.apply_filter Data.two_rows Data.narrow_tensile = Ok out
         ∧ rows out = [Data.a6061_t6].
Proof.
  destruct (filter_keeps_exactly_the_retained_rows Data.two_rows
              Data.narrow_tensile ltac:(compute_done))
    as (out & H1 & _ & H3 & _).
  exists out. split; [exact H1|]. rewrite H3. compute_done.
Defined.

(** C3 (amended).  On a filtered frame with the two identifier columns:
    without rows the resolver shows the no-match warning and resolves
    nothing (no [IndexError]); with rows whose alloy and temper are all
    texts, none missing or empty, it returns the first row that has the
    alloy and the temper the select boxes return, and for any such pair
    that some row has, the resolution returns the first row that has it;
    and a row it returns is always a row of the filtered frame. *)
Theorem selection_resolves_first_match (filtered : DataFrame) (ui : picks) :
  "alloy" ∈ columns filtered → "temper" ∈ columns filtered →
  (rows filtered = [] →
     App.select_widgets filtered ui = Ok ([], None, None)
     ∧ App.selection filtered ui = Ok NoAlloyWarning)
  ∧ (rows filtered ≠ [] → Spec.text_identifiers filtered →
     ∃ alloy_list a t r,
       App.select_widgets filtered ui = Ok (alloy_list, Some a, Some t)
       ∧ App.selection filtered ui = Ok (Detail a t r)
       ∧ Spec.first_match a t (rows filtered) r)
  ∧ (∀ alloy_list a t,
       Spec.nonempty_text a → Spec.nonempty_text t →
       (∃ r, r ∈ rows filtered ∧ Spec.matches a t r) →
       ∃ r, App.resolve filtered alloy_list (Some a) (Some t)
            = Ok (Detail a t r)
            ∧ Spec.first_match a t (rows filtered) r)
  ∧ (∀ a t r, App.selection filtered ui = Ok (Detail a t r) →
              r ∈ rows filtered).
Proof.
  intros Ha Ht. split_and!.
  - intros Hr. pose proof (select_widgets_empty filtered ui Ha Hr) as E.
    split; [done|]. unfold App.selection. by rewrite E.
  - intros Hne Htxt.
    destruct (select_widgets_text filtered ui Ha Ht Hne Htxt)
      as (alloy_list & s1 & s2 & E & N1 & N2 & Hm).
    destruct (resolve_first filtered alloy_list (Str s1) (Str s2))
      as (r & Er & Hfirst); try done.
    { simpl. by rewrite bool_decide_true. }
    { simpl. by rewrite bool_decide_true. }
    exists alloy_list, (Str s1), (Str s2), r.
    split; [done|]. split; [|done]. unfold App.selection. by rewrite E.
  - intros alloy_list a t Na Nt Hm.
    destruct a as [| |s1]; [done..|]. destruct t as [| |s2]; [done..|].
    simpl in Na, Nt. apply resolve_first; try done.
    + simpl. by rewrite bool_decide_true.
    + simpl. by rewrite bool_decide_true.
  - intros a t r. apply selection_Detail_in.
Qed.

Lemma selection_resolves_first_match_witness :
  App.selection Data.two_rows no_picks
  = Ok (Detail (Str "A5052") (Str "H32") (Data.a5052_h32 (Data.int 12)))
  ∧ Data.a5052_h32 (Data.int 12) ∈ rows Data.two_rows.
Proof.
  destruct (selection_resolves_first_match Data.two_rows no_picks
              ltac:(compute_done) ltac:(compute_done)) as (_ & _ & _ & H).
  assert (App.selection Data.two_rows no_picks
          = Ok (Detail (Str "A5052") (Str "H32") (Data.a5052_h32 (Data.int 12))))
    as E by compute_done.
  split; [exact E|]. exact (H _ _ _ E).
Defined.

(** C3 as stated fails on a frame that has rows: the loader does not clean
    the identifiers, so a row whose temper field is empty in the file
    reaches the filtered frame with a missing temper; the temper select
    box returns the missing value, no row equals it, and the resolution
    raises [IndexError] instead of returning a row. *)
Lemma selection_raises_on_missing_temper :
  App.load_alloy_data "aluminum_data_v2.csv" (Ok Data.missing_temper)
  = (Data.missing_temper, [])
  ∧ (fs ← App.filter_widgets Data.missing_temper no_picks;
     App.apply_filter Data.missing_temper fs) = Ok Data.missing_temper
  ∧ rows Data.missing_temper ≠ []
  ∧ App.select_widgets Data.missing_temper no_picks
    = Ok ([Str "ADC12"], Some (Str "ADC12"), Some NaN)
  ∧ App.selection Data.missing_temper no_picks = Raise IndexError
  ∧ run_page (App.main (Data.first_visit Data.missing_temper) no_picks)
    = Raise IndexError.
Proof. split_and!; [compute_done|compute_done|done|compute_done..]. Qed.

(** C4.  In a frame the filter can run on, when the minimum of a column
    filtered by a range equals its maximum, a number [v] that is not
    negative and within what a slider accepts: the bounds of the slider
    are [int(v)] and [int(v) + 1] (the lower one as it is, the upper one
    moved up by one), Streamlit accepts them, and the slider left alone
    returns them; the comparison of the filter is made on the value of the
    row itself, whatever the range; under the range of the slider the rows
    whose value is [v] pass it, and they are the only ones (a missing
    value passes no range); so the filter, under a state that has this
    range for the column, keeps exactly the rows with the value [v] that
    pass its other predicates. *)
Theorem constant_column_passes (df : DataFrame) (c : string) (v : Qc) :
  Spec.filterable df → c ∈ Spec.range_columns →
  (s ← Pd.series df c; Pd.min s) = Ok (Num v) →
  (s ← Pd.series df c; Pd.max s) = Ok (Num v) →
  (Qc_of_Z 0 ≤ v)%Qc → (v ≤ Qc_of_Z (St.max_safe_integer - 1))%Qc →
  (s ← Pd.series df c; App.slider_bounds s) = Ok (Py.trunc v, Py.trunc v + 1)
  ∧ St.accepts (Py.trunc v) (Py.trunc v + 1)
  ∧ App.range_slider df c None = Ok (Py.trunc v, Py.trunc v + 1)
  ∧ (∀ range, App.between_column df c range
              = Ok ((λ r, bool_decide (Spec.within (Pd.at_ r c) range))
                    <$> rows df))
  ∧ App.between_column df c (Py.trunc v, Py.trunc v + 1)
    = Ok ((λ r, bool_decide (Pd.at_ r c = Num v)) <$> rows df)
  ∧ (∃ r, r ∈ rows df ∧ Pd.at_ r c = Num v)
  ∧ ∀ fs, Spec.range_of fs c = (Py.trunc v, Py.trunc v + 1) →
      ∃ out, App.apply_filter df fs = Ok out
        ∧ ∀ r, r ∈ rows out
               ↔ r ∈ rows df
                 ∧ Pd.at_ r c = Num v
                 ∧ Pd.at_ r "corrosion_resistance" ∈ selected_corrosion fs
                 ∧ Forall (λ c', c' = c
                                 ∨ Spec.within (Pd.at_ r c') (Spec.range_of fs c'))
                     Spec.range_columns.
Proof.
  intros Hdf Hc Hmin Hmax Hv0 HvM.
  destruct (filterable_column df c Hdf Hc) as [Hcol Hstr].
  rewrite (series_Ok _ _ Hcol) in Hmin, Hmax.
  cbn [mbind result_bind] in Hmin, Hmax.
  set (s := (λ r, Pd.at_ r c) <$> rows df) in *.
  assert (∃ qs, Pd.numbers s = Ok qs ∧ qs ≠ [] ∧ ∀ q, q ∈ qs → q = v)
    as (qs & Hqs & Hqs_ne & Hall).
  { unfold Pd.min in Hmin. unfold Pd.max in Hmax.
    apply bind_Ok in Hmin as (qs & Hqs & Em).
    rewrite Hqs in Hmax. cbn [mbind result_bind] in Hmax.
    exists qs. split; [done|]. destruct qs as [|q0 qs]; [done|].
    split; [done|]. injection Em as Em. injection Hmax as EM.
    destruct (foldr_qmin q0 qs) as [_ Hlo].
    destruct (foldr_qmax q0 qs) as [_ Hhi].
    rewrite Em in Hlo. rewrite EM in Hhi.
    intros q Hq. apply Qcle_antisym; auto. }
  assert (∀ r, r ∈ rows df → Pd.at_ r c = NaN ∨ Pd.at_ r c = Num v) as Hcell.
  { intros r Hr. rewrite Forall_forall in Hstr. specialize (Hstr r Hr).
    destruct (Pd.at_ r c) as [|q|t] eqn:E; [by left| |done]. right.
    f_equal. apply Hall, (numbers_elem_of _ _ Hqs). rewrite <- E.
    by apply (list_elem_of_fmap_2 (λ r, Pd.at_ r c)). }
  assert (App.slider_bounds s = Ok (Py.trunc v, Py.trunc v + 1)) as Eb.
  { destruct (slider_bounds_numbers s qs Hqs Hqs_ne)
      as (m & M & Hm & HM & _ & ->).
    by rewrite (Hall m Hm), (Hall M HM), decide_True. }
  assert (Spec.within (Num v) (Py.trunc v, Py.trunc v + 1)) as Hw.
  { split; cbn [fst snd]; [by apply trunc_le|apply le_trunc_succ]. }
  assert (∀ r, r ∈ rows df →
            Spec.within (Pd.at_ r c) (Py.trunc v, Py.trunc v + 1)
            ↔ Pd.at_ r c = Num v) as Hiff.
  { intros r Hr. destruct (Hcell r Hr) as [->| ->]; [|done].
    split; [done|]. by intros [=]. }
  split_and!.
  - rewrite (series_Ok _ _ Hcol). exact Eb.
  - assert (0 ≤ Py.trunc v) as H0.
    { rewrite <- (trunc_Qc_of_Z 0). by apply trunc_mono. }
    assert (Py.trunc v ≤ St.max_safe_integer - 1) as HM.
    { rewrite <- (trunc_Qc_of_Z (St.max_safe_integer - 1)). by apply trunc_mono. }
    unfold St.accepts. unfold St.max_safe_integer in *. cbn [fst snd]. lia.
  - rewrite range_slider_no_pick, (series_Ok _ _ Hcol). exact Eb.
  - intros range. by apply between_column_Ok.
  - rewrite (between_column_Ok _ _ _ Hdf Hc). f_equal.
    apply list_fmap_ext. intros _ r Hr%list_elem_of_lookup_2.
    apply bool_decide_ext. by apply Hiff.
  - destruct qs as [|q0 qs]; [done|].
    assert (Num q0 ∈ s) as Hq0.
    { apply (numbers_elem_of _ _ Hqs), list_elem_of_here. }
    apply list_elem_of_fmap in Hq0 as (r & E & Hr). exists r.
    split; [done|]. rewrite <- E. f_equal. apply Hall, list_elem_of_here.
  - intros fs Hfs. eexists. split; [by apply apply_filter_Ok|]. cbn [rows].
    intros r. rewrite list_elem_of_filter, retained_range_of. split.
    + intros [[Hcorr Hr] Hin]. split; [done|]. split.
      { apply (Hiff r Hin). rewrite <- Hfs.
        rewrite Forall_forall in Hr. by apply Hr. }
      split; [done|].
      eapply Forall_impl; [exact Hr|]. intros c' ?. by right.
    + intros (Hin & Ev & Hcorr & Hr). split; [|done]. split; [done|].
      rewrite Forall_forall in Hr. apply Forall_forall. intros c' Hc'.
      destruct (Hr c' Hc') as [->|?]; [|done].
      rewrite Hfs. by apply (Hiff r Hin).
Qed.

Lemma constant_column_passes_witness :
  App.range_slider Sample.constant_tensile "tensile_strength_mpa" None
  = Ok (200, 201)
  ∧ App.between_column Sample.constant_tensile "tensile_strength_mpa" (200, 201)
    = Ok [true; true].
Proof.
  destruct (constant_column_passes Sample.constant_tensile
              "tensile_strength_mpa" (Qc_of_Z 200) ltac:(compute_done)
              ltac:(compute_done) ltac:(compute_done) ltac:(compute_done)
              ltac:(compute_done) ltac:(compute_done))
    as (_ & _ & H1 & _ & H2 & _).
  split; [exact H1|exact H2].
Defined.

(** The bound on the sign in C4 is needed: in a column whose every value
    is -1/2, [int] moves the minimum up to 0, the slider spans 0 to 1, and
    no row passes that range. *)
Lemma constant_negative_fraction_fails :
  Pd.min [Data.dec (-1) 2] = Ok (Data.dec (-1) 2)
  ∧ Pd.max [Data.dec (-1) 2] = Ok (Data.dec (-1) 2)
  ∧ App.slider_bounds [Data.dec (-1) 2] = Ok (0, 1)
  ∧ Pd.between 0 1 [Data.dec (-1) 2] = Ok [false].
Proof. compute_done. Qed.

(** C5.  An absent file is reported as [DatasetNotFound], any other
    failure of the read or of the cleaning as [DatasetLoadError] with its
    cause; the loader then returns the empty frame, on which [main] returns
    at once: nothing is raised, the counter is not touched and no page is
    built. *)
Theorem load_failure_signals :
  (∀ path, App.load_alloy_data path (Raise FileNotFoundError)
           = (Pd.empty_frame, [DatasetNotFound path]))
  ∧ (∀ path e, e ≠ FileNotFoundError →
       App.load_alloy_data path (Raise e)
       = (Pd.empty_frame, [DatasetLoadError e]))
  ∧ (∀ path df, ¬ Forall (λ c, c ∈ columns df) App.cols_to_fill →
       ∃ e, App.load_alloy_data path (Ok df)
            = (Pd.empty_frame, [DatasetLoadError e]))
  ∧ Pd.empty Pd.empty_frame = true
  ∧ (∀ w ui e, csv w = Raise e →
       App.main w ui
       = {| run_count_file := count_file w; run_counted := counted w;
            run_errors := [ if decide (e = FileNotFoundError)
                            then DatasetNotFound "aluminum_data_v2.csv"
                            else DatasetLoadError e ];
            run_page := Ok None |}).
Proof.
  split_and!; [done|by intros path []| |done|].
  - intros path df Hn. eexists. apply load_missing_column.
    by rewrite <- Forall_forall.
  - intros w ui e He. unfold App.main. rewrite He. by destruct e.
Qed.

(** C6.  After a successful load every cell of the twelve numeric columns
    is the cell of the file with a missing value replaced by 0, so none is
    missing; the corrosion class, when the file has the column, is the one
    of the file with a missing value replaced by "-"; the aluminum
    remainder, like every other column, is as in the file. *)
Theorem load_fill_invariant
    (path : string) (read : result DataFrame) (df' : DataFrame) :
  App.load_alloy_data path read = (df', []) →
  ∃ df, read = Ok df
    ∧ columns df' = columns df
    ∧ Forall2 (λ r r' : gmap string cell,
         (∀ c, c ∈ App.cols_to_fill →
               r' !! c = Pd.fillna (Num (Qc_of_Z 0)) <$> r !! c
               ∧ r' !! c ≠ Some NaN)
         ∧ ("corrosion_resistance" ∈ columns df →
               r' !! "corrosion_resistance"
               = Pd.fillna (Str "-") <$> r !! "corrosion_resistance"
               ∧ r' !! "corrosion_resistance" ≠ Some NaN)
         ∧ r' !! "Al_percent" = r !! "Al_percent"
         ∧ (∀ c, c ∉ App.cols_to_fill → c ≠ "corrosion_resistance" →
                 r' !! c = r !! c))
       (rows df) (rows df')
    ∧ (Pd.rectangular df →
       Forall (λ r', ∀ c, c ∈ App.cols_to_fill → Pd.at_ r' c ≠ NaN) (rows df')).
Proof.
  intros H. destruct (load_success_inv _ _ _ H) as (df & -> & Hcols).
  rewrite (load_Ok _ _ Hcols) in H. injection H as <-.
  exists df. split; [done|]. split; [done|]. cbn [rows]. split.
  - apply Forall2_fmap_r, Forall_Forall2_diag, Forall_forall. intros r _.
    unfold compose. cbv beta.
    split; [by apply clean_row_filled|]. split; [|split].
    + intros Hc. rewrite clean_row_lookup, decide_False by compute_done.
      rewrite decide_True by done. rewrite bool_decide_true by done.
      split; [done|]. by destruct (r !! _) as [[]|].
    + rewrite clean_row_lookup, decide_False by compute_done.
      by rewrite decide_False by done.
    + intros c Hc Hne. rewrite clean_row_lookup.
      by rewrite !decide_False by done.
  - intros Hrect. apply Forall_fmap, Forall_forall. intros r Hr c Hc. simpl.
    unfold Pd.rectangular in Hrect. rewrite Forall_forall in Hrect.
    destruct (clean_row_filled
                (bool_decide ("corrosion_resistance" ∈ columns df)) r c Hc)
      as [E Hn].
    destruct (proj2 (Hrect r Hr c) (Hcols c Hc)) as [x Hx].
    unfold Pd.at_. rewrite E, Hx. simpl. by destruct x.
Qed.

Lemma load_fill_invariant_witness :
  App.load_alloy_data "aluminum_data_v2.csv" (Ok Data.two_rows_raw)
  = (Data.two_rows, [])
  ∧ columns Data.two_rows = Data.header.
Proof.
  assert (App.load_alloy_data "aluminum_data_v2.csv" (Ok Data.two_rows_raw)
          = (Data.two_rows, [])) as E by compute_done.
  destruct (load_fill_invariant _ _ _ E) as (df & [= <-] & Hc & _).
  split; [exact E|exact Hc].
Defined.

(** C7.  The read returns 0 when the file is absent; for a content in
    ASCII and within the limit on the length of a literal, it returns the
    integer the content denotes when the content is a literal of [int]
    (white space, an optional sign, decimal digits with single underscores
    between them, white space), the number [n] for the text [str(n)] the
    increment writes, and 0 when the content is no literal; it is a total
    function of the state of the file, so nothing is raised.  The control
    characters FS..US are no white space for [int]. *)
Theorem get_visitor_count_reads :
  App.get_visitor_count None = 0
  ∧ (∀ n, (String.length (Py.str n) ≤ Py.max_str_digits)%nat →
          App.get_visitor_count (Some (Py.str n)) = n)
  ∧ (∀ content,
       Py.ascii_text content →
       (String.length content ≤ Py.max_str_digits)%nat →
       (∀ n, Py.literal content n → App.get_visitor_count (Some content) = n)
       ∧ ((∀ n, ¬ Py.literal content n) →
          App.get_visitor_count (Some content) = 0))
  ∧ App.get_visitor_count (Some "") = 0
  ∧ App.get_visitor_count (Some "12a") = 0
  ∧ App.get_visitor_count (Some "4.0") = 0
  ∧ App.get_visitor_count (Some "4 2") = 0
  ∧ App.get_visitor_count (Some (String "028" "42")) = 0
  ∧ App.get_visitor_count (Some (String "052" (String "050" (String "010" ""))))
    = 42.
Proof.
  split_and!; [done|intros n _; apply get_visitor_count_str| |done..].
  intros content _ _. unfold App.get_visitor_count. split.
  - intros n Hn. by rewrite (proj2 (int_of_string_literal content n) Hn).
  - intros Hn. destruct (Py.int_of_string content) as [n|] eqn:E; [|done].
    by apply int_of_string_literal, Hn in E.
Qed.

Lemma get_visitor_count_reads_witness :
  App.get_visitor_count (Some "-7") = -7
  ∧ App.get_visitor_count (Some "1_000") = 1000
  ∧ App.get_visitor_count (Some "1__0") = 0.
Proof.
  destruct get_visitor_count_reads as (_ & H1 & H2 & _).
  split; [exact (H1 (-7) ltac:(compute_done))|].
  split.
  - apply (H2 "1_000" ltac:(compute_done) ltac:(compute_done)).
    apply int_of_string_literal. compute_done.
  - apply (H2 "1__0" ltac:(compute_done) ltac:(compute_done)).
    intros n Hn%int_of_string_literal. revert Hn. compute_done.
Defined.

(** C8.  An increment whose write succeeds leaves the text of [read() + 1]
    in the file, so the next read gives one more; [N] such increments in a
    row leave the stored value [N] above the initial one. *)
Theorem increment_visitor_count_adds :
  (∀ f, App.increment_visitor_count WriteOk f
        = (Some (Py.str (App.get_visitor_count f + 1)), []))
  ∧ (∀ f, App.get_visitor_count (fst (App.increment_visitor_count WriteOk f))
          = App.get_visitor_count f + 1)
  ∧ (∀ N f, App.get_visitor_count (App.increment_times N f)
            = App.get_visitor_count f + Z.of_nat N)
  ∧ (∀ N init, App.increment_times N (Some (Py.str init))
               = Some (Py.str (init + Z.of_nat N))).
Proof.
  split_and!; [done|intros f; apply get_visitor_count_str| |].
  - intros N f. rewrite increment_times_str. destruct N as [|N]; [lia|].
    apply get_visitor_count_str.
  - intros N init. rewrite increment_times_str, get_visitor_count_str.
    destruct N as [|N]; [|done]. do 2 f_equal. lia.
Qed.

(** C9.  On a frame the filter can run on, a filter state with narrower
    ranges or fewer categories keeps a sublist of the rows, hence no more
    rows. *)
Theorem filter_monotone (df : DataFrame) (fs' fs : FilterState) :
  Spec.filterable df → Spec.narrower fs' fs →
  ∃ out' out, App.apply_filter df fs' = Ok out'
    ∧ App.apply_filter df fs = Ok out
    ∧ rows out' `sublist_of` rows out
    ∧ (length (rows out') ≤ length (rows out))%nat.
Proof.
  intros Hdf Hfs. do 2 eexists.
  split; [by apply apply_filter_Ok|]. split; [by apply apply_filter_Ok|].
  cbn [rows].
  assert (filter (Spec.retained fs') (rows df)
          `sublist_of` filter (Spec.retained fs) (rows df)) as Hsub.
  { apply filter_impl_sublist. intros r. by apply retained_narrower. }
  split; [done|]. by apply sublist_length.
Qed.

Lemma filter_monotone_witness :
  ∃ out' out,
    App.apply_filter Data.two_rows Data.narrow_tensile = Ok out'
    ∧ App.apply_filter Data.two_rows Data.full_span = Ok out
    ∧ (length (rows out') ≤ length (rows out))%nat.
Proof.
  destruct (filter_monotone Data.two_rows Data.narrow_tensile Data.full_span
              ltac:(compute_done) ltac:(compute_done))
    as (out' & out & H1 & H2 & _ & H4).
  exists out', out. split; [exact H1|]. split; [exact H2|exact H4].
Defined.

(** C10.  A parsed file with the twelve numeric columns and without the
    column of the corrosion class loads without any error being reported:
    the frame returned is the file with the twelve columns filled, it has
    no corrosion column and no "-" is written into any row. *)
Theorem load_without_corrosion_column (path : string) (df : DataFrame) :
  Forall (λ c, c ∈ columns df) App.cols_to_fill →
  "corrosion_resistance" ∉ columns df →
  App.load_alloy_data path (Ok df)
  = ({| columns := columns df;
        rows := Pd.fillna_row App.cols_to_fill (Num (Qc_of_Z 0)) <$> rows df |},
     [])
  ∧ ("corrosion_resistance" ∉ columns (fst (App.load_alloy_data path (Ok df))))
  ∧ Forall2 (λ r r' : gmap string cell,
       r' !! "corrosion_resistance" = r !! "corrosion_resistance")
      (rows df) (rows (fst (App.load_alloy_data path (Ok df)))).
Proof.
  intros Hcols Hc. rewrite Forall_forall in Hcols.
  rewrite (load_Ok _ _ Hcols), bool_decide_false by done.
  split; [done|]. split; [done|]. cbn [fst rows].
  apply Forall2_fmap_r, Forall_Forall2_diag, Forall_forall. intros r _.
  unfold Spec.clean_row, compose. cbv beta iota zeta.
  rewrite fillna_row_lookup. by rewrite decide_False by compute_done.
Qed.

Lemma load_without_corrosion_column_witness :
  App.load_alloy_data "aluminum_data_v2.csv" (Ok Data.no_corrosion_column)
  = (Data.no_corrosion_column, []).
Proof.
  destruct (load_without_corrosion_column "aluminum_data_v2.csv"
              Data.no_corrosion_column ltac:(compute_done) ltac:(compute_done))
    as (E & _).
  rewrite E. compute_done.
Defined.

(** * Further properties of the code *)

(** X1.  The filter is idempotent: run again, under the same filter state,
    on the frame it returned, it returns that frame. *)
Theorem filter_idempotent (df : DataFrame) (fs : FilterState) :
  Spec.filterable df →
  ∃ out, App.apply_filter df fs = Ok out ∧ App.apply_filter out fs = Ok out.
Proof.
  intros Hdf. eexists. split; [by apply apply_filter_Ok|].
  rewrite apply_filter_Ok by
    (apply filterable_sublist; [done|apply sublist_filter]).
  cbn [columns rows]. do 2 f_equal. rewrite list_filter_filter.
  apply list_filter_iff. tauto.
Qed.

Lemma filter_idempotent_witness :
  ∃ out, App.apply_filter Data.two_rows Data.narrow_tensile = Ok out
         ∧ App.apply_filter out Data.narrow_tensile = Ok out.
Proof.
  exact (filter_idempotent Data.two_rows Data.narrow_tensile
           ltac:(compute_done)).
Defined.

(** X2.  For every well-formed file (its numbers in the five columns of
    a slider within what a slider accepts) and whatever the user does with
    the widgets, [main] raises nothing: the bounds of the five sliders are
    bounds Streamlit accepts, the filtered frame holds the cleaned rows
    that pass the filter, the page shows the first row of the selected
    alloy and temper when there is a row, and the warning otherwise (so
    also when every corrosion class is deselected); the message asking to
    select an alloy is never shown. *)
Theorem main_serves_well_formed_file (w : world) (ui : picks) (df : DataFrame) :
  csv w = Ok df → File.well_formed df →
  ∃ fs0 fs p,
    App.filter_widgets (File.cleaned df) no_picks = Ok fs0
    ∧ File.accepted fs0
    ∧ App.filter_widgets (File.cleaned df) ui = Ok fs
    ∧ run_page (App.main w ui) = Ok (Some p)
    ∧ columns (filtered_df p) = columns df
    ∧ rows (filtered_df p) = filter (Spec.retained fs) (rows (File.cleaned df))
    ∧ match rows (filtered_df p) with
      | [] => shown p = NoAlloyWarning
      | _ => ∃ a t r, shown p = Detail a t r
                      ∧ Spec.first_match a t (rows (filtered_df p)) r
      end
    ∧ shown p ≠ SelectInfo
    ∧ (pick_corrosion ui = Some [] → shown p = NoAlloyWarning).
Proof.
  intros Hcsv Hwf.
  destruct (well_formed_accepted df Hwf) as (fs0 & E0 & Hacc).
  destruct (main_well_formed w ui df Hcsv Hwf) as (fs & v & Efs & _ & Ep & Hv).
  eexists fs0, fs, _. split; [done|]. split; [done|]. split; [done|].
  split; [exact Ep|]. cbn [filtered_df shown].
  split; [done|]. split; [done|]. split; [exact Hv|].
  cbn [rows] in Hv. split.
  - destruct (filter _ _); [by rewrite Hv|]. by destruct Hv as (a & t & r & -> & _).
  - intros Hpick.
    assert (selected_corrosion fs = []) as Hsel.
    { rewrite filter_widgets_pick in Efs.
      apply bind_Ok in Efs as (fs1 & _ & [= <-]). cbn [selected_corrosion].
      by rewrite Hpick. }
    destruct (filter _ _) as [|r0 rest] eqn:E; [done|].
    assert (r0 ∈ r0 :: rest) as Hr0 by apply list_elem_of_here.
    rewrite <- E in Hr0. apply list_elem_of_filter in Hr0 as [(Hc & _) _].
    rewrite Hsel in Hc. by apply elem_of_nil in Hc.
Qed.

Lemma main_serves_well_formed_file_witness :
  ∃ p, run_page (App.main (Data.first_visit Data.two_rows_raw) Sample.moved_sliders)
       = Ok (Some p)
       ∧ rows (filtered_df p) = [Data.a6061_t6]
       ∧ shown p = Detail (Str "A6061") (Str "T6") Data.a6061_t6.
Proof.
  destruct (main_serves_well_formed_file (Data.first_visit Data.two_rows_raw)
              Sample.moved_sliders Data.two_rows_raw eq_refl
              ltac:(compute_done)) as (fs0 & fs & p & _ & _ & _ & Ep & _).
  exists p. split; [exact Ep|].
  assert (run_page (App.main (Data.first_visit Data.two_rows_raw)
                      Sample.moved_sliders)
          = Ok (Some {| visitor_count := 42;
                        filtered_df := {| columns := Data.header;
                                          rows := [Data.a6061_t6] |};
                        shown := Detail (Str "A6061") (Str "T6") Data.a6061_t6 |}))
    as E by compute_done.
  rewrite E in Ep. injection Ep as <-. split; reflexivity.
Defined.

(** X3.  A file that has the twelve numeric columns and a row but not the
    column of the corrosion class loads without an error (C10); [main]
    then counts the visit and raises [KeyError] at the first filter
    widget, whatever the user does. *)
Theorem missing_corrosion_column_raises (w : world) (ui : picks) (df : DataFrame) :
  csv w = Ok df →
  Forall (λ c, c ∈ columns df) App.cols_to_fill →
  "corrosion_resistance" ∉ columns df →
  rows df ≠ [] →
  run_page (App.main w ui) = Raise (KeyError ["corrosion_resistance"])
  ∧ run_counted (App.main w ui) = true
  ∧ run_count_file (App.main w ui) = (Session.counter_step w).1
  ∧ run_errors (App.main w ui) = (Session.counter_step w).2.
Proof.
  intros Hcsv Hcols Hc Hne. rewrite (main_loaded _ _ _ Hcsv Hcols Hne).
  cbn [run_page run_counted run_count_file run_errors].
  split; [|done]. unfold App.filter_widgets, Pd.series.
  by rewrite decide_False.
Qed.

Lemma missing_corrosion_column_raises_witness :
  App.main (Data.first_visit Data.no_corrosion_column) no_picks
  = {| run_count_file := Some "42"; run_counted := true; run_errors := [];
       run_page := Raise (KeyError ["corrosion_resistance"]) |}.
Proof.
  destruct (missing_corrosion_column_raises
              (Data.first_visit Data.no_corrosion_column) no_picks
              Data.no_corrosion_column eq_refl ltac:(compute_done)
              ltac:(compute_done) ltac:(done)) as (H1 & H2 & H3 & H4).
  destruct (App.main _ _) as [f c e p]. cbn in H1, H2, H3, H4.
  rewrite H1, H2, H3, H4. reflexivity.
Defined.

(** X4.  The loader does not clean the identifiers.  In a frame whose rows
    have an alloy and no temper (an empty field in the file), whatever the
    user picks, the temper select box offers and returns the missing
    value, the test of line 168 lets it through (a NaN is true), no row
    equals it, and [.iloc[0]] raises [IndexError]. *)
Theorem missing_temper_raises (filtered : DataFrame) (ui : picks) :
  "alloy" ∈ columns filtered → "temper" ∈ columns filtered →
  rows filtered ≠ [] →
  Forall (λ r, Spec.nonempty_text (Pd.at_ r "alloy") ∧ Pd.at_ r "temper" = NaN)
    (rows filtered) →
  (∃ alloy_list a, App.select_widgets filtered ui = Ok (alloy_list, Some a, Some NaN))
  ∧ App.selection filtered ui = Raise IndexError.
Proof.
  intros Ha Ht Hne Hrows.
  assert (∃ alloy_list a, App.select_widgets filtered ui
                          = Ok (alloy_list, Some a, Some NaN)
                          ∧ truthy a = true) as (alloy_list & a & E & Ta).
  { unfold App.select_widgets. rewrite (series_Ok _ _ Ha).
    cbn [mbind result_bind].
    destruct (sorted_unique_texts ((λ r, Pd.at_ r "alloy") <$> rows filtered))
      as (alloy_list & -> & Hal).
    { apply Forall_fmap. eapply Forall_impl; [exact Hrows|].
      intros r [Hr _]. simpl. by destruct (Pd.at_ r "alloy"). }
    cbn [mbind result_bind].
    assert (alloy_list ≠ []) as Hal_ne.
    { destruct (rows filtered) as [|r0 rest] eqn:E; [done|].
      intros ->. eapply elem_of_nil, Hal. rewrite fmap_cons.
      apply list_elem_of_here. }
    destruct (selectbox_chooses alloy_list (Str "A5052") (pick_alloy ui) Hal_ne)
      as (a0 & Ea0 & Ha0).
    apply Hal, list_elem_of_fmap in Ha0 as (r0 & -> & Hr0).
    rewrite Forall_forall in Hrows. destruct (Hrows r0 Hr0) as [Hr0a Hr0t].
    destruct (Pd.at_ r0 "alloy") as [| |s1] eqn:Es1; [done|done|].
    simpl in Hr0a.
    destruct alloy_list as [|x0 alloy_list']; [done|].
    rewrite Ea0. cbn [truthy]. rewrite bool_decide_true by done.
    rewrite (series_Ok (Pd.loc _ _) "temper") by done.
    cbn [mbind result_bind Pd.loc rows].
    rewrite <- list_fmap_compose, select_fmap.
    set (rows_a := filter _ (rows filtered)).
    assert (Pd.unique ((λ r, Pd.at_ r "temper") <$> rows_a) = [NaN]) as ->.
    { apply unique_constant.
      - assert (r0 ∈ rows_a) as Hin.
        { unfold rows_a. apply list_elem_of_filter. split; [|done].
          unfold compose. rewrite Es1. apply eq_cell_true. done. }
        destruct rows_a; [by apply elem_of_nil in Hin|done].
      - apply Forall_fmap, Forall_forall.
        intros r [_ Hr]%list_elem_of_filter. by apply Hrows. }
    assert (sorted [NaN] = Ok [NaN]) as -> by done.
    cbn [mbind result_bind].
    rewrite selectbox_singleton.
    - exists (x0 :: alloy_list'), (Str s1). split; [done|].
      simpl. by rewrite bool_decide_true.
    - apply (index_or_0_lt (Str "H32") [NaN]). done. }
  split; [by eauto|]. unfold App.selection. rewrite E.
  cbn [mbind result_bind]. by apply resolve_missing_temper.
Qed.

Lemma missing_temper_raises_witness :
  App.selection Data.missing_temper no_picks = Raise IndexError
  ∧ run_page (App.main (Data.first_visit Data.missing_temper) no_picks)
    = Raise IndexError.
Proof.
  split.
  - exact (proj2 (missing_temper_raises Data.missing_temper no_picks
                    ltac:(compute_done) ltac:(compute_done) ltac:(done)
                    ltac:(compute_done))).
  - compute_done.
Defined.

(** X5.  A failed write of the counter is reported and does not stop the
    run.  On a first run that gets a dataset: when [open] fails the file
    is left as it was; when the write fails after [open] has emptied the
    file, the file stays empty and the page shows 0; in both cases the
    error is shown, the session is marked as counted, the page shows the
    count read back from the file, and it has the filtered frame and the
    view (or raises what) it would have with any other counter. *)
Theorem write_failure_is_reported
    (w : world) (ui : picks) (df : DataFrame) (e : exn) :
  csv w = Ok df →
  Forall (λ c, c ∈ columns df) App.cols_to_fill →
  rows df ≠ [] →
  counted w = false →
  write w = OpenFails e ∨ write w = WriteFails e →
  run_errors (App.main w ui) = [CounterWriteError e]
  ∧ run_counted (App.main w ui) = true
  ∧ run_count_file (App.main w ui)
    = match write w with OpenFails _ => count_file w | _ => Some EmptyString end
  ∧ (∀ p, run_page (App.main w ui) = Ok (Some p) →
          visitor_count p
          = match write w with
            | OpenFails _ => App.get_visitor_count (count_file w)
            | _ => 0
            end)
  ∧ ∀ w', csv w' = csv w →
      match run_page (App.main w ui), run_page (App.main w' ui) with
      | Ok (Some p), Ok (Some p') =>
          filtered_df p = filtered_df p' ∧ shown p = shown p'
      | Raise e1, Raise e2 => e1 = e2
      | _, _ => False
      end.
Proof.
  intros Hcsv Hcols Hne Hc Hw. split_and!.
  - rewrite (main_loaded _ _ _ Hcsv Hcols Hne). cbn [run_errors].
    unfold Session.counter_step. rewrite Hc. by destruct Hw as [-> | ->].
  - by rewrite (main_loaded _ _ _ Hcsv Hcols Hne).
  - rewrite (main_loaded _ _ _ Hcsv Hcols Hne). cbn [run_count_file].
    unfold Session.counter_step. rewrite Hc. by destruct Hw as [-> | ->].
  - intros p. rewrite (main_loaded _ _ _ Hcsv Hcols Hne). cbn [run_page].
    intros (fs & _ & (f & _ & (v & _ & [= <-])%bind_Ok)%bind_Ok)%bind_Ok.
    cbn [visitor_count]. unfold Session.counter_step. rewrite Hc.
    by destruct Hw as [-> | ->].
  - intros w' E. pose proof (main_page_counter w w' ui E) as H.
    destruct (run_page (App.main w ui)) as [[p|]|e1] eqn:E1; [done| |done].
    rewrite (main_loaded _ _ _ Hcsv Hcols Hne) in E1. cbn [run_page] in E1.
    apply bind_Ok in E1 as (fs & _ & E1). apply bind_Ok in E1 as (f & _ & E1).
    by apply bind_Ok in E1 as (v & _ & [=]).
Qed.

Lemma write_failure_is_reported_witness :
  App.main {| csv := Ok Data.two_rows_raw; count_file := Some "41";
              write := OpenFails Sample.read_only; counted := false |} no_picks
  = {| run_count_file := Some "41"; run_counted := true;
       run_errors := [CounterWriteError Sample.read_only];
       run_page :=
         Ok (Some {| visitor_count := 41; filtered_df := Data.two_rows;
                     shown := Detail (Str "A5052") (Str "H32")
                                (Data.a5052_h32 (Data.int 12)) |}) |}.
Proof.
  pose proof (write_failure_is_reported
                {| csv := Ok Data.two_rows_raw; count_file := Some "41";
                   write := OpenFails Sample.read_only; counted := false |}
                no_picks Data.two_rows_raw Sample.read_only eq_refl
                ltac:(compute_done) ltac:(done) eq_refl
                ltac:(left; reflexivity)) as (H1 & H2 & H3 & _).
  destruct (App.main _ _) as [f c e p] eqn:E. cbn in H1, H2, H3.
  rewrite H1, H2, H3. f_equal.
  apply (f_equal run_page) in E. cbn [run_page] in E. rewrite <- E.
  compute_done.
Defined.

(** X6.  A session already counted is not counted again: the counter file
    is left as it was, whatever the file, the widgets and the outcome. *)
Theorem counted_session_keeps_the_count (w : world) (ui : picks) :
  counted w = true →
  run_count_file (App.main w ui) = count_file w
  ∧ run_counted (App.main w ui) = true.
Proof.
  intros Hc. unfold App.main.
  destruct (App.load_alloy_data _ _) as [df errors].
  destruct (Pd.empty df); rewrite Hc; done.
Qed.

Lemma counted_session_keeps_the_count_witness :
  run_count_file
    (App.main {| csv := Ok Data.two_rows_raw; count_file := Some "41";
                 write := WriteOk; counted := true |} no_picks)
  = Some "41".
Proof.
  exact (proj1 (counted_session_keeps_the_count
                  {| csv := Ok Data.two_rows_raw; count_file := Some "41";
                     write := WriteOk; counted := true |} no_picks eq_refl)).
Defined.

(** X7.  The list a select box offers, [sorted(s.unique().tolist())] of a
    series of texts: it has exactly the values of the series, each once,
    in increasing order. *)
Theorem selectable_list_sorted_distinct (s : list cell) :
  Forall (λ x, is_str x = true) s →
  ∃ l, sorted (Pd.unique s) = Ok l
       ∧ NoDup l ∧ Sorted cell_le l ∧ ∀ x, x ∈ l ↔ x ∈ s.
Proof.
  intros Hs. exists (merge_sort cell_le (Pd.unique s)). split_and!.
  - apply sorted_texts. rewrite Forall_forall in Hs. apply Forall_forall.
    intros x Hx. apply Hs. by apply elem_of_unique.
  - rewrite merge_sort_Permutation. apply NoDup_unique.
  - apply (Sorted_merge_sort cell_le).
  - intros x. by rewrite merge_sort_Permutation, elem_of_unique.
Qed.

Lemma selectable_list_sorted_distinct_witness :
  sorted (Pd.unique [Str "T6"; Str "H32"; Str "T6"; Str "O"])
  = Ok [Str "H32"; Str "O"; Str "T6"]
  ∧ Sorted cell_le [Str "H32"; Str "O"; Str "T6"].
Proof.
  assert (sorted (Pd.unique [Str "T6"; Str "H32"; Str "T6"; Str "O"])
          = Ok [Str "H32"; Str "O"; Str "T6"]) as E by compute_done.
  destruct (selectable_list_sorted_distinct
              [Str "T6"; Str "H32"; Str "T6"; Str "O"] ltac:(compute_done))
    as (l & E' & _ & Hsorted & _).
  rewrite E in E'. injection E' as <-. split; [exact E|exact Hsorted].
Defined.

(** X8.  Before the user picks anything a select box holds the preferred
    value when the list has it and the first value of the list otherwise
    (nothing when the list is empty). *)
Theorem default_selection (x : cell) (options : list cell) :
  St.selectbox options (App.index_or_0 x options) None
  = if decide (x ∈ options) then Some x else head options.
Proof.
  unfold St.selectbox, App.index_or_0. cbn [mbind option_bind].
  destruct (list_find _ options) as [[i y]|] eqn:E.
  - apply list_find_Some in E as (E & -> & _).
    by rewrite decide_True by (by eapply list_elem_of_lookup_2).
  - rewrite list_find_None, Forall_forall in E.
    rewrite decide_False; [by rewrite head_lookup|]. intros Hx. by apply (E x).
Qed.





(** X11.  What a page holds, whenever [main] builds one: the file was
    parsed and the widgets were built, the filtered frame has the columns
    of the file and exactly the cleaned rows that pass the state of the
    widgets, in order; every row in it has a number in each of the five
    range columns (a row with an empty field there is never shown); the
    warning is shown exactly when the filtered frame has no row; and a row
    shown in detail is a row of the filtered frame, so it passes the
    filters, with the selected alloy and temper. *)
Theorem page_invariant (w : world) (ui : picks) (p : page) :
  run_page (App.main w ui) = Ok (Some p) →
  ∃ df fs, csv w = Ok df
    ∧ App.filter_widgets (File.cleaned df) ui = Ok fs
    ∧ columns (filtered_df p) = columns df
    ∧ rows (filtered_df p) = filter (Spec.retained fs) (rows (File.cleaned df))
    ∧ Forall (λ r, Forall (λ c, File.number (Pd.at_ r c)) Spec.range_columns)
        (rows (filtered_df p))
    ∧ (shown p = NoAlloyWarning ↔ rows (filtered_df p) = [])
    ∧ (∀ a t r, shown p = Detail a t r →
         r ∈ rows (filtered_df p) ∧ Spec.retained fs r ∧ Spec.matches a t r).
Proof.
  intros (df & fs & Hcsv & Hcols & Hne & Hfs & Hf & Hsel)%main_page_inv.
  exists df, fs. split; [done|]. split; [done|].
  destruct (apply_filter_rows _ _ _ Hf) as [Ec Er].
  split; [done|]. split; [done|]. split.
  { rewrite Er. apply Forall_forall. intros r [Hr _]%list_elem_of_filter.
    by eapply retained_numbers. }
  split.
  - split; [intros E; rewrite E in Hsel; by eapply selection_warning|].
    intros E. unfold App.selection in Hsel.
    apply bind_Ok in Hsel as ([[al sa] st] & Hw & Hr).
    unfold App.select_widgets in Hw.
    apply bind_Ok in Hw as (s & [_ ->]%series_Ok_inv & Hw).
    rewrite E in Hw. cbn in Hw. injection Hw as <- <- <-.
    cbn in Hr. by injection Hr as <-.
  - intros a t r E. rewrite E in Hsel. unfold App.selection in Hsel.
    apply bind_Ok in Hsel as ([[al sa] st] & _ & Hr).
    apply resolve_Detail_inv in Hr as (_ & _ & _ & _ & _ & _ & rest & Hrest).
    assert (r ∈ r :: rest) as Hin by apply list_elem_of_here.
    rewrite <- Hrest in Hin. apply list_elem_of_filter in Hin as [Hm Hin].
    split; [done|]. split; [|done]. rewrite Er in Hin.
    by apply list_elem_of_filter in Hin as [? _].
Qed.

Lemma page_invariant_witness :
  ∃ df, csv (Data.first_visit Data.fractional_raw) = Ok df
        ∧ columns df = Data.header.
Proof.
  destruct (page_invariant (Data.first_visit Data.fractional_raw) no_picks
              {| visitor_count := 42;
                 filtered_df :=
                   {| columns := Data.header; rows := [Data.a6061_t6] |};
                 shown := Detail (Str "A6061") (Str "T6") Data.a6061_t6 |}
              ltac:(compute_done)) as (df & fs & Hcsv & _ & Hc & _).
  exists df. split; [exact Hcsv|]. symmetry. exact Hc.
Defined.



(** X13.  A parsed file with the twelve columns and no row: [main]
    returns at line 81 without a message, without counting the visit and
    without building a page. *)
Theorem empty_dataset_is_silent (w : world) (ui : picks) (df : DataFrame) :
  csv w = Ok df →
  Forall (λ c, c ∈ columns df) App.cols_to_fill →
  rows df = [] →
  App.main w ui
  = {| run_count_file := count_file w; run_counted := counted w;
       run_errors := []; run_page := Ok None |}.
Proof.
  intros Hcsv Hcols Hr. unfold App.main.
  rewrite Hcsv, (load_cleaned _ _ Hcols).
  unfold Pd.empty, File.cleaned. cbn [columns rows]. rewrite Hr.
  by destruct (columns df).
Qed.

Lemma empty_dataset_is_silent_witness :
  App.main (Data.first_visit Sample.header_only) no_picks
  = {| run_count_file := Some "41"; run_counted := false;
       run_errors := []; run_page := Ok None |}.
Proof.
  exact (empty_dataset_is_silent (Data.first_visit Sample.header_only) no_picks
           Sample.header_only eq_refl ltac:(compute_done) eq_refl).
Defined.

(** X14.  White space around the number in the counter file (the newline
    an editor leaves at the end, say) does not change what is read, and
    the next increment stores the text of the number alone; the content
    and the text written are within the limit on the length of a literal. *)
Theorem counter_ignores_white_space (pre post : string) (n : Z) :
  Py.blank pre → Py.blank post →
  (String.length (pre +:+ Py.str n +:+ post) ≤ Py.max_str_digits)%nat →
  (String.length (Py.str (n + 1)) ≤ Py.max_str_digits)%nat →
  Py.ascii_text (pre +:+ Py.str n +:+ post)
  ∧ App.get_visitor_count (Some (pre +:+ Py.str n +:+ post)) = n
  ∧ App.increment_visitor_count WriteOk (Some (pre +:+ Py.str n +:+ post))
    = (Some (Py.str (n + 1)), []).
Proof.
  intros Hpre Hpost _ _.
  assert (App.get_visitor_count (Some (pre +:+ Py.str n +:+ post)) = n) as E.
  { unfold App.get_visitor_count.
    by rewrite (int_of_string_blank _ _ _ Hpre Hpost), int_of_string_str. }
  split; [|split; [done|]].
  - assert (∀ s t, Py.ascii_text s → Py.ascii_text t → Py.ascii_text (s +:+ t))
      as Happ.
    { intros s t. induction s as [|a s IH]; [done|]. rewrite append_cons.
      simpl. intros [? ?] ?. auto. }
    assert (∀ s, Py.blank s → Py.ascii_text s) as Hblank.
    { induction s as [|a s IH]; [done|]. simpl. intros [Ha Hs].
      split; [|by apply IH]. unfold Py.is_space in Ha.
      apply orb_true_iff in Ha as [[_ Ha%Nat.leb_le]%andb_true_iff|Ha%Nat.eqb_eq];
        lia. }
    assert (∀ d, Py.ascii_text (NilEmpty.string_of_uint d)) as Huint.
    { induction d; simpl; (split; [|done]) || done; compute; lia. }
    assert (Py.ascii_text (Py.str n)) as Hstr.
    { unfold Py.str. destruct n as [|p|p]; simpl.
      - compute. lia.
      - rewrite string_of_pos. apply Huint.
      - split; [compute; lia|]. rewrite string_of_pos. apply Huint. }
    auto.
  - unfold App.increment_visitor_count. by rewrite E.
Qed.

Lemma counter_ignores_white_space_witness :
  App.get_visitor_count (Some (String "052" (String "050" (String "010" ""))))
  = 42.
Proof.
  exact (proj1 (proj2 (counter_ignores_white_space "" (String "010" "") 42
                  ltac:(done) ltac:(compute_done) ltac:(compute_done)
                  ltac:(compute_done)))).
Defined.

(** X15.  The cleaning of the loader is idempotent and keeps the shape of
    the file: a frame the loader returned without an error loads again as
    itself, it has as many rows as the file and, when every row of the
    file has a cell under every column label and no other, so has every
    row of the frame. *)
Theorem load_idempotent (path : string) (read : result DataFrame) (df' : DataFrame) :
  App.load_alloy_data path read = (df', []) →
  App.load_alloy_data path (Ok df') = (df', [])
  ∧ ∃ df, read = Ok df
      ∧ length (rows df') = length (rows df)
      ∧ (Pd.rectangular df → Pd.rectangular df').
Proof.
  intros H. destruct (load_success_inv _ _ _ H) as (df & -> & Hcols).
  rewrite (load_Ok _ _ Hcols) in H. injection H as <-. split.
  - rewrite load_Ok by done. cbn [columns rows]. do 2 f_equal.
    rewrite <- list_fmap_compose. apply list_fmap_ext. intros _ r _.
    apply clean_row_idem.
  - exists df. split; [done|]. cbn [rows]. split; [by rewrite length_fmap|].
    unfold Pd.rectangular. cbn [rows columns]. intros Hrect.
    apply Forall_fmap. eapply Forall_impl; [exact Hrect|]. intros r Hr c.
    unfold compose. by rewrite clean_row_is_Some.
Qed.

Lemma load_idempotent_witness :
  App.load_alloy_data "aluminum_data_v2.csv" (Ok Data.two_rows)
  = (Data.two_rows, []).
Proof.
  exact (proj1 (load_idempotent "aluminum_data_v2.csv" (Ok Data.two_rows_raw)
                  Data.two_rows ltac:(compute_done))).
Defined.

(** X16.  The detail view and the chart read the same mask.  Whenever a
    row is shown in detail, the red layer of the chart is drawn from all
    the rows of the filtered frame that have the selected alloy and
    temper, in order; the row shown in detail is the first of them, and
    the only one when no two rows of the frame share their alloy and
    temper. *)
Theorem highlight_marks_every_match
    (filtered : DataFrame) (alloy_list : list cell) (sa st : option cell)
    (a t : cell) (r : gmap string cell) :
  App.resolve filtered alloy_list sa st = Ok (Detail a t r) →
  ∃ marked rest,
    Content.highlight filtered a t = Ok marked
    ∧ columns marked = columns filtered
    ∧ rows marked = filter (Spec.matches a t) (rows filtered)
    ∧ rows marked = r :: rest
    ∧ (NoDup ((λ r, (Pd.at_ r "alloy", Pd.at_ r "temper")) <$> rows filtered) →
       rest = []).
Proof.
  intros (_ & _ & Na & Nt & Ha & Ht & rest & E)%resolve_Detail_inv.
  eexists _, rest. split; [by apply highlight_Ok|]. cbn [columns rows].
  split; [done|]. split; [done|]. split; [done|].
  intros Hnd.
  apply (filter_key_unique (λ r, (Pd.at_ r "alloy", Pd.at_ r "temper")) (a, t)
           (rows filtered) r rest Hnd).
  rewrite <- E. apply list_filter_iff. intros r'. unfold Spec.matches.
  split; [by intros [= -> ->]|by intros [-> ->]].
Qed.

Lemma highlight_marks_every_match_witness :
  ∃ marked, Content.highlight Sample.duplicated (Str "A5052") (Str "H32")
            = Ok marked
            ∧ rows marked = [Data.a5052_h32 (Data.int 12); Sample.a5052_h32_bis].
Proof.
  destruct (highlight_marks_every_match Sample.duplicated
              [Str "A5052"; Str "A6061"] (Some (Str "A5052")) (Some (Str "H32"))
              (Str "A5052") (Str "H32") (Data.a5052_h32 (Data.int 12))
              ltac:(compute_done)) as (marked & rest & H1 & _ & H3 & _).
  exists marked. split; [exact H1|]. rewrite H3. compute_done.
Defined.

(** X17.  The columns the page needs.  Whenever [main] gets as far as the
    detail view and the chart without raising, the file has every one of
    the twenty-one columns the code reads by name: the twelve the loader
    fills, the six of the filter, the two identifiers, and the
    description, the hardness and the aluminium content read by the
    tables; and the two columns the chart is asked to plot are columns of
    the file. *)
Theorem detail_needs_every_column
    (w : world) (ui : picks) (pick_x pick_y : option nat) (shown_content : content) :
  Content.render w ui pick_x pick_y = Ok (Some shown_content) →
  ∃ df, csv w = Ok df
    ∧ Forall (λ c, c ∈ columns df) File.required_columns
    ∧ x_axis_col (scatter shown_content) ∈ columns df
    ∧ y_axis_col (scatter shown_content) ∈ columns df.
Proof.
  unfold Content.render. intros ([p|] & Hp & Hc)%bind_Ok; [|done].
  apply main_page_inv in Hp as (df & fs & Hcsv & Hcols & _ & _ & Hf & Hsel).
  exists df. split; [done|].
  destruct (apply_filter_rows _ _ _ Hf) as [Ec _].
  pose proof (apply_filter_Ok_inv _ _ _ Hf) as (Hcorr & Hrange & _).
  unfold Content.main_content in Hc.
  destruct (shown p) as [a t r| |] eqn:Hv; [|done..].
  apply bind_Ok in Hc as (d & [Hd _]%field_Ok_inv & Hc).
  apply bind_Ok in Hc as (mech & Hmech%properties_Ok_inv & Hc).
  apply bind_Ok in Hc as (phys & Hphys%properties_Ok_inv & Hc).
  apply bind_Ok in Hc as (chem & Hchem%chemical_Ok_inv & Hc).
  apply bind_Ok in Hc as (sc & (Hx & Hy & _)%scatter_chart_Ok_inv & [= <-]).
  cbn [scatter].
  unfold App.selection in Hsel.
  apply bind_Ok in Hsel as ([[al sa] st] & _ & Hr).
  apply resolve_Detail_inv in Hr as (_ & _ & _ & _ & Ha & Ht & _).
  rewrite Ec in *. cbn [columns File.cleaned] in *.
  assert (∀ c, c ∈ ["alloy"; "temper"; "description"; "corrosion_resistance"]
                     ++ Content.mechanical.*2 ++ App.cols_to_fill
                     ++ Content.chem_cols → c ∈ columns df) as Hall.
  { intros c. rewrite !elem_of_app. intros [H|[H|[H|H]]].
    - cases_elem H; done.
    - apply list_elem_of_fmap in H as (q & -> & H).
      rewrite Forall_forall in Hmech. by apply Hmech.
    - rewrite Forall_forall in Hcols. by apply Hcols.
    - rewrite Forall_forall in Hchem. by apply Hchem. }
  assert (Forall (λ c, c ∈ columns df) File.required_columns) as Hreq.
  { apply Forall_forall. intros c Hc. apply Hall. clear -Hc.
    cases_elem Hc; compute_done. }
  split; [done|]. rewrite Forall_forall in Hreq.
  assert (Forall (λ c, c ∈ File.required_columns) Content.axis_options.*2)
    as Haxes by compute_done.
  rewrite Forall_forall in Haxes. split; apply Hreq, Haxes; done.
Qed.

Lemma detail_needs_every_column_witness :
  ∃ df, csv (Data.first_visit Data.two_rows_raw) = Ok df
        ∧ "hardness_brinell" ∈ columns df.
Proof.
  assert (∃ shown_content,
            Content.render (Data.first_visit Data.two_rows_raw) no_picks None None
            = Ok (Some shown_content)) as [shown_content E].
  { unfold Content.render.
    assert (run_page (App.main (Data.first_visit Data.two_rows_raw) no_picks)
            = Ok (Some {| visitor_count := 42; filtered_df := Data.two_rows;
                          shown := Detail (Str "A5052") (Str "H32")
                                     (Data.a5052_h32 (Data.int 12)) |}))
      as -> by compute_done.
    cbn [mbind result_bind filtered_df shown].
    destruct (main_content_Ok Data.two_rows (Str "A5052") (Str "H32")
                (Data.a5052_h32 (Data.int 12)) None None
                ltac:(compute_done) ltac:(done) ltac:(done))
      as (x & y & -> & _).
    by eexists. }
  destruct (detail_needs_every_column _ _ _ _ _ E) as (df & Hcsv & Hcols & _).
  exists df. split; [exact Hcsv|].
  rewrite Forall_forall in Hcols. apply Hcols. compute_done.
Defined.

(** X18.  The detail view of a well-formed file (its numbers in the five
    columns of a slider within what a slider accepts) that has the
    twenty-one columns, whatever the user picks in the sidebar and on the
    two axes: the bounds of the five sliders are bounds Streamlit accepts
    and nothing is raised; without a row left by the filter nothing but the
    warning is shown; otherwise the three tables hold the cells of the row
    shown (the mechanical and physical values under their labels, the nine
    contents of the chemical table under SI, FE, CU, MN, MG, CR, ZN, TI,
    AL), the grey layer of the chart is drawn from the filtered frame, the
    red layer from its rows with the selected alloy and temper, and each
    axis is one of the sixteen columns of [axis_options], the elongation
    against the tensile strength before the user picks one. *)
Theorem detail_of_well_formed_file
    (w : world) (ui : picks) (pick_x pick_y : option nat) (df : DataFrame) :
  csv w = Ok df → File.well_formed df →
  Forall (λ c, c ∈ columns df) File.required_columns →
  Content.chem_label <$> Content.chem_cols
  = ["SI"; "FE"; "CU"; "MN"; "MG"; "CR"; "ZN"; "TI"; "AL"]
  ∧ (∃ fs0, App.filter_widgets (File.cleaned df) no_picks = Ok fs0
            ∧ File.accepted fs0)
  ∧ ∃ p, run_page (App.main w ui) = Ok (Some p)
    ∧ match shown p with
      | Detail a t r =>
          ∃ x y,
            Content.render w ui pick_x pick_y
            = Ok (Some
                {| description := Pd.at_ r "description";
                   mechanical_properties :=
                     (λ q, (q.1, Pd.at_ r q.2)) <$> Content.mechanical;
                   physical_properties :=
                     (λ q, (q.1, Pd.at_ r q.2)) <$> Content.physical;
                   chem_data :=
                     (λ c, (Content.chem_label c, Pd.at_ r c))
                     <$> Content.chem_cols;
                   scatter :=
                     {| x_axis_col := x; y_axis_col := y;
                        base_data := filtered_df p;
                        highlight_data :=
                          {| columns := columns df;
                             rows := filter (Spec.matches a t)
                                       (rows (filtered_df p)) |} |} |})
            ∧ x ∈ Content.axis_options.*2 ∧ y ∈ Content.axis_options.*2
            ∧ (pick_x = None → x = "elongation_percent")
            ∧ (pick_y = None → y = "tensile_strength_mpa")
      | _ => rows (filtered_df p) = []
             ∧ Content.render w ui pick_x pick_y = Ok None
      end.
Proof.
  intros Hcsv Hwf Hcols. split; [done|].
  split; [by apply well_formed_accepted|].
  destruct (main_well_formed w ui df Hcsv Hwf) as (fs & v & _ & _ & Ep & Hv).
  eexists. split; [exact Ep|]. cbn [shown filtered_df].
  unfold Content.render. rewrite Ep. cbn [mbind result_bind shown filtered_df].
  set (filtered := {| columns := columns df; rows := filter _ _ |}) in *.
  destruct v as [a t r| |].
  - assert (r ∈ rows filtered ∧ Spec.matches a t r) as [Hin [Hma Hmt]].
    { destruct (rows filtered) as [|r0 rest]; [done|].
      destruct Hv as (a' & t' & r' & [= <- <- <-] & (pre & post & -> & Hm & _)).
      split; [|done]. apply elem_of_app. right. apply list_elem_of_here. }
    assert (Spec.nonempty_text a ∧ Spec.nonempty_text t) as [Ha Ht].
    { pose proof (cleaned_text_identifiers df Hwf) as Htxt.
      unfold Spec.text_identifiers in Htxt. rewrite Forall_forall in Htxt.
      rewrite <- Hma, <- Hmt. apply Htxt.
      unfold filtered in Hin. cbn [rows] in Hin.
      by apply list_elem_of_filter in Hin as [_ ?]. }
    destruct (main_content_Ok filtered a t r pick_x pick_y)
      as (x & y & Ec & Hxy); [done|by destruct a|by destruct t|].
    exists x, y. split; [exact Ec|exact Hxy].
  - split; [|done]. destruct (rows filtered) as [|r0 rest]; [done|].
    by destruct Hv as (a' & t' & r' & [=] & _).
  - destruct (rows filtered) as [|r0 rest]; [done|].
    by destruct Hv as (a' & t' & r' & [=] & _).
Qed.

Lemma detail_of_well_formed_file_witness :
  ∃ p, run_page (App.main (Data.first_visit Data.two_rows_raw) no_picks)
       = Ok (Some p)
       ∧ shown p = Detail (Str "A5052") (Str "H32") (Data.a5052_h32 (Data.int 12)).
Proof.
  destruct (detail_of_well_formed_file (Data.first_visit Data.two_rows_raw)
              no_picks None None Data.two_rows_raw eq_refl ltac:(compute_done)
              ltac:(compute_done)) as (_ & _ & p & Ep & _).
  exists p. split; [exact Ep|].
  assert (run_page (App.main (Data.first_visit Data.two_rows_raw) no_picks)
          = Ok (Some {| visitor_count := 42; filtered_df := Data.two_rows;
                        shown := Detail (Str "A5052") (Str "H32")
                                   (Data.a5052_h32 (Data.int 12)) |}))
    as E by compute_done.
  rewrite E in Ep. injection Ep as <-. reflexivity.
Defined.

(** X19.  A session is counted once, at its first run that gets a
    dataset: the runs before it whose load failed leave the counter file
    alone, that run calls [increment_visitor_count] once, and no later run
    of the session touches the file, whatever these runs load and whether
    or not the write succeeded (a failed write is not tried again). *)
Theorem session_counts_once
    (file : option string) (failed : list visit) (v : visit)
    (later : list visit) (df : DataFrame) :
  Forall (λ u, match visit_csv u with Raise _ => True | Ok _ => False end) failed →
  visit_csv v = Ok df →
  Forall (λ c, c ∈ columns df) App.cols_to_fill →
  rows df ≠ [] →
  Session.reruns file false (failed ++ v :: later)
  = ((App.increment_visitor_count (visit_write v) file).1, true)
  ∧ (visit_write v = WriteOk →
     App.get_visitor_count (Session.reruns file false (failed ++ v :: later)).1
     = App.get_visitor_count file + 1)
  ∧ Session.reruns file false failed = (file, false).
Proof.
  intros Hfailed Hcsv Hcols Hne.
  assert (Session.reruns file false (failed ++ v :: later)
          = ((App.increment_visitor_count (visit_write v) file).1, true)) as E.
  { rewrite (reruns_not_loaded _ _ _ _ Hfailed). cbn [Session.reruns].
    rewrite (main_loaded _ (visit_ui v) df) by done.
    cbn [run_count_file run_counted]. unfold Session.counter_step.
    cbn [counted write count_file]. apply reruns_counted. }
  split; [done|]. split.
  - intros Hw. rewrite E, Hw. cbn [fst App.increment_visitor_count].
    apply get_visitor_count_str.
  - rewrite <- (app_nil_r failed) at 1.
    by rewrite (reruns_not_loaded _ _ _ _ Hfailed).
Qed.

Lemma session_counts_once_witness :
  Session.reruns (Some "41") false
    [ {| visit_csv := Raise FileNotFoundError; visit_write := WriteOk;
         visit_ui := no_picks |};
      {| visit_csv := Ok Data.two_rows_raw; visit_write := WriteOk;
         visit_ui := no_picks |};
      {| visit_csv := Ok Data.two_rows_raw; visit_write := WriteOk;
         visit_ui := Sample.moved_sliders |} ]
  = (Some "42", true).
Proof.
  exact (proj1 (session_counts_once (Some "41")
                  [ {| visit_csv := Raise FileNotFoundError;
                       visit_write := WriteOk; visit_ui := no_picks |} ]
                  {| visit_csv := Ok Data.two_rows_raw; visit_write := WriteOk;
                     visit_ui := no_picks |}
                  [ {| visit_csv := Ok Data.two_rows_raw; visit_write := WriteOk;
                       visit_ui := Sample.moved_sliders |} ]
                  Data.two_rows_raw ltac:(by repeat constructor) eq_refl
                  ltac:(compute_done) ltac:(done))).
Defined.

(** X20.  The view before the user touches the two select boxes, on a
    filtered frame with rows and text identifiers: the alloy shown is
    A5052 when a row of the filtered frame has it and the least alloy of
    the frame (in the order of [sorted]) otherwise; the temper shown is H32
    when a row of that alloy has it and the least temper of that alloy
    otherwise; and the row shown is the first row of the frame with that
    alloy and temper. *)
Theorem default_view (filtered : DataFrame) (ui : picks) :
  "alloy" ∈ columns filtered → "temper" ∈ columns filtered →
  rows filtered ≠ [] → Spec.text_identifiers filtered →
  pick_alloy ui = None → pick_temper ui = None →
  ∃ a t r,
    App.selection filtered ui = Ok (Detail a t r)
    ∧ Spec.first_match a t (rows filtered) r
    ∧ (let alloys := (λ r, Pd.at_ r "alloy") <$> rows filtered in
       if decide (Str "A5052" ∈ alloys) then a = Str "A5052"
       else Forall (cell_le a) alloys)
    ∧ (let tempers :=
         (λ r, Pd.at_ r "temper")
         <$> filter (λ r, Pd.at_ r "alloy" = a) (rows filtered) in
       if decide (Str "H32" ∈ tempers) then t = Str "H32"
       else Forall (cell_le t) tempers).
Proof.
  intros Ha Ht Hne Htxt Hpa Hpt.
  set (alloys := (λ r, Pd.at_ r "alloy") <$> rows filtered).
  destruct (default_choice (Str "A5052") alloys) as (alloy_list & a & Eal & Ea & Hin & Hda).
  { unfold alloys. by destruct (rows filtered). }
  { apply Forall_fmap, Forall_forall. intros r Hr.
    destruct (text_identifiers_alloy _ _ Htxt Hr) as (s & E & _).
    unfold compose. by rewrite E. }
  apply list_elem_of_fmap in Hin as (r0 & Er0 & Hr0).
  destruct (text_identifiers_alloy _ _ Htxt Hr0) as (s1 & Es1 & Ns1).
  rewrite Es1 in Er0. subst a.
  set (rows_a := filter (λ r, Pd.at_ r "alloy" = Str s1) (rows filtered)).
  assert (r0 ∈ rows_a) as Hr0a by (by apply list_elem_of_filter).
  destruct (default_choice (Str "H32") ((λ r, Pd.at_ r "temper") <$> rows_a))
    as (tempers & t & Ete & Et & Hint & Hdt).
  { destruct rows_a; [by apply elem_of_nil in Hr0a|done]. }
  { apply Forall_fmap, Forall_forall. intros r [_ Hr]%list_elem_of_filter.
    destruct (text_identifiers_temper _ _ Htxt Hr) as (s & E & _).
    unfold compose. by rewrite E. }
  apply list_elem_of_fmap in Hint as (r1 & Er1 & [Hr1a Hr1]%list_elem_of_filter).
  destruct (text_identifiers_temper _ _ Htxt Hr1) as (s2 & Es2 & Ns2).
  rewrite Es2 in Er1. subst t.
  destruct (resolve_first filtered alloy_list (Str s1) (Str s2))
    as (r & Er & Hfirst); try done.
  { simpl. by rewrite bool_decide_true. }
  { simpl. by rewrite bool_decide_true. }
  { by exists r1. }
  exists (Str s1), (Str s2), r. split; [|by split].
  unfold App.selection, App.select_widgets.
  rewrite (series_Ok _ _ Ha). cbn [mbind result_bind]. fold alloys.
  rewrite Eal. cbn [mbind result_bind].
  assert (alloy_list ≠ []) as Hal_ne.
  { intros ->. by cbn in Ea. }
  destruct alloy_list as [|x0 alloy_list']; [done|].
  rewrite Hpa, Ea. cbn [truthy]. rewrite bool_decide_true by done.
  rewrite (series_Ok (Pd.loc _ _) "temper") by done.
  cbn [mbind result_bind Pd.loc rows].
  unfold alloys. rewrite <- list_fmap_compose, select_fmap.
  assert (filter (λ r, (Pd.eq_cell (Str s1) ∘ (λ r, Pd.at_ r "alloy")) r = true)
            (rows filtered) = rows_a) as ->.
  { apply list_filter_iff. intros r'. unfold compose.
    rewrite eq_cell_true. split; [by intros [? _]|done]. }
  rewrite Ete. cbn [mbind result_bind]. rewrite Hpt, Et.
  cbn [mbind result_bind]. exact Er.
Qed.

Lemma default_view_witness :
  ∃ a t r, App.selection Data.two_rows no_picks = Ok (Detail a t r)
           ∧ a = Str "A5052".
Proof.
  destruct (default_view Data.two_rows no_picks ltac:(compute_done)
              ltac:(compute_done) ltac:(done) ltac:(compute_done)
              eq_refl eq_refl) as (a & t & r & E & _ & Ha & _).
  exists a, t, r. split; [exact E|].
  cbn zeta in Ha. rewrite decide_True in Ha by compute_done. exact Ha.
Defined.

(** X21.  For a frame with rows whose corrosion classes are texts and
    whose values in the five filtered columns are all integers within what
    a slider accepts, the widgets left alone give a filter state that
    selects every category of the frame and whose ranges are the bounds of
    the sliders, bounds Streamlit accepts, and under it the filter returns
    the frame itself: every row is kept. *)
Theorem full_span_retains_integral (df : DataFrame) :
  rows df ≠ [] →
  "corrosion_resistance" ∈ columns df →
  Forall (λ c, c ∈ columns df) Spec.range_columns →
  Forall (λ r, is_str (Pd.at_ r "corrosion_resistance") = true
               ∧ Forall (λ c, Spec.integral (Pd.at_ r c)
                              ∧ File.in_slider_range (Pd.at_ r c))
                   Spec.range_columns)
         (rows df) →
  ∃ fs, App.filter_widgets df no_picks = Ok fs
        ∧ File.accepted fs
        ∧ (∀ x, x ∈ selected_corrosion fs
                ↔ ∃ r, r ∈ rows df ∧ Pd.at_ r "corrosion_resistance" = x)
        ∧ Forall (λ p, (s ← Pd.series df p.1; App.slider_bounds s) = Ok p.2)
            [ ("tensile_strength_mpa", tensile_range fs);
              ("yield_strength_mpa", yield_range fs);
              ("elongation_percent", elongation_range fs);
              ("thermal_conductivity_w_mk", thermal_cond_range fs);
              ("electrical_conductivity_iacs", elec_cond_range fs) ]
        ∧ App.apply_filter df fs = Ok df.
Proof.
  intros Hne Hcorr Hcols Hboth.
  assert (Forall (λ r, is_str (Pd.at_ r "corrosion_resistance") = true
                       ∧ Forall (λ c, Spec.integral (Pd.at_ r c))
                           Spec.range_columns) (rows df)) as Hrows.
  { eapply Forall_impl; [exact Hboth|]. intros r [? Hr]. split; [done|].
    eapply Forall_impl; [exact Hr|]. by intros c [? _]. }
  assert (Forall (λ r, Forall (λ c, File.in_slider_range (Pd.at_ r c))
                         Spec.range_columns) (rows df)) as Hrange.
  { eapply Forall_impl; [exact Hboth|]. intros r [_ Hr].
    eapply Forall_impl; [exact Hr|]. by intros c [_ ?]. }
  clear Hboth.
  enough (∃ fs, App.filter_widgets df no_picks = Ok fs
        ∧ (∀ x, x ∈ selected_corrosion fs
                ↔ ∃ r, r ∈ rows df ∧ Pd.at_ r "corrosion_resistance" = x)
        ∧ Forall (λ p, (s ← Pd.series df p.1; App.slider_bounds s) = Ok p.2)
            [ ("tensile_strength_mpa", tensile_range fs);
              ("yield_strength_mpa", yield_range fs);
              ("elongation_percent", elongation_range fs);
              ("thermal_conductivity_w_mk", thermal_cond_range fs);
              ("electrical_conductivity_iacs", elec_cond_range fs) ]
        ∧ App.apply_filter df fs = Ok df) as (fs & E & ? & ? & ?).
  { exists fs. split; [done|]. split; [|done].
    by apply (filter_widgets_accepted df). }
  rewrite Forall_forall in Hcols.
  assert (∀ c, c ∈ Spec.range_columns →
    ∃ range, App.range_slider df c None = Ok range
             ∧ Forall (λ r, Spec.within (Pd.at_ r c) range) (rows df))
    as Hslider.
  { intros c Hc. apply range_slider_integral; [by apply Hcols|done|].
    eapply Forall_impl; [exact Hrows|]. intros r [_ Hr].
    rewrite Forall_forall in Hr. by apply Hr. }
  destruct (Hslider "tensile_strength_mpa") as (r1 & E1 & W1); [compute_done|].
  destruct (Hslider "yield_strength_mpa") as (r2 & E2 & W2); [compute_done|].
  destruct (Hslider "elongation_percent") as (r3 & E3 & W3); [compute_done|].
  destruct (Hslider "thermal_conductivity_w_mk") as (r4 & E4 & W4);
    [compute_done|].
  destruct (Hslider "electrical_conductivity_iacs") as (r5 & E5 & W5);
    [compute_done|].
  destruct (sorted_unique_texts
              ((λ r, Pd.at_ r "corrosion_resistance") <$> rows df))
    as (options & Eo & Ho).
  { apply Forall_fmap. eapply Forall_impl; [exact Hrows|]. by intros r [? _]. }
  eexists. split.
  - unfold App.filter_widgets. rewrite (series_Ok _ _ Hcorr).
    cbn [mbind result_bind]. rewrite Eo.
    cbn [mbind result_bind pick_tensile pick_yield pick_elongation
         pick_thermal_cond pick_elec_cond pick_corrosion no_picks
         St.multiselect].
    rewrite E1. cbn [mbind result_bind]. rewrite E2. cbn [mbind result_bind].
    rewrite E3. cbn [mbind result_bind]. rewrite E4. cbn [mbind result_bind].
    rewrite E5. cbn [mbind result_bind]. done.
  - split.
    { intros x. cbn [selected_corrosion]. rewrite Ho, list_elem_of_fmap.
      split; intros (r & ? & ?); by exists r. }
    split.
    { rewrite range_slider_no_pick in E1, E2, E3, E4, E5.
      by repeat constructor. }
    rewrite apply_filter_Ok.
    + rewrite filter_all; [by destruct df|].
      rewrite Forall_forall in W1, W2, W3, W4, W5.
      apply Forall_forall. intros r Hr. unfold Spec.retained.
      cbn [selected_corrosion tensile_range yield_range elongation_range
           thermal_cond_range elec_cond_range].
      split_and!; [|by auto..].
      apply Ho.
      by apply (list_elem_of_fmap_2 (λ r, Pd.at_ r "corrosion_resistance")).
    + split; [done|]. split; [by apply Forall_forall|].
      eapply Forall_impl; [exact Hrows|]. intros r [_ Hr].
      eapply Forall_impl; [exact Hr|]. intros c. apply integral_not_str.
Qed.

Lemma full_span_retains_integral_witness :
  ∃ fs, App.filter_widgets Data.two_rows no_picks = Ok fs
        ∧ App.apply_filter Data.two_rows fs = Ok Data.two_rows.
Proof.
  destruct (full_span_retains_integral Data.two_rows ltac:(done)
              ltac:(compute_done) ltac:(compute_done) ltac:(compute_done))
    as (fs & H1 & _ & _ & _ & H2).
  exists fs. split; [exact H1|exact H2].
Defined.
